(** * Solr to OpenSearch schema migration: a shallow embedding

    The development follows the Python sources of the migration tool:
    [migrate/utils.py], [migrate/exceptions.py], the helpers under
    [migrate/helpers/], [migrate/reports/report.py] and the orchestration in
    [migrate/solr2os_migrate.py].  Python objects are modelled as values of
    [pyval]; dictionaries are association lists in insertion order; code that
    mutates instance state is a function from a world to a result and a new
    world, and a raised exception keeps the mutations made before it. *)

From Stdlib Require Import List String Ascii ZArith NArith Bool Lia Arith.
From Stdlib Require Import DecimalString DecimalZ.
From Stdlib Require Import Permutation Sorted.
Import ListNotations.
Local Open Scope string_scope.

Set Implicit Arguments.
Set Warnings "-register-all".

(** ** Python strings

    A [string] is read as a sequence of code points below 256. *)

Module PyStr.

Definition code (c : ascii) : N := N_of_ascii c.

(** [str.lower] on the code points below 256: A..Z and the Latin-1
    capitals (all of 192..222 but the multiplication sign 215). *)
Definition lower_char (c : ascii) : ascii :=
  let n := code c in
  if (((65 <=? n) && (n <=? 90)) ||
      ((192 <=? n) && (n <=? 222) && negb (n =? 215)))%N
  then ascii_of_N (n + 32) else c.

Fixpoint lower (s : string) : string :=
  match s with
  | EmptyString => EmptyString
  | String c s' => String (lower_char c) (lower s')
  end.

(** [s.startswith(p)] *)
Definition startswith (p s : string) : bool := String.prefix p s.

(** [sep in s], for a non-empty [sep]. *)
Fixpoint contains (sep s : string) : bool :=
  match s with
  | EmptyString => String.prefix sep EmptyString
  | String _ s' => String.prefix sep s || contains sep s'
  end.

(** [s.split(sep)] for a non-empty [sep]: [skip] counts the characters of
    a separator that has just been recognised and is still to be dropped,
    [cur] is the piece being read. *)
Fixpoint split_go (sep : string) (skip : nat) (cur : string) (s : string)
  : list string :=
  match s with
  | EmptyString => [cur]
  | String c s' =>
      match skip with
      | S k => split_go sep k cur s'
      | O =>
          if String.prefix sep s
          then cur :: split_go sep (String.length sep - 1) EmptyString s'
          else split_go sep 0 (cur ++ String c EmptyString) s'
      end
  end.

Definition split (sep s : string) : list string :=
  split_go sep 0 EmptyString s.

(** [s.replace(old, new)] for a non-empty [old]. *)
Fixpoint replace_go (old new : string) (skip : nat) (s : string) : string :=
  match s with
  | EmptyString => EmptyString
  | String c s' =>
      match skip with
      | S k => replace_go old new k s'
      | O =>
          if String.prefix old s
          then new ++ replace_go old new (String.length old - 1) s'
          else String c (replace_go old new 0 s')
      end
  end.

Definition replace (old new s : string) : string :=
  replace_go old new 0 s.

(** [s.endswith(p)] *)
Definition endswith (p s : string) : bool :=
  let n := String.length s in
  let m := String.length p in
  (m <=? n)%nat && String.eqb (String.substring (n - m) m s) p.

(** White space of [str.strip()] among the code points below 256. *)
Definition is_space (c : ascii) : bool :=
  let n := code c in
  (((9 <=? n) && (n <=? 13)) || ((28 <=? n) && (n <=? 32)) ||
   (n =? 133) || (n =? 160))%N.

Fixpoint lstrip (s : string) : string :=
  match s with
  | EmptyString => EmptyString
  | String c s' => if is_space c then lstrip s' else s
  end.

Fixpoint rstrip (s : string) : string :=
  match s with
  | EmptyString => EmptyString
  | String c s' =>
      match rstrip s' with
      | EmptyString => if is_space c then EmptyString else String c EmptyString
      | r => String c r
      end
  end.

Definition strip (s : string) : string := rstrip (lstrip s).

(** [sep.join(l)] *)
Definition join (sep : string) (l : list string) : string :=
  String.concat sep l.

(** The double quote character, as a one-character string. *)
Definition dquote : string := String (ascii_of_N 34) EmptyString.

(** [str(n)] for an integer. *)
Definition of_Z (z : Z) : string :=
  NilZero.string_of_int (Z.to_int z).

Definition of_nat (n : nat) : string := of_Z (Z.of_nat n).

End PyStr.

(** ** Python values and dictionaries *)

(** The JSON-shaped values the tool handles: schema entries read from the
    source engine, mapping-table defaults, resolved attribute values, pages
    of documents. *)
Inductive pyval : Type :=
| PNone
| PBool (b : bool)
| PInt (z : Z)
| PStr (s : string)
| PList (l : list pyval)
| PDict (d : list (string * pyval)).

(** A [dict] with string keys, in insertion order, keys unique. *)
Definition dict (V : Type) : Type := list (string * V).

Section Dict.
Variable V : Type.

(** [d.get(k)] *)
Fixpoint dict_get (k : string) (d : dict V) : option V :=
  match d with
  | [] => None
  | (k', v) :: d' => if String.eqb k k' then Some v else dict_get k d'
  end.

(** [k in d] *)
Definition dict_mem (k : string) (d : dict V) : bool :=
  match dict_get k d with Some _ => true | None => false end.

(** [d[k] = v]: an existing key keeps its place, a new one goes last. *)
Fixpoint dict_set (k : string) (v : V) (d : dict V) : dict V :=
  match d with
  | [] => [(k, v)]
  | (k', v') :: d' =>
      if String.eqb k k' then (k', v) :: d' else (k', v') :: dict_set k v d'
  end.

(** [d.pop(k, None)] with the result dropped. *)
Fixpoint dict_pop (k : string) (d : dict V) : dict V :=
  match d with
  | [] => []
  | (k', v') :: d' =>
      if String.eqb k k' then d' else (k', v') :: dict_pop k d'
  end.

Definition dict_keys (d : dict V) : list string := map fst d.

End Dict.

(** [d.get(k)] on a dictionary of Python values: a stored [None] and a
    missing key are both [None]. *)
Definition py_get (k : string) (d : dict pyval) : pyval :=
  match dict_get k d with Some v => v | None => PNone end.

Definition is_none (v : pyval) : bool :=
  match v with PNone => true | _ => false end.

(** Truth value of a Python value, as in [if v:]. *)
Definition py_truthy (v : pyval) : bool :=
  match v with
  | PNone => false
  | PBool b => b
  | PInt z => negb (z =? 0)%Z
  | PStr s => negb (String.eqb s EmptyString)
  | PList l => match l with [] => false | _ => true end
  | PDict d => match d with [] => false | _ => true end
  end.

(** [a == b] *)
Fixpoint py_eq (a b : pyval) {struct a} : bool :=
  match a, b with
  | PNone, PNone => true
  | PBool x, PBool y => Bool.eqb x y
  | PBool x, PInt y => ((if x then 1 else 0) =? y)%Z
  | PInt x, PBool y => (x =? (if y then 1 else 0))%Z
  | PInt x, PInt y => (x =? y)%Z
  | PStr x, PStr y => String.eqb x y
  | PList l1, PList l2 =>
      (fix go (l1 l2 : list pyval) {struct l1} : bool :=
         match l1, l2 with
         | [], [] => true
         | x :: xs, y :: ys => py_eq x y && go xs ys
         | _, _ => false
         end) l1 l2
  | PDict d1, PDict d2 =>
      (List.length d1 =? List.length d2)%nat &&
      (fix go (d : list (string * pyval)) {struct d} : bool :=
         match d with
         | [] => true
         | (k, v) :: d' =>
             match dict_get k d2 with
             | Some v' => py_eq v v' && go d'
             | None => false
             end
         end) d1
  | _, _ => false
  end.

(** ** [migrate/utils.py]: [get_hash] *)

Module Json.

Definition hex_digit (n : N) : ascii :=
  ascii_of_N (if (n <? 10)%N then 48 + n else 87 + n).

(** One character of [json.dumps(..., ensure_ascii=True)]: quote and
    backslash are escaped, the five short control escapes are used, and
    everything outside space..tilde becomes [\u00xx]. *)
Definition escape_char (c : ascii) : string :=
  let n := PyStr.code c in
  if (n =? 34)%N then String "\" (String c EmptyString)
  else if (n =? 92)%N then "\\"
  else if (n =? 10)%N then "\n"
  else if (n =? 13)%N then "\r"
  else if (n =? 9)%N then "\t"
  else if (n =? 12)%N then "\f"
  else if (n =? 8)%N then "\b"
  else if ((32 <=? n) && (n <=? 126))%N then String c EmptyString
  else "\u00" ++ String (hex_digit (n / 16)) (String (hex_digit (n mod 16)) EmptyString).

Fixpoint escape (s : string) : string :=
  match s with
  | EmptyString => EmptyString
  | String c s' => escape_char c ++ escape s'
  end.

Definition quote (s : string) : string := PyStr.dquote ++ escape s ++ PyStr.dquote.

(** Insertion sort of the items by key, the order of [sort_keys=True]. *)
Fixpoint insert_item (V : Type) (kv : string * V) (l : list (string * V))
  : list (string * V) :=
  match l with
  | [] => [kv]
  | kv' :: l' =>
      if String.leb (fst kv) (fst kv') then kv :: l
      else kv' :: insert_item kv l'
  end.

Definition sort_items (V : Type) (l : list (string * V)) : list (string * V) :=
  fold_right (@insert_item V) [] l.

(** [json.dumps(v, sort_keys=sk, ensure_ascii=True)] *)
Fixpoint dumps (sk : bool) (v : pyval) : string :=
  match v with
  | PNone => "null"
  | PBool true => "true"
  | PBool false => "false"
  | PInt z => PyStr.of_Z z
  | PStr s => quote s
  | PList l =>
      "[" ++ PyStr.join ", " ((fix go (l : list pyval) : list string :=
                                 match l with
                                 | [] => []
                                 | x :: xs => dumps sk x :: go xs
                                 end) l) ++ "]"
  | PDict d =>
      let items :=
        (fix go (d : list (string * pyval)) : list (string * string) :=
           match d with
           | [] => []
           | (k, x) :: d' => (k, dumps sk x) :: go d'
           end) d in
      let items := if sk then sort_items items else items in
      "{" ++ PyStr.join ", "
               (map (fun kv => quote (fst kv) ++ ": " ++ snd kv) items) ++ "}"
  end.

End Json.

(** SHA-256 (FIPS 180-4) on 32-bit words held in [Z]. *)
Module Sha256.
Local Open Scope Z_scope.

Definition w32 (x : Z) : Z := x mod 4294967296.
Definition rotr (n x : Z) : Z :=
  Z.lor (Z.shiftr x n) (w32 (Z.shiftl x (32 - n))).
Definition shr (n x : Z) : Z := Z.shiftr x n.

Definition Ch (x y z : Z) : Z :=
  Z.lxor (Z.land x y) (Z.land (Z.lxor x 4294967295) z).
Definition Maj (x y z : Z) : Z :=
  Z.lxor (Z.lxor (Z.land x y) (Z.land x z)) (Z.land y z).
Definition Sig0 (x : Z) : Z := Z.lxor (Z.lxor (rotr 2 x) (rotr 13 x)) (rotr 22 x).
Definition Sig1 (x : Z) : Z := Z.lxor (Z.lxor (rotr 6 x) (rotr 11 x)) (rotr 25 x).
Definition sig0 (x : Z) : Z := Z.lxor (Z.lxor (rotr 7 x) (rotr 18 x)) (shr 3 x).
Definition sig1 (x : Z) : Z := Z.lxor (Z.lxor (rotr 17 x) (rotr 19 x)) (shr 10 x).

(** The first 64 primes. *)
Definition is_prime (n : nat) : bool :=
  forallb (fun d => negb (Nat.eqb (n mod d) 0)) (seq 2 (n - 2)).

Definition primes : list Z :=
  map Z.of_nat (filter is_prime (seq 2 310)).

(** The largest [r] below 2^[k] above the given one with
    [pow r <= n], found bit by bit. *)
Fixpoint root_bits (k : nat) (pow : Z -> Z) (n r : Z) : Z :=
  match k with
  | O => r
  | S k' =>
      let c := r + 2 ^ Z.of_nat k' in
      root_bits k' pow n (if pow c <=? n then c else r)
  end.

(** The round constants: the first 32 bits of the fractional parts of
    the cube roots of the first 64 primes. *)
Definition K : list Z :=
  Eval vm_compute in
    map (fun p => w32 (root_bits 40 (fun x => x * x * x) (p * 2 ^ 96) 0)) primes.

(** The initial hash value: the same of the square roots of the first
    8 primes. *)
Definition H0 : list Z :=
  Eval vm_compute in
    map (fun p => w32 (root_bits 40 (fun x => x * x) (p * 2 ^ 64) 0))
      (firstn 8 primes).

(** Padding: a one bit, zeros up to 56 modulo 64, the bit length on
    eight bytes, most significant first. *)
Definition be_bytes (n : nat) (x : Z) : list Z :=
  map (fun i => (x / 2 ^ (8 * Z.of_nat i)) mod 256) (rev (seq 0 n)).

Definition pad (msg : list Z) : list Z :=
  let len := Z.of_nat (List.length msg) in
  let zeros := Z.to_nat ((55 - len) mod 64) in
  msg ++ [128] ++ repeat 0 zeros ++ be_bytes 8 (8 * len).

Fixpoint words (fuel : nat) (bs : list Z) : list Z :=
  match fuel, bs with
  | S f, a :: b :: c :: d :: bs' =>
      (((a * 256 + b) * 256 + c) * 256 + d) :: words f bs'
  | _, _ => []
  end.

(** The message schedule, newest word first: [sched] holds
    W(t-1), W(t-2), ... *)
Fixpoint extend (n : nat) (sched : list Z) : list Z :=
  match n with
  | O => sched
  | S n' =>
      let w := w32 (sig1 (nth 1 sched 0) + nth 6 sched 0 +
                    sig0 (nth 14 sched 0) + nth 15 sched 0) in
      extend n' (w :: sched)
  end.

Definition schedule (block : list Z) : list Z :=
  rev (extend 48 (rev block)).

Definition round (st : list Z) (kw : Z * Z) : list Z :=
  match st with
  | [a; b; c; d; e; f; g; h] =>
      let t1 := w32 (h + Sig1 e + Ch e f g + fst kw + snd kw) in
      let t2 := w32 (Sig0 a + Maj a b c) in
      [w32 (t1 + t2); a; b; c; w32 (d + t1); e; f; g]
  | _ => st
  end.

Definition compress (h : list Z) (block : list Z) : list Z :=
  let st := fold_left round (combine K (schedule block)) h in
  map (fun p => w32 (fst p + snd p)) (combine h st).

Fixpoint blocks (fuel : nat) (ws : list Z) : list (list Z) :=
  match fuel, ws with
  | _, [] => []
  | O, _ => []
  | S f, _ => firstn 16 ws :: blocks f (skipn 16 ws)
  end.

(** The digest as one 256-bit number, what [int(hexdigest(), 16)] is. *)
Definition digest (msg : list Z) : Z :=
  let bs := pad msg in
  let ws := words (List.length bs) bs in
  let h := fold_left compress (blocks (List.length ws) ws) H0 in
  fold_left (fun acc w => acc * 4294967296 + w) h 0.

End Sha256.

Definition utf8_of_ascii_text (s : string) : list Z :=
  map (fun c => Z.of_N (PyStr.code c)) (list_ascii_of_string s).

(** [get_hash(d)]: the SHA-256 of the sorted, ASCII-only JSON text of [d],
    reduced modulo 10^8 and written in decimal. *)
Definition get_hash (d : pyval) : string :=
  let json_str := Json.dumps true d in
  PyStr.of_Z (Sha256.digest (utf8_of_ascii_text json_str) mod 10 ^ 8).

(** ** [migrate/exceptions.py] *)

Definition MAPPING_NOT_FOUND : string := "Implementation not available.".

(** The exception classes of the tool.  [PyError] stands for the built-in
    exceptions ([KeyError], [AttributeError], [IndexError], [TypeError], ...)
    and the errors of client libraries, none of which derives from
    [MigrationException]. *)
Inductive exn : Type :=
| TokenizerMappingException (name message : string)
| FilterMappingException (name message : string)
| CharFilterMappingException (name message : string)
| DynamicFieldMappingException (name message : string) (field_type : option string)
| FieldMappingException (name message : string) (field_type : option string)
| FieldTypeMappingException (name message : string) (analyzer_exception : option exn)
| CopyFieldMappingException (name message : string) (src_field : option string)
| OpenSearchMappingException (name : option string) (message : string)
| AnalyzerMappingException (name : string)
    (filter_exception tokenizer_exception char_filter_exception : option exn)
| PyError (kind message : string).

(** [str(e)]: the message given to [Exception.__init__];
    [AnalyzerMappingException] builds its own. *)
Fixpoint exn_str (e : exn) : string :=
  match e with
  | TokenizerMappingException _ m => m
  | FilterMappingException _ m => m
  | CharFilterMappingException _ m => m
  | DynamicFieldMappingException _ m _ => m
  | FieldMappingException _ m _ => m
  | FieldTypeMappingException _ m _ => m
  | CopyFieldMappingException _ m _ => m
  | OpenSearchMappingException _ m => m
  | AnalyzerMappingException name fe te ce =>
      let message := "Analyzer '" ++ name ++ "' failed" in
      let message :=
        match te with
        | Some t => message ++ " - Tokenizer: " ++ exn_str t
        | None => message
        end in
      let message :=
        match fe with
        | Some f => message ++ " - Filter: " ++ exn_str f
        | None => message
        end in
      match ce with
      | Some c => message ++ " - CharFilter: " ++ exn_str c
      | None => message
      end
  | PyError _ m => m
  end.

(** [getattr(e, 'name', 'unknown')] *)
Definition exn_name (e : exn) : string :=
  match e with
  | TokenizerMappingException n _ => n
  | FilterMappingException n _ => n
  | CharFilterMappingException n _ => n
  | DynamicFieldMappingException n _ _ => n
  | FieldMappingException n _ _ => n
  | FieldTypeMappingException n _ _ => n
  | CopyFieldMappingException n _ _ => n
  | OpenSearchMappingException (Some n) _ => n
  | OpenSearchMappingException None _ => "None"
  | AnalyzerMappingException n _ _ _ => n
  | PyError _ _ => "unknown"
  end.

(** The result of a call: a value, or a raised exception. *)
Inductive res (A : Type) : Type :=
| Ok (a : A)
| Raise (e : exn).
Arguments Ok {A} a.
Arguments Raise {A} e.

Definition AttributeError (m : string) : exn := PyError "AttributeError" m.
Definition IndexError : exn := PyError "IndexError" "list index out of range".
Definition KeyError (k : string) : exn := PyError "KeyError" ("'" ++ k ++ "'").
Definition TypeError (m : string) : exn := PyError "TypeError" m.

(** ** Mapping tables and target constructs *)

(** One attribute rule of a mapping table entry; each field records
    whether the key is present in the JSON rule. *)
Record Rule : Type := mkRule {
  valueFrom : option string;
  valueFromFile : option string;
  rule_create_package : bool;       (* the key [create_package] is present *)
  default : option pyval
}.

(** One entry of a mapping table: the target [type] and, in file order, the
    rules of the other keys. *)
Record TargetSpec : Type := mkTargetSpec {
  spec_type : string;
  spec_attrs : list (string * Rule)
}.

(** What [tokenizer(...)], [token_filter(...)] and [char_filter(...)] of the
    client library build: a named definition of a type with its attributes. *)
Record Construct : Type := mkConstruct {
  c_name : string;
  c_type : string;
  c_attrs : dict pyval
}.

(** A value of [FilterHelper._filter_map]: [_map_filter] stores the token
    filter it built, [_map_char_filter] stores the bare attribute
    dictionary. *)
Inductive filter_entry : Type :=
| BuiltFilter (tf : Construct)
| RawDef (custom_filter_def : dict pyval).

(** What [analyzer(name, tokenizer=..., filter=..., char_filter=...)]
    builds. *)
Record Analyzer : Type := mkAnalyzer {
  a_name : string;
  a_tokenizer : option Construct;
  a_filter : list filter_entry;
  a_char_filter : list Construct
}.

Record PackageRecord : Type := mkPackageRecord {
  package_name : string;
  package_attrib : string;
  filter_attrib_value : string
}.

(** ** [migrate/reports/report.py] *)

Record Detail : Type := mkDetail {
  d_name : string;
  d_solr_type : string;
  d_opensearch_type : string;
  d_status : string;
  d_error : option string
}.

Record Report : Type := mkReport {
  field_types_solr : nat;
  field_types_os : nat;
  field_types_error : nat;
  field_solr : nat;
  field_os : nat;
  field_error : nat;
  dynamic_field_solr : nat;
  dynamic_field_os : nat;
  dynamic_field_error : nat;
  copy_field_solr : nat;
  copy_field_os : nat;
  copy_field_error : nat;
  data_migration_enabled : bool;
  data_migration_docs_total : Z;
  data_migration_docs_exported : Z;
  data_migration_batches : nat;
  data_migration_errors : nat;
  field_type_exception_list : list exn;
  field_exception_list : list exn;
  dynamic_field_exception_list : list exn;
  copy_field_exception_list : list exn;
  data_migration_error_list : list string;
  tokenizer_details : list Detail;
  filter_details : list Detail;
  char_filter_details : list Detail
}.

(** [Report.__init__] *)
Definition Report_init : Report :=
  mkReport 0 0 0 0 0 0 0 0 0 0 0 0 false 0 0 0 0 [] [] [] [] [] [] [] [].

(** Attribute updates, one per attribute of [Report]. *)
Definition upd_field_types_solr (f : nat -> nat) (r : Report) : Report :=
  mkReport (f (field_types_solr r)) (field_types_os r) (field_types_error r)
    (field_solr r) (field_os r) (field_error r) (dynamic_field_solr r)
    (dynamic_field_os r) (dynamic_field_error r) (copy_field_solr r)
    (copy_field_os r) (copy_field_error r) (data_migration_enabled r)
    (data_migration_docs_total r) (data_migration_docs_exported r)
    (data_migration_batches r) (data_migration_errors r)
    (field_type_exception_list r) (field_exception_list r)
    (dynamic_field_exception_list r) (copy_field_exception_list r)
    (data_migration_error_list r) (tokenizer_details r) (filter_details r)
    (char_filter_details r).

Definition upd_field_types_os (f : nat -> nat) (r : Report) : Report :=
  mkReport (field_types_solr r) (f (field_types_os r)) (field_types_error r)
    (field_solr r) (field_os r) (field_error r) (dynamic_field_solr r)
    (dynamic_field_os r) (dynamic_field_error r) (copy_field_solr r)
    (copy_field_os r) (copy_field_error r) (data_migration_enabled r)
    (data_migration_docs_total r) (data_migration_docs_exported r)
    (data_migration_batches r) (data_migration_errors r)
    (field_type_exception_list r) (field_exception_list r)
    (dynamic_field_exception_list r) (copy_field_exception_list r)
    (data_migration_error_list r) (tokenizer_details r) (filter_details r)
    (char_filter_details r).

Definition upd_field_types_error (f : nat -> nat) (r : Report) : Report :=
  mkReport (field_types_solr r) (field_types_os r) (f (field_types_error r))
    (field_solr r) (field_os r) (field_error r) (dynamic_field_solr r)
    (dynamic_field_os r) (dynamic_field_error r) (copy_field_solr r)
    (copy_field_os r) (copy_field_error r) (data_migration_enabled r)
    (data_migration_docs_total r) (data_migration_docs_exported r)
    (data_migration_batches r) (data_migration_errors r)
    (field_type_exception_list r) (field_exception_list r)
    (dynamic_field_exception_list r) (copy_field_exception_list r)
    (data_migration_error_list r) (tokenizer_details r) (filter_details r)
    (char_filter_details r).

Definition upd_field_solr (f : nat -> nat) (r : Report) : Report :=
  mkReport (field_types_solr r) (field_types_os r) (field_types_error r)
    (f (field_solr r)) (field_os r) (field_error r) (dynamic_field_solr r)
    (dynamic_field_os r) (dynamic_field_error r) (copy_field_solr r)
    (copy_field_os r) (copy_field_error r) (data_migration_enabled r)
    (data_migration_docs_total r) (data_migration_docs_exported r)
    (data_migration_batches r) (data_migration_errors r)
    (field_type_exception_list r) (field_exception_list r)
    (dynamic_field_exception_list r) (copy_field_exception_list r)
    (data_migration_error_list r) (tokenizer_details r) (filter_details r)
    (char_filter_details r).

Definition upd_field_os (f : nat -> nat) (r : Report) : Report :=
  mkReport (field_types_solr r) (field_types_os r) (field_types_error r)
    (field_solr r) (f (field_os r)) (field_error r) (dynamic_field_solr r)
    (dynamic_field_os r) (dynamic_field_error r) (copy_field_solr r)
    (copy_field_os r) (copy_field_error r) (data_migration_enabled r)
    (data_migration_docs_total r) (data_migration_docs_exported r)
    (data_migration_batches r) (data_migration_errors r)
    (field_type_exception_list r) (field_exception_list r)
    (dynamic_field_exception_list r) (copy_field_exception_list r)
    (data_migration_error_list r) (tokenizer_details r) (filter_details r)
    (char_filter_details r).

Definition upd_field_error (f : nat -> nat) (r : Report) : Report :=
  mkReport (field_types_solr r) (field_types_os r) (field_types_error r)
    (field_solr r) (field_os r) (f (field_error r)) (dynamic_field_solr r)
    (dynamic_field_os r) (dynamic_field_error r) (copy_field_solr r)
    (copy_field_os r) (copy_field_error r) (data_migration_enabled r)
    (data_migration_docs_total r) (data_migration_docs_exported r)
    (data_migration_batches r) (data_migration_errors r)
    (field_type_exception_list r) (field_exception_list r)
    (dynamic_field_exception_list r) (copy_field_exception_list r)
    (data_migration_error_list r) (tokenizer_details r) (filter_details r)
    (char_filter_details r).

Definition upd_dynamic_field_solr (f : nat -> nat) (r : Report) : Report :=
  mkReport (field_types_solr r) (field_types_os r) (field_types_error r)
    (field_solr r) (field_os r) (field_error r) (f (dynamic_field_solr r))
    (dynamic_field_os r) (dynamic_field_error r) (copy_field_solr r)
    (copy_field_os r) (copy_field_error r) (data_migration_enabled r)
    (data_migration_docs_total r) (data_migration_docs_exported r)
    (data_migration_batches r) (data_migration_errors r)
    (field_type_exception_list r) (field_exception_list r)
    (dynamic_field_exception_list r) (copy_field_exception_list r)
    (data_migration_error_list r) (tokenizer_details r) (filter_details r)
    (char_filter_details r).

Definition upd_dynamic_field_os (f : nat -> nat) (r : Report) : Report :=
  mkReport (field_types_solr r) (field_types_os r) (field_types_error r)
    (field_solr r) (field_os r) (field_error r) (dynamic_field_solr r)
    (f (dynamic_field_os r)) (dynamic_field_error r) (copy_field_solr r)
    (copy_field_os r) (copy_field_error r) (data_migration_enabled r)
    (data_migration_docs_total r) (data_migration_docs_exported r)
    (data_migration_batches r) (data_migration_errors r)
    (field_type_exception_list r) (field_exception_list r)
    (dynamic_field_exception_list r) (copy_field_exception_list r)
    (data_migration_error_list r) (tokenizer_details r) (filter_details r)
    (char_filter_details r).

Definition upd_dynamic_field_error (f : nat -> nat) (r : Report) : Report :=
  mkReport (field_types_solr r) (field_types_os r) (field_types_error r)
    (field_solr r) (field_os r) (field_error r) (dynamic_field_solr r)
    (dynamic_field_os r) (f (dynamic_field_error r)) (copy_field_solr r)
    (copy_field_os r) (copy_field_error r) (data_migration_enabled r)
    (data_migration_docs_total r) (data_migration_docs_exported r)
    (data_migration_batches r) (data_migration_errors r)
    (field_type_exception_list r) (field_exception_list r)
    (dynamic_field_exception_list r) (copy_field_exception_list r)
    (data_migration_error_list r) (tokenizer_details r) (filter_details r)
    (char_filter_details r).

Definition upd_copy_field_solr (f : nat -> nat) (r : Report) : Report :=
  mkReport (field_types_solr r) (field_types_os r) (field_types_error r)
    (field_solr r) (field_os r) (field_error r) (dynamic_field_solr r)
    (dynamic_field_os r) (dynamic_field_error r) (f (copy_field_solr r))
    (copy_field_os r) (copy_field_error r) (data_migration_enabled r)
    (data_migration_docs_total r) (data_migration_docs_exported r)
    (data_migration_batches r) (data_migration_errors r)
    (field_type_exception_list r) (field_exception_list r)
    (dynamic_field_exception_list r) (copy_field_exception_list r)
    (data_migration_error_list r) (tokenizer_details r) (filter_details r)
    (char_filter_details r).

Definition upd_copy_field_os (f : nat -> nat) (r : Report) : Report :=
  mkReport (field_types_solr r) (field_types_os r) (field_types_error r)
    (field_solr r) (field_os r) (field_error r) (dynamic_field_solr r)
    (dynamic_field_os r) (dynamic_field_error r) (copy_field_solr r)
    (f (copy_field_os r)) (copy_field_error r) (data_migration_enabled r)
    (data_migration_docs_total r) (data_migration_docs_exported r)
    (data_migration_batches r) (data_migration_errors r)
    (field_type_exception_list r) (field_exception_list r)
    (dynamic_field_exception_list r) (copy_field_exception_list r)
    (data_migration_error_list r) (tokenizer_details r) (filter_details r)
    (char_filter_details r).

Definition upd_copy_field_error (f : nat -> nat) (r : Report) : Report :=
  mkReport (field_types_solr r) (field_types_os r) (field_types_error r)
    (field_solr r) (field_os r) (field_error r) (dynamic_field_solr r)
    (dynamic_field_os r) (dynamic_field_error r) (copy_field_solr r)
    (copy_field_os r) (f (copy_field_error r)) (data_migration_enabled r)
    (data_migration_docs_total r) (data_migration_docs_exported r)
    (data_migration_batches r) (data_migration_errors r)
    (field_type_exception_list r) (field_exception_list r)
    (dynamic_field_exception_list r) (copy_field_exception_list r)
    (data_migration_error_list r) (tokenizer_details r) (filter_details r)
    (char_filter_details r).

Definition upd_data_migration_enabled (f : bool -> bool) (r : Report) : Report :=
  mkReport (field_types_solr r) (field_types_os r) (field_types_error r)
    (field_solr r) (field_os r) (field_error r) (dynamic_field_solr r)
    (dynamic_field_os r) (dynamic_field_error r) (copy_field_solr r)
    (copy_field_os r) (copy_field_error r) (f (data_migration_enabled r))
    (data_migration_docs_total r) (data_migration_docs_exported r)
    (data_migration_batches r) (data_migration_errors r)
    (field_type_exception_list r) (field_exception_list r)
    (dynamic_field_exception_list r) (copy_field_exception_list r)
    (data_migration_error_list r) (tokenizer_details r) (filter_details r)
    (char_filter_details r).

Definition upd_data_migration_docs_total (f : Z -> Z) (r : Report) : Report :=
  mkReport (field_types_solr r) (field_types_os r) (field_types_error r)
    (field_solr r) (field_os r) (field_error r) (dynamic_field_solr r)
    (dynamic_field_os r) (dynamic_field_error r) (copy_field_solr r)
    (copy_field_os r) (copy_field_error r) (data_migration_enabled r)
    (f (data_migration_docs_total r)) (data_migration_docs_exported r)
    (data_migration_batches r) (data_migration_errors r)
    (field_type_exception_list r) (field_exception_list r)
    (dynamic_field_exception_list r) (copy_field_exception_list r)
    (data_migration_error_list r) (tokenizer_details r) (filter_details r)
    (char_filter_details r).

Definition upd_data_migration_docs_exported (f : Z -> Z) (r : Report) : Report :=
  mkReport (field_types_solr r) (field_types_os r) (field_types_error r)
    (field_solr r) (field_os r) (field_error r) (dynamic_field_solr r)
    (dynamic_field_os r) (dynamic_field_error r) (copy_field_solr r)
    (copy_field_os r) (copy_field_error r) (data_migration_enabled r)
    (data_migration_docs_total r) (f (data_migration_docs_exported r))
    (data_migration_batches r) (data_migration_errors r)
    (field_type_exception_list r) (field_exception_list r)
    (dynamic_field_exception_list r) (copy_field_exception_list r)
    (data_migration_error_list r) (tokenizer_details r) (filter_details r)
    (char_filter_details r).

Definition upd_data_migration_batches (f : nat -> nat) (r : Report) : Report :=
  mkReport (field_types_solr r) (field_types_os r) (field_types_error r)
    (field_solr r) (field_os r) (field_error r) (dynamic_field_solr r)
    (dynamic_field_os r) (dynamic_field_error r) (copy_field_solr r)
    (copy_field_os r) (copy_field_error r) (data_migration_enabled r)
    (data_migration_docs_total r) (data_migration_docs_exported r)
    (f (data_migration_batches r)) (data_migration_errors r)
    (field_type_exception_list r) (field_exception_list r)
    (dynamic_field_exception_list r) (copy_field_exception_list r)
    (data_migration_error_list r) (tokenizer_details r) (filter_details r)
    (char_filter_details r).

Definition upd_data_migration_errors (f : nat -> nat) (r : Report) : Report :=
  mkReport (field_types_solr r) (field_types_os r) (field_types_error r)
    (field_solr r) (field_os r) (field_error r) (dynamic_field_solr r)
    (dynamic_field_os r) (dynamic_field_error r) (copy_field_solr r)
    (copy_field_os r) (copy_field_error r) (data_migration_enabled r)
    (data_migration_docs_total r) (data_migration_docs_exported r)
    (data_migration_batches r) (f (data_migration_errors r))
    (field_type_exception_list r) (field_exception_list r)
    (dynamic_field_exception_list r) (copy_field_exception_list r)
    (data_migration_error_list r) (tokenizer_details r) (filter_details r)
    (char_filter_details r).

Definition upd_field_type_exception_list (f : list exn -> list exn) (r : Report) : Report :=
  mkReport (field_types_solr r) (field_types_os r) (field_types_error r)
    (field_solr r) (field_os r) (field_error r) (dynamic_field_solr r)
    (dynamic_field_os r) (dynamic_field_error r) (copy_field_solr r)
    (copy_field_os r) (copy_field_error r) (data_migration_enabled r)
    (data_migration_docs_total r) (data_migration_docs_exported r)
    (data_migration_batches r) (data_migration_errors r)
    (f (field_type_exception_list r)) (field_exception_list r)
    (dynamic_field_exception_list r) (copy_field_exception_list r)
    (data_migration_error_list r) (tokenizer_details r) (filter_details r)
    (char_filter_details r).

Definition upd_field_exception_list (f : list exn -> list exn) (r : Report) : Report :=
  mkReport (field_types_solr r) (field_types_os r) (field_types_error r)
    (field_solr r) (field_os r) (field_error r) (dynamic_field_solr r)
    (dynamic_field_os r) (dynamic_field_error r) (copy_field_solr r)
    (copy_field_os r) (copy_field_error r) (data_migration_enabled r)
    (data_migration_docs_total r) (data_migration_docs_exported r)
    (data_migration_batches r) (data_migration_errors r)
    (field_type_exception_list r) (f (field_exception_list r))
    (dynamic_field_exception_list r) (copy_field_exception_list r)
    (data_migration_error_list r) (tokenizer_details r) (filter_details r)
    (char_filter_details r).

Definition upd_dynamic_field_exception_list (f : list exn -> list exn) (r : Report) : Report :=
  mkReport (field_types_solr r) (field_types_os r) (field_types_error r)
    (field_solr r) (field_os r) (field_error r) (dynamic_field_solr r)
    (dynamic_field_os r) (dynamic_field_error r) (copy_field_solr r)
    (copy_field_os r) (copy_field_error r) (data_migration_enabled r)
    (data_migration_docs_total r) (data_migration_docs_exported r)
    (data_migration_batches r) (data_migration_errors r)
    (field_type_exception_list r) (field_exception_list r)
    (f (dynamic_field_exception_list r)) (copy_field_exception_list r)
    (data_migration_error_list r) (tokenizer_details r) (filter_details r)
    (char_filter_details r).

Definition upd_copy_field_exception_list (f : list exn -> list exn) (r : Report) : Report :=
  mkReport (field_types_solr r) (field_types_os r) (field_types_error r)
    (field_solr r) (field_os r) (field_error r) (dynamic_field_solr r)
    (dynamic_field_os r) (dynamic_field_error r) (copy_field_solr r)
    (copy_field_os r) (copy_field_error r) (data_migration_enabled r)
    (data_migration_docs_total r) (data_migration_docs_exported r)
    (data_migration_batches r) (data_migration_errors r)
    (field_type_exception_list r) (field_exception_list r)
    (dynamic_field_exception_list r) (f (copy_field_exception_list r))
    (data_migration_error_list r) (tokenizer_details r) (filter_details r)
    (char_filter_details r).

Definition upd_data_migration_error_list (f : list string -> list string) (r : Report) : Report :=
  mkReport (field_types_solr r) (field_types_os r) (field_types_error r)
    (field_solr r) (field_os r) (field_error r) (dynamic_field_solr r)
    (dynamic_field_os r) (dynamic_field_error r) (copy_field_solr r)
    (copy_field_os r) (copy_field_error r) (data_migration_enabled r)
    (data_migration_docs_total r) (data_migration_docs_exported r)
    (data_migration_batches r) (data_migration_errors r)
    (field_type_exception_list r) (field_exception_list r)
    (dynamic_field_exception_list r) (copy_field_exception_list r)
    (f (data_migration_error_list r)) (tokenizer_details r) (filter_details r)
    (char_filter_details r).

Definition upd_tokenizer_details (f : list Detail -> list Detail) (r : Report) : Report :=
  mkReport (field_types_solr r) (field_types_os r) (field_types_error r)
    (field_solr r) (field_os r) (field_error r) (dynamic_field_solr r)
    (dynamic_field_os r) (dynamic_field_error r) (copy_field_solr r)
    (copy_field_os r) (copy_field_error r) (data_migration_enabled r)
    (data_migration_docs_total r) (data_migration_docs_exported r)
    (data_migration_batches r) (data_migration_errors r)
    (field_type_exception_list r) (field_exception_list r)
    (dynamic_field_exception_list r) (copy_field_exception_list r)
    (data_migration_error_list r) (f (tokenizer_details r)) (filter_details r)
    (char_filter_details r).

Definition upd_filter_details (f : list Detail -> list Detail) (r : Report) : Report :=
  mkReport (field_types_solr r) (field_types_os r) (field_types_error r)
    (field_solr r) (field_os r) (field_error r) (dynamic_field_solr r)
    (dynamic_field_os r) (dynamic_field_error r) (copy_field_solr r)
    (copy_field_os r) (copy_field_error r) (data_migration_enabled r)
    (data_migration_docs_total r) (data_migration_docs_exported r)
    (data_migration_batches r) (data_migration_errors r)
    (field_type_exception_list r) (field_exception_list r)
    (dynamic_field_exception_list r) (copy_field_exception_list r)
    (data_migration_error_list r) (tokenizer_details r) (f (filter_details r))
    (char_filter_details r).

Definition upd_char_filter_details (f : list Detail -> list Detail) (r : Report) : Report :=
  mkReport (field_types_solr r) (field_types_os r) (field_types_error r)
    (field_solr r) (field_os r) (field_error r) (dynamic_field_solr r)
    (dynamic_field_os r) (dynamic_field_error r) (copy_field_solr r)
    (copy_field_os r) (copy_field_error r) (data_migration_enabled r)
    (data_migration_docs_total r) (data_migration_docs_exported r)
    (data_migration_batches r) (data_migration_errors r)
    (field_type_exception_list r) (field_exception_list r)
    (dynamic_field_exception_list r) (copy_field_exception_list r)
    (data_migration_error_list r) (tokenizer_details r) (filter_details r)
    (f (char_filter_details r)).

(** [Report.add_data_migration_error] *)
Definition add_data_migration_error (error_msg : string) (r : Report) : Report :=
  upd_data_migration_error_list (fun l => (l ++ [error_msg])%list)
    (upd_data_migration_errors S r).

(** [Report.update_data_migration_stats] *)
Definition update_data_migration_stats (enabled : bool) (total exported : Z)
    (batches : nat) (r : Report) : Report :=
  upd_data_migration_batches (fun _ => batches)
    (upd_data_migration_docs_exported (fun _ => exported)
       (upd_data_migration_docs_total (fun _ => total)
          (upd_data_migration_enabled (fun _ => enabled) r))).

(** [Report.add_tokenizer_detail], [add_filter_detail],
    [add_char_filter_detail] *)
Definition add_tokenizer_detail (d : Detail) : Report -> Report :=
  upd_tokenizer_details (fun l => (l ++ [d])%list).
Definition add_filter_detail (d : Detail) : Report -> Report :=
  upd_filter_details (fun l => (l ++ [d])%list).
Definition add_char_filter_detail (d : Detail) : Report -> Report :=
  upd_char_filter_details (fun l => (l ++ [d])%list).

(** ** Configuration and collaborators *)

(** The [migration] section of the configuration, as the helpers read it. *)
Record Config : Type := mkConfig {
  create_package : bool;
  expand_files_array : bool;
  skip_text_analysis_failure : bool;
  map_fields_on_analyzer_failure : bool
}.

(** What [SolrClient.read_schema()] returns. *)
Record Schema : Type := mkSchema {
  fieldTypes : list pyval;
  fields : list pyval;
  dynamicFields : list pyval;
  copyFields : list pyval
}.

(** The surroundings of a schema migration: the mapping tables as loaded
    from their JSON files, the configuration, and the two remote
    collaborators.  [get_solr_file_data] is the source engine's file read;
    [create_and_associate_package] is the package life cycle of the target
    client, which sees the calls made before it. *)
Record Env : Type := mkEnv {
  tokenizer_mapping_json : dict TargetSpec;
  filter_mapping_json : dict TargetSpec;
  char_filter_mapping_json : dict TargetSpec;
  field_data_types_mapping : dict string;
  attributes_mapping : dict string;
  migration_config : Config;
  collection : string;
  read_schema : Schema;
  get_solr_file_data : pyval -> res string;
  create_and_associate_package :
    list (string * string) -> string -> string -> res string
}.

(** ** The mutable state of a run *)

Record World : Type := mkWorld {
  _tokenizer_map : dict string;              (* TokenizerHelper *)
  _filter_map : dict filter_entry;           (* FilterHelper *)
  _packages_map : dict PackageRecord;        (* FilterHelper *)
  package_files : list (string * string);    (* files written for packages *)
  package_calls : list (string * string);    (* create_and_associate_package calls *)
  _field_types_map : dict (option string);   (* FieldTypeHelper *)
  index_analyzers : dict Analyzer;           (* the target index's analyzers *)
  index_fields : dict (dict pyval);          (* the target index's properties *)
  _dynamic_templates : list (dict pyval);    (* OpenSearchClient *)
  _report : Report
}.

Definition World_init : World :=
  mkWorld [] [] [] [] [] [] [] [] [] Report_init.

Definition set_tokenizer_map (f : dict string -> dict string) (w : World) : World :=
  mkWorld (f (_tokenizer_map w)) (_filter_map w) (_packages_map w)
    (package_files w) (package_calls w) (_field_types_map w)
    (index_analyzers w) (index_fields w) (_dynamic_templates w) (_report w).

Definition set_filter_map (f : dict filter_entry -> dict filter_entry) (w : World) : World :=
  mkWorld (_tokenizer_map w) (f (_filter_map w)) (_packages_map w)
    (package_files w) (package_calls w) (_field_types_map w)
    (index_analyzers w) (index_fields w) (_dynamic_templates w) (_report w).

Definition set_packages_map (f : dict PackageRecord -> dict PackageRecord) (w : World) : World :=
  mkWorld (_tokenizer_map w) (_filter_map w) (f (_packages_map w))
    (package_files w) (package_calls w) (_field_types_map w)
    (index_analyzers w) (index_fields w) (_dynamic_templates w) (_report w).

Definition set_package_files (f : list (string * string) -> list (string * string)) (w : World) : World :=
  mkWorld (_tokenizer_map w) (_filter_map w) (_packages_map w)
    (f (package_files w)) (package_calls w) (_field_types_map w)
    (index_analyzers w) (index_fields w) (_dynamic_templates w) (_report w).

Definition set_package_calls (f : list (string * string) -> list (string * string)) (w : World) : World :=
  mkWorld (_tokenizer_map w) (_filter_map w) (_packages_map w)
    (package_files w) (f (package_calls w)) (_field_types_map w)
    (index_analyzers w) (index_fields w) (_dynamic_templates w) (_report w).

Definition set_field_types_map (f : dict (option string) -> dict (option string)) (w : World) : World :=
  mkWorld (_tokenizer_map w) (_filter_map w) (_packages_map w)
    (package_files w) (package_calls w) (f (_field_types_map w))
    (index_analyzers w) (index_fields w) (_dynamic_templates w) (_report w).

Definition set_index_analyzers (f : dict Analyzer -> dict Analyzer) (w : World) : World :=
  mkWorld (_tokenizer_map w) (_filter_map w) (_packages_map w)
    (package_files w) (package_calls w) (_field_types_map w)
    (f (index_analyzers w)) (index_fields w) (_dynamic_templates w) (_report w).

Definition set_index_fields (f : dict (dict pyval) -> dict (dict pyval)) (w : World) : World :=
  mkWorld (_tokenizer_map w) (_filter_map w) (_packages_map w)
    (package_files w) (package_calls w) (_field_types_map w)
    (index_analyzers w) (f (index_fields w)) (_dynamic_templates w) (_report w).

Definition set_dynamic_templates (f : list (dict pyval) -> list (dict pyval)) (w : World) : World :=
  mkWorld (_tokenizer_map w) (_filter_map w) (_packages_map w)
    (package_files w) (package_calls w) (_field_types_map w)
    (index_analyzers w) (index_fields w) (f (_dynamic_templates w)) (_report w).

Definition set_report (f : Report -> Report) (w : World) : World :=
  mkWorld (_tokenizer_map w) (_filter_map w) (_packages_map w)
    (package_files w) (package_calls w) (_field_types_map w)
    (index_analyzers w) (index_fields w) (_dynamic_templates w) (f (_report w)).

(** ** Calls that mutate the world and may raise *)

Definition M (A : Type) : Type := World -> res A * World.

Definition ret {A} (a : A) : M A := fun w => (Ok a, w).

Definition bind {A B} (m : M A) (f : A -> M B) : M B :=
  fun w =>
    match m w with
    | (Ok a, w') => f a w'
    | (Raise e, w') => (Raise e, w')
    end.

Definition raise {A} (e : exn) : M A := fun w => (Raise e, w).

(** A pure call that may raise. *)
Definition lift {A} (r : res A) : M A := fun w => (r, w).

Definition gets {A} (f : World -> A) : M A := fun w => (Ok (f w), w).

Definition modify (f : World -> World) : M unit := fun w => (Ok tt, f w).

(** [try: m  except ...]: the handler answers [None] for the exception
    classes no [except] clause names, and those propagate. *)
Definition try_except {A} (m : M A) (h : exn -> option (M A)) : M A :=
  fun w =>
    match m w with
    | (Ok a, w') => (Ok a, w')
    | (Raise e, w') =>
        match h e with
        | Some k => k w'
        | None => (Raise e, w')
        end
    end.

Declare Scope py_scope.
Delimit Scope py_scope with py.
Notation "x <- m ;; k" := (bind m (fun x => k))
  (at level 61, m at next level, right associativity) : py_scope.
Notation "m ;;; k" := (bind m (fun _ => k))
  (at level 61, right associativity) : py_scope.
Local Open Scope py_scope.

(** [for x in xs: body(x)] *)
Fixpoint for_each {A} (body : A -> M unit) (xs : list A) : M unit :=
  match xs with
  | [] => ret tt
  | x :: xs' => body x ;;; for_each body xs'
  end.

(** [for x in xs: out.append(f(x))], returning [out]. *)
Fixpoint map_each {A B} (f : A -> M B) (xs : list A) : M (list B) :=
  match xs with
  | [] => ret []
  | x :: xs' => y <- f x ;; ys <- map_each f xs' ;; ret (y :: ys)
  end.

Definition res_bind {A B} (r : res A) (f : A -> res B) : res B :=
  match r with Ok a => f a | Raise e => Raise e end.

(** [for x in v]: lists give their elements, strings their characters,
    dictionaries their keys; other values are not iterable. *)
Definition py_iter (v : pyval) : res (list pyval) :=
  match v with
  | PList l => Ok l
  | PStr s => Ok (map (fun c => PStr (String c EmptyString)) (list_ascii_of_string s))
  | PDict d => Ok (map (fun kv => PStr (fst kv)) d)
  | _ => Raise (TypeError "object is not iterable")
  end.

(** A schema entry on which [.get] is called has to be a dictionary. *)
Definition as_dict (v : pyval) : res (dict pyval) :=
  match v with
  | PDict d => Ok d
  | _ => Raise (AttributeError "object has no attribute 'get'")
  end.

(** [d[k]] where the schema carries a string: the key has to be there.
    The names, types and classes of schema entries are strings; another
    value there is outside what the model follows and is reported as a
    [TypeError]. *)
Definition index_str (k : string) (d : dict pyval) : res string :=
  match dict_get k d with
  | None => Raise (KeyError k)
  | Some (PStr s) => Ok s
  | Some _ => Raise (TypeError ("'" ++ k ++ "' is not a string"))
  end.

(** The tables are lower-cased on load:
    [{k.lower(): v for k, v in mapping.items()}]. *)
Definition lower_keys {V} (d : dict V) : dict V :=
  fold_left (fun acc kv => dict_set (PyStr.lower (fst kv)) (snd kv) acc) d [].

Section Migration.

Variable E : Env.

(** ** [migrate/helpers/tokenizer/tokenizer_helper.py] *)

Definition _tokenizer_mapping : dict TargetSpec :=
  lower_keys (tokenizer_mapping_json E).

(** [TokenizerHelper._get_tokenizer_name] *)
Definition _get_tokenizer_name (solr_tokenizer_config : pyval) : res string :=
  res_bind (as_dict solr_tokenizer_config) (fun cfg =>
  match py_get "name" cfg with
  | PNone =>
      match py_get "class" cfg with
      | PStr cls =>
          match nth_error (PyStr.split "." cls) 1 with
          | Some name =>
              if PyStr.contains "TokenizerFactory" name
              then Ok (PyStr.lower (hd EmptyString (PyStr.split "TokenizerFactory" name)))
              else Ok name
          | None => Raise IndexError
          end
      | _ => Raise (AttributeError "object has no attribute 'split'")
      end
  | PStr name => Ok (PyStr.lower name)
  | _ => Raise (AttributeError "object has no attribute 'lower'")
  end).

(** [rule['default']] *)
Definition rule_default (r : Rule) : res pyval :=
  match default r with
  | Some v => Ok v
  | None => Raise (KeyError "default")
  end.

(** The body of the loop over the table entry's keys in
    [map_tokenizer]; the key [type] is not among [spec_attrs]. *)
Definition tokenizer_attr (solr_tokenizer : dict pyval) (r : Rule) : res pyval :=
  match valueFrom r with
  | Some a =>
      match py_get a solr_tokenizer with
      | PNone => rule_default r
      | v => Ok v
      end
  | None => rule_default r
  end.

Fixpoint tokenizer_attrs (solr_tokenizer : dict pyval)
    (attrs : list (string * Rule)) (tokenizer_def : dict pyval)
  : res (dict pyval) :=
  match attrs with
  | [] => Ok tokenizer_def
  | (key, r) :: attrs' =>
      res_bind (tokenizer_attr solr_tokenizer r) (fun v =>
      tokenizer_attrs solr_tokenizer attrs' (dict_set key v tokenizer_def))
  end.

(** [TokenizerHelper.map_tokenizer] *)
Definition map_tokenizer (solr_tokenizer : pyval) : M Construct :=
  tokenizer_name <- lift (_get_tokenizer_name solr_tokenizer) ;;
  try_except
    (match dict_get tokenizer_name _tokenizer_mapping with
     | None => raise (TokenizerMappingException tokenizer_name MAPPING_NOT_FOUND)
     | Some tokenizer_mapping =>
         cfg <- lift (as_dict solr_tokenizer) ;;
         tokenizer_def <- lift (tokenizer_attrs cfg (spec_attrs tokenizer_mapping) []) ;;
         let hashed := tokenizer_name ++ get_hash (PDict tokenizer_def) in
         modify (set_tokenizer_map (dict_set hashed hashed)) ;;;
         ret (mkConstruct hashed (spec_type tokenizer_mapping) tokenizer_def)
     end)
    (fun e =>
       match e with
       | TokenizerMappingException _ _ => Some (raise e)
       | _ => Some (raise (TokenizerMappingException tokenizer_name
                             ("failed: " ++ exn_str e)))
       end).

(** ** [migrate/helpers/filters/filter_helper.py] *)

Definition _filter_mapping : dict TargetSpec :=
  lower_keys (filter_mapping_json E).

Definition _char_filter_mapping : dict TargetSpec :=
  lower_keys (char_filter_mapping_json E).

Definition _solr_collection_dir : string := "solr/" ++ collection E.
Definition _opensearch_collection_dir : string :=
  "migration_schema/" ++ collection E.
Definition _opensearch_package_dir : string :=
  _opensearch_collection_dir ++ "/packages".

(** [FilterHelper._get_filter_name] *)
Definition _get_filter_name (filter_config : pyval) : res string :=
  res_bind (as_dict filter_config) (fun cfg =>
  match py_get "name" cfg with
  | PNone =>
      match py_get "class" cfg with
      | PStr cls =>
          match nth_error (PyStr.split "." cls) 1 with
          | Some name =>
              if PyStr.contains "TokenFilterFactory" name
              then Ok (PyStr.lower (hd EmptyString (PyStr.split "TokenFilterFactory" name)))
              else if PyStr.contains "CharFilterFactory" name
              then Ok (PyStr.lower (hd EmptyString (PyStr.split "CharFilterFactory" name)))
              else if PyStr.contains "FilterFactory" name
              then Ok (PyStr.lower (hd EmptyString (PyStr.split "FilterFactory" name)))
              else Ok name
          | None => Raise IndexError
          end
      | _ => Raise (AttributeError "object has no attribute 'split'")
      end
  | PStr name => Ok (PyStr.lower name)
  | _ => Raise (AttributeError "object has no attribute 'lower'")
  end).

(** The lines kept by [_get_file_data]: stripped, not a comment, not
    blank. *)
Definition keep_line (line : string) : bool :=
  negb (PyStr.startswith "#" line) && negb (PyStr.startswith "|" line) &&
  negb (String.eqb (PyStr.strip line) EmptyString) &&
  negb (String.eqb (PyStr.strip line) "|").

(** [FilterHelper._get_file_data] *)
Definition _get_file_data (filter_name : string) (filename : pyval)
  : res (list string) :=
  res_bind (get_solr_file_data E filename) (fun data =>
  Ok (flat_map
        (fun line =>
           let line := PyStr.strip line in
           if keep_line line then
             [if PyStr.startswith "stemmeroverride" (PyStr.lower filter_name)
              then PyStr.replace (String (ascii_of_N 9) EmptyString) " => " line
              else line]
           else [])
        (PyStr.split (String (ascii_of_N 10) EmptyString) data))).

(** [FilterHelper._create_package_file] *)
Definition _create_package_file (file_path_new : string) (solr_file : pyval)
    (filter_name : string) : M unit :=
  file_data <- lift (_get_file_data filter_name solr_file) ;;
  modify (set_package_files (fun fs =>
    (fs ++ [(file_path_new,
             PyStr.join (String (ascii_of_N 10) EmptyString) file_data)])%list)).

(** [FilterHelper._handle_packages] *)
Definition _handle_packages (solr_filter_name : string) (filename : pyval)
  : M string :=
  match filename with
  | PStr fname =>
      let p_name :=
        PyStr.replace "_" "-" (PyStr.replace "." "-" (PyStr.replace "/" "-" fname)) in
      let package_name := PyStr.lower ("p-" ++ collection E ++ "-" ++ p_name) in
      let package_file := _opensearch_package_dir ++ "/" ++ package_name in
      let package_key := solr_filter_name ++ "_" ++ package_file in
      known <- gets (fun w => dict_get package_key (_packages_map w)) ;;
      match known with
      | Some p => ret (filter_attrib_value p)
      | None =>
          _create_package_file package_file filename solr_filter_name ;;;
          calls <- gets package_calls ;;
          modify (set_package_calls
                    (fun cs => (cs ++ [(package_name, package_file)])%list)) ;;;
          package_id <- lift (create_and_associate_package E calls package_name package_file) ;;
          let value := "analyzers/" ++ package_id in
          modify (set_packages_map
                    (dict_set package_key
                       (mkPackageRecord package_name solr_filter_name value))) ;;;
          ret value
      end
  | _ => raise (AttributeError "object has no attribute 'replace'")
  end.

(** [FilterHelper._process_filter_mapping_key] and
    [FilterHelper._process_char_filter_mapping_key]; they differ in the
    prefix of the package key. *)
Definition process_mapping_key (package_prefix : string) (r : Rule)
    (solr_filter : dict pyval) (solr_filter_name : string) : M pyval :=
  match valueFrom r with
  | Some a =>
      match py_get a solr_filter with
      | PNone => lift (rule_default r)
      | v => ret v
      end
  | None =>
      match valueFromFile r with
      | Some a =>
          let filename := py_get a solr_filter in
          if rule_create_package r && create_package (migration_config E) then
            v <- _handle_packages (package_prefix ++ solr_filter_name) filename ;;
            ret (PStr v)
          else if expand_files_array (migration_config E) then
            ls <- lift (_get_file_data solr_filter_name filename) ;;
            ret (PList (map PStr ls))
          else ret (PList [])
      | None => lift (rule_default r)
      end
  end.

Definition _process_filter_mapping_key :=
  process_mapping_key "filter_".
Definition _process_char_filter_mapping_key :=
  process_mapping_key "char_filter".

(** The loop over the keys of a table entry. *)
Fixpoint process_keys (process : Rule -> dict pyval -> string -> M pyval)
    (attrs : list (string * Rule)) (solr_filter : dict pyval)
    (solr_filter_name : string) (custom_filter_def : dict pyval)
  : M (dict pyval) :=
  match attrs with
  | [] => ret custom_filter_def
  | (key, r) :: attrs' =>
      v <- process r solr_filter solr_filter_name ;;
      process_keys process attrs' solr_filter solr_filter_name
        (dict_set key v custom_filter_def)
  end.

(** [FilterHelper._map_filter] *)
Definition _map_filter (solr_filter : pyval) : M filter_entry :=
  solr_filter_name <- lift (_get_filter_name solr_filter) ;;
  try_except
    (let hashed_solr_filter_name := solr_filter_name ++ get_hash solr_filter in
     match dict_get solr_filter_name _filter_mapping with
     | None => raise (FilterMappingException solr_filter_name MAPPING_NOT_FOUND)
     | Some filter_mapping =>
         cached <- gets (fun w => dict_get hashed_solr_filter_name (_filter_map w)) ;;
         match cached with
         | Some tf => ret tf
         | None =>
             cfg <- lift (as_dict solr_filter) ;;
             custom_filter_def <-
               process_keys _process_filter_mapping_key (spec_attrs filter_mapping)
                 cfg solr_filter_name [] ;;
             let tf := BuiltFilter (mkConstruct hashed_solr_filter_name
                                      (spec_type filter_mapping) custom_filter_def) in
             modify (set_filter_map (dict_set hashed_solr_filter_name tf)) ;;;
             ret tf
         end
     end)
    (fun e =>
       match e with
       | FilterMappingException _ _ => Some (raise e)
       | OpenSearchMappingException _ _ =>
           Some (raise (FilterMappingException solr_filter_name (exn_str e)))
       | _ => None
       end).

(** [FilterHelper._map_char_filter] *)
Definition _map_char_filter (solr_char_filter : pyval) : M Construct :=
  solr_filter_name <- lift (_get_filter_name solr_char_filter) ;;
  try_except
    (match dict_get solr_filter_name _char_filter_mapping with
     | None => raise (CharFilterMappingException solr_filter_name MAPPING_NOT_FOUND)
     | Some char_filter_mapping =>
         cfg <- lift (as_dict solr_char_filter) ;;
         custom_filter_def <-
           process_keys _process_char_filter_mapping_key
             (spec_attrs char_filter_mapping) cfg solr_filter_name [] ;;
         let hashed := solr_filter_name ++ get_hash (PDict custom_filter_def) in
         modify (set_filter_map (dict_set hashed (RawDef custom_filter_def))) ;;;
         ret (mkConstruct hashed (spec_type char_filter_mapping) custom_filter_def)
     end)
    (fun e =>
       match e with
       | OpenSearchMappingException _ _ =>
           Some (raise (CharFilterMappingException solr_filter_name (exn_str e)))
       | CharFilterMappingException _ _ => Some (raise e)
       | _ => None
       end).

(** The first loop of [map_filters] and of [map_char_filters]: every
    element's name has to be a key of the table. *)
Fixpoint pre_check (table : dict TargetSpec) (not_found : string -> exn)
    (solr_filters : list pyval) : res unit :=
  match solr_filters with
  | [] => Ok tt
  | solr_filter :: rest =>
      res_bind (_get_filter_name solr_filter) (fun solr_filter_name =>
      match dict_get solr_filter_name table with
      | None => Raise (not_found solr_filter_name)
      | Some _ => pre_check table not_found rest
      end)
  end.

(** [FilterHelper.map_filters] *)
Definition map_filters (solr_filters : pyval) : M (list filter_entry) :=
  try_except
    (fs <- lift (py_iter solr_filters) ;;
     lift (pre_check _filter_mapping
             (fun n => FilterMappingException n MAPPING_NOT_FOUND) fs) ;;;
     map_each _map_filter fs)
    (fun e =>
       match e with
       | FilterMappingException _ _ => Some (raise e)
       | _ => None
       end).

(** [FilterHelper.map_char_filters] *)
Definition map_char_filters (solr_char_filters : pyval) : M (list Construct) :=
  try_except
    (fs <- lift (py_iter solr_char_filters) ;;
     lift (pre_check _char_filter_mapping
             (fun n => CharFilterMappingException n MAPPING_NOT_FOUND) fs) ;;;
     map_each _map_char_filter fs)
    (fun e =>
       match e with
       | CharFilterMappingException _ _ => Some (raise e)
       | _ => None
       end).

(** ** [migrate/helpers/analyzer/analyzer_helper.py] *)

(** [AnalyzerHelper._map_analyzer]: the three parts are mapped one after
    the other, each under its own [try]. *)
Definition _map_analyzer (analyzer_name : string) (solr_analyzer : pyval)
  : M Analyzer :=
  t <- try_except
         (cfg <- lift (as_dict solr_analyzer) ;;
          match py_get "tokenizer" cfg with
          | PNone => ret (None, None)
          | tok => mapped <- map_tokenizer tok ;; ret (Some mapped, None)
          end)
         (fun e =>
            match e with
            | TokenizerMappingException _ _ => Some (ret (None, Some e))
            | _ => None
            end) ;;
  f <- try_except
         (cfg <- lift (as_dict solr_analyzer) ;;
          match py_get "filters" cfg with
          | PNone => ret ([], None)
          | fs => mapped <- map_filters fs ;; ret (mapped, None)
          end)
         (fun e =>
            match e with
            | FilterMappingException _ _ => Some (ret ([], Some e))
            | _ => None
            end) ;;
  c <- try_except
         (cfg <- lift (as_dict solr_analyzer) ;;
          match py_get "charFilters" cfg with
          | PNone => ret ([], None)
          | cs => mapped <- map_char_filters cs ;; ret (mapped, None)
          end)
         (fun e =>
            match e with
            | CharFilterMappingException _ _ => Some (ret ([], Some e))
            | _ => None
            end) ;;
  let '(mapped_tokenizer, tokenizer_exception) := t in
  let '(mapped_filters, filter_exception) := f in
  let '(mapped_char_filters, char_filter_exception) := c in
  match filter_exception, tokenizer_exception, char_filter_exception with
  | None, None, None =>
      ret (mkAnalyzer analyzer_name mapped_tokenizer mapped_filters
             mapped_char_filters)
  | _, _, _ =>
      raise (AnalyzerMappingException analyzer_name filter_exception
               tokenizer_exception char_filter_exception)
  end.

(** [field_type.get("name")], which names the analyzers. *)
Definition analyzer_base_name (field_type : dict pyval) : res string :=
  match py_get "name" field_type with
  | PStr s => Ok s
  | _ => Raise (TypeError "the field type name is not a string")
  end.

(** [AnalyzerHelper.map_analyzer]; the index analyzer is mapped twice,
    as the source does. *)
Definition map_analyzer (field_type : dict pyval) : M (list Analyzer) :=
  a1 <- match py_get "analyzer" field_type with
        | PNone => ret []
        | solr_analyzer =>
            analyzer_name <- lift (analyzer_base_name field_type) ;;
            a <- _map_analyzer analyzer_name solr_analyzer ;;
            ret [a]
        end ;;
  a2 <- match py_get "indexAnalyzer" field_type with
        | PNone => ret []
        | solr_analyzer =>
            base <- lift (analyzer_base_name field_type) ;;
            let analyzer_name := base ++ "_index" in
            _map_analyzer analyzer_name solr_analyzer ;;;
            a <- _map_analyzer analyzer_name solr_analyzer ;;
            ret [a]
        end ;;
  a3 <- match py_get "queryAnalyzer" field_type with
        | PNone => ret []
        | solr_analyzer =>
            base <- lift (analyzer_base_name field_type) ;;
            let analyzer_name := base ++ "_query" in
            a <- _map_analyzer analyzer_name solr_analyzer ;;
            ret [a]
        end ;;
  ret (a1 ++ a2 ++ a3)%list.

(** ** [migrate/helpers/fieldtype/field_type_helper.py] *)

(** [FieldTypeHelper.get_field_type] *)
Definition get_field_type (field_type : string) (w : World) : option string :=
  match dict_get field_type (_field_types_map w) with
  | Some v => v
  | None => None
  end.

(** [FieldTypeHelper._map_field_data_type] *)
Definition _map_field_data_type (solr_field_type : dict pyval)
  : res (string * option string) :=
  res_bind (index_str "name" solr_field_type) (fun name =>
  res_bind (index_str "class" solr_field_type) (fun cls =>
  Ok (name, dict_get cls (field_data_types_mapping E)))).

(** [FieldTypeHelper.map_field_type_analyzer] *)
Definition map_field_type_analyzer (solr_field_type : pyval) : M (list Analyzer) :=
  ft <- lift (match solr_field_type with
              | PDict d => Ok d
              | _ => Raise (TypeError "the field type is not a dictionary")
              end) ;;
  field_type_name <- lift (index_str "name" ft) ;;
  try_except
    (nt <- lift (_map_field_data_type ft) ;;
     field_type_element_analyzer <- map_analyzer ft ;;
     modify (set_field_types_map (dict_set (fst nt) (snd nt))) ;;;
     ret field_type_element_analyzer)
    (fun e =>
       match e with
       | AnalyzerMappingException _ _ _ _ =>
           Some ((if skip_text_analysis_failure (migration_config E) then
                    nt <- lift (_map_field_data_type ft) ;;
                    modify (set_field_types_map (dict_set (fst nt) (snd nt)))
                  else ret tt) ;;;
                 raise (FieldTypeMappingException field_type_name (exn_str e) (Some e)))
       | _ => None
       end).

(** ** [migrate/opensearch/opensearch_client.py]: the index under
    construction *)

(** [OpenSearchClient.add_analyzer] *)
Definition add_analyzer (a : Analyzer) : M unit :=
  modify (set_index_analyzers (dict_set (a_name a) a)).

(** [OpenSearchClient.add_field] *)
Definition add_field (name : string) (field : dict pyval) : M unit :=
  modify (set_index_fields (dict_set name field)).

(** [OpenSearchClient.add_dynamic_field] *)
Definition add_dynamic_field (dynamic_field : dict pyval) : M unit :=
  modify (set_dynamic_templates (fun ts => (ts ++ [dynamic_field])%list)).

(** [name in OpenSearchClient.get_all_analyzers()] *)
Definition analyzer_registered (name : string) (w : World) : bool :=
  dict_mem name (index_analyzers w).

(** ** [migrate/helpers/fields/field_helper.py] *)

(** The attribute projection shared by fields and dynamic fields:
    [attrs[attributes_mapping[k]] = v] for every known [k]. *)
Definition project_attrs (solr_field : dict pyval) (init : dict pyval)
  : dict pyval :=
  fold_left
    (fun attrs kv =>
       match dict_get (fst kv) (attributes_mapping E) with
       | Some k' => dict_set k' (snd kv) attrs
       | None => attrs
       end)
    solr_field init.

(** [FieldHelper._setup_analyzers] *)
Definition _setup_analyzers (attrs : dict pyval) (field_field_type : string)
    (w : World) : dict pyval :=
  let analyzer :=
    if analyzer_registered field_field_type w
    then Some field_field_type else None in
  let index_analyzer :=
    if analyzer_registered (field_field_type ++ "_index") w
    then Some (field_field_type ++ "_index") else None in
  let query_analyzer :=
    if analyzer_registered (field_field_type ++ "_query") w
    then Some (field_field_type ++ "_query") else None in
  let attrs :=
    match analyzer with
    | Some a => if py_truthy (PStr a) then dict_set "analyzer" (PStr a) attrs else attrs
    | None => attrs
    end in
  let attrs :=
    match index_analyzer with
    | Some a => if py_truthy (PStr a) then dict_set "analyzer" (PStr a) attrs else attrs
    | None => attrs
    end in
  match query_analyzer with
  | Some a => if py_truthy (PStr a) then dict_set "search_analyzer" (PStr a) attrs else attrs
  | None => attrs
  end.

(** [FieldHelper._cleanup_field_attrs] *)
Definition _cleanup_field_attrs (attrs : dict pyval) (field_type : string)
  : dict pyval :=
  let attrs :=
    if String.eqb field_type "nested" || String.eqb field_type "geo_shape"
    then dict_pop "store" (dict_pop "index" attrs) else attrs in
  if String.eqb field_type "geo_shape" then dict_pop "doc_values" attrs else attrs.

(** [FieldHelper.map_field] *)
Definition map_field (solr_field : pyval) : M (string * dict pyval) :=
  sf <- lift (match solr_field with
              | PDict d => Ok d
              | _ => Raise (TypeError "the field is not a dictionary")
              end) ;;
  name <- lift (index_str "name" sf) ;;
  field_field_type <- lift (index_str "type" sf) ;;
  ft <- gets (get_field_type field_field_type) ;;
  match ft with
  | None => raise (FieldMappingException name MAPPING_NOT_FOUND (Some field_field_type))
  | Some field_type =>
      try_except
        (let attrs := project_attrs sf [] in
         let attrs := dict_set "type" (PStr field_type) attrs in
         attrs <- gets (_setup_analyzers attrs field_field_type) ;;
         ret (name, _cleanup_field_attrs attrs field_type))
        (fun e =>
           match e with
           | FieldMappingException _ _ _ => Some (raise e)
           | _ => Some (raise (FieldMappingException name (exn_str e) (Some field_type)))
           end)
  end.

(** ** [migrate/helpers/dynamic_field/dynamic_field_helper.py] *)

(** [DynamicFieldHelper.map_dynamic_field] *)
Definition map_dynamic_field (solr_dynamic_field : pyval) : M (dict pyval) :=
  sf <- lift (match solr_dynamic_field with
              | PDict d => Ok d
              | _ => Raise (TypeError "the dynamic field is not a dictionary")
              end) ;;
  pattern <- lift (index_str "name" sf) ;;
  field_type <- lift (index_str "type" sf) ;;
  dft <- gets (get_field_type field_type) ;;
  match dft with
  | None => raise (DynamicFieldMappingException pattern MAPPING_NOT_FOUND (Some field_type))
  | Some dynamic_field_type =>
      try_except
        (let attrs := project_attrs sf [] in
         w <- gets (fun w => w) ;;
         let index_analyzer :=
           if analyzer_registered (field_type ++ "_index") w
              || analyzer_registered field_type w
           then Some field_type else None in
         let query_analyzer :=
           if analyzer_registered (field_type ++ "s_query") w
           then Some (field_type ++ "s_query") else None in
         let mapping :=
           fold_left (fun m kv => dict_set (fst kv) (snd kv) m) attrs
             [("type", PStr dynamic_field_type)] in
         let mapping :=
           match index_analyzer with
           | Some a => if py_truthy (PStr a) then dict_set "analyzer" (PStr a) mapping else mapping
           | None => mapping
           end in
         let mapping :=
           match query_analyzer with
           | Some a => if py_truthy (PStr a) then dict_set "search_analyzer" (PStr a) mapping else mapping
           | None => mapping
           end in
         ret [(pattern, PDict [("match", PStr pattern); ("mapping", PDict mapping)])])
        (fun e =>
           match e with
           | DynamicFieldMappingException _ _ _ => Some (raise e)
           | _ => Some (raise (DynamicFieldMappingException pattern (exn_str e)
                                 (Some field_type)))
           end)
  end.

End Migration.

(** ** [migrate/helpers/copy_field/copy_field_helper.py] *)

(** The state of a [CopyFieldHelper]: the field definitions it was given
    and, per source, the destinations recorded so far. *)
Record CopyFieldHelper : Type := mkCopyFieldHelper {
  _all_fields : dict (dict pyval);
  _field_copy_to : dict (list string)
}.

(** [CopyFieldHelper.__init__] *)
Definition CopyFieldHelper_init (all_fields : dict (dict pyval)) : CopyFieldHelper :=
  mkCopyFieldHelper all_fields [].

Record CopyFieldResult : Type := mkCopyFieldResult {
  cf_src : string;
  cf_src_def : dict pyval;
  cf_dst : string;
  cf_dst_def : dict pyval
}.

(** The update of [src_def["copy_to"]] when [src] has destinations
    recorded already. *)
Definition extend_copy_to (dst : string) (src_def : dict pyval) : dict pyval :=
  match dict_get "copy_to" src_def with
  | Some (PList l) => dict_set "copy_to" (PList (l ++ [PStr dst])%list) src_def
  | Some v => dict_set "copy_to" (PList [v; PStr dst]) src_def
  | None => dict_set "copy_to" (PList [PStr dst]) src_def
  end.

(** [CopyFieldHelper.map_copy_field].  [src_def] is the object held in
    [_all_fields], so its update is an update of [_all_fields]; nothing
    under the [try] can raise. *)
Definition map_copy_field (solr_copy_field : pyval) (h : CopyFieldHelper)
  : res CopyFieldResult * CopyFieldHelper :=
  match
    res_bind (match solr_copy_field with
              | PDict d => Ok d
              | _ => Raise (TypeError "the copy field is not a dictionary")
              end) (fun cf =>
    res_bind (index_str "source" cf) (fun src =>
    res_bind (index_str "dest" cf) (fun dst => Ok (src, dst))))
  with
  | Raise e => (Raise e, h)
  | Ok (src, dst) =>
      match dict_get src (_all_fields h), dict_get dst (_all_fields h) with
      | Some src_def, Some dst_def =>
          let '(src_def', copy_to') :=
            match dict_get src (_field_copy_to h) with
            | None =>
                (dict_set "copy_to" (PStr dst) src_def,
                 dict_set src [dst] (_field_copy_to h))
            | Some dsts =>
                (extend_copy_to dst src_def,
                 dict_set src (dsts ++ [dst])%list (_field_copy_to h))
            end in
          let dst_def' := if String.eqb src dst then src_def' else dst_def in
          (Ok (mkCopyFieldResult src src_def' dst dst_def'),
           mkCopyFieldHelper (dict_set src src_def' (_all_fields h)) copy_to')
      | _, _ =>
          (Raise (CopyFieldMappingException src MAPPING_NOT_FOUND (Some src)), h)
      end
  end.

(** ** [migrate/solr2os_migrate.py]: the schema migration *)

Section Orchestration.

Variable E : Env.

Definition report (f : Report -> Report) : M unit := modify (set_report f).

(** The construct name shown in the report:
    [cfg.get('name') or cfg.get('class', '').split('.')[-1].replace(suffix, '')]. *)
Definition report_name (suffix : string) (cfg : pyval) : res string :=
  res_bind (as_dict cfg) (fun d =>
  let name := py_get "name" d in
  if py_truthy name then
    match name with
    | PStr s => Ok s
    | _ => Raise (TypeError "the construct name is not a string")
    end
  else
    match dict_get "class" d with
    | None =>
        Ok (PyStr.replace suffix EmptyString
              (last (PyStr.split "." EmptyString) EmptyString))
    | Some (PStr cls) =>
        Ok (PyStr.replace suffix EmptyString
              (last (PyStr.split "." cls) EmptyString))
    | Some _ => Raise (AttributeError "object has no attribute 'split'")
    end).

Definition success_detail (name : string) : Detail :=
  mkDetail name name "mapped" "success" None.

Definition error_detail (e : exn) : Detail :=
  mkDetail (exn_name e) (exn_name e) "N/A" "error" (Some (exn_str e)).

(** The report entries of one successfully mapped analyzer
    configuration. *)
Definition track_analyzer (analyzer_config : pyval) : M unit :=
  cfg <- lift (as_dict analyzer_config) ;;
  (if py_truthy (py_get "tokenizer" cfg) then
     tokenizer_name <- lift (report_name "TokenizerFactory" (py_get "tokenizer" cfg)) ;;
     report (add_tokenizer_detail (success_detail tokenizer_name))
   else ret tt) ;;;
  (if py_truthy (py_get "filters" cfg) then
     fs <- lift (py_iter (py_get "filters" cfg)) ;;
     for_each (fun filter_config =>
                 filter_name <- lift (report_name "TokenFilterFactory" filter_config) ;;
                 report (add_filter_detail (success_detail filter_name))) fs
   else ret tt) ;;;
  (if py_truthy (py_get "charFilters" cfg) then
     cs <- lift (py_iter (py_get "charFilters" cfg)) ;;
     for_each (fun char_filter_config =>
                 char_filter_name <-
                   lift (report_name "CharFilterFactory" char_filter_config) ;;
                 report (add_char_filter_detail (success_detail char_filter_name))) cs
   else ret tt).

Definition track_success (solr_field_type : dict pyval) : M unit :=
  for_each
    (fun analyzer_type =>
       if py_truthy (py_get analyzer_type solr_field_type)
       then track_analyzer (py_get analyzer_type solr_field_type)
       else ret tt)
    ["analyzer"; "indexAnalyzer"; "queryAnalyzer"].

(** The report entries drawn from a [FieldTypeMappingException]. *)
Definition track_failure (analyzer_exception : option exn) : M unit :=
  match analyzer_exception with
  | Some (AnalyzerMappingException _ filter_ex tok_ex char_filter_ex) =>
      match tok_ex with
      | Some t => report (add_tokenizer_detail (error_detail t))
      | None => ret tt
      end ;;;
      match filter_ex with
      | Some f => report (add_filter_detail (error_detail f))
      | None => ret tt
      end ;;;
      match char_filter_ex with
      | Some c => report (add_char_filter_detail (error_detail c))
      | None => ret tt
      end
  | _ => ret tt
  end.

(** One iteration of the loop of [_migrate_field_types]. *)
Definition migrate_field_type (solr_field_type : pyval) : M unit :=
  report (upd_field_types_solr S) ;;;
  ft <- lift (as_dict solr_field_type) ;;
  try_except
    (analyzers <- map_field_type_analyzer E solr_field_type ;;
     for_each add_analyzer analyzers ;;;
     report (upd_field_types_os S) ;;;
     track_success ft)
    (fun e =>
       match e with
       | FieldTypeMappingException _ _ analyzer_exception =>
           Some (report (if map_fields_on_analyzer_failure (migration_config E)
                         then upd_field_types_os S
                         else upd_field_types_error S) ;;;
                 report (upd_field_type_exception_list (fun l => (l ++ [e])%list)) ;;;
                 track_failure analyzer_exception)
       | _ => None
       end).

(** [Solr2OSMigrate._migrate_field_types] over the given field types. *)
Definition migrate_field_types (items : list pyval) : M unit :=
  for_each migrate_field_type items.

Definition _migrate_field_types : M unit :=
  migrate_field_types (fieldTypes (read_schema E)).

(** One iteration of the loop of [_migrate_fields]; [map_field] never
    returns [None] for the definition, so the [continue] is not taken. *)
Definition migrate_field (solr_field : pyval) : M unit :=
  report (upd_field_solr S) ;;;
  try_except
    (nf <- map_field E solr_field ;;
     add_field (fst nf) (snd nf) ;;;
     report (upd_field_os S))
    (fun e =>
       match e with
       | FieldMappingException _ _ _ =>
           Some (report (upd_field_exception_list (fun l => (l ++ [e])%list)) ;;;
                 report (upd_field_error S))
       | _ => None
       end).

Definition migrate_fields (items : list pyval) : M unit :=
  for_each migrate_field items.

(** [Solr2OSMigrate._migrate_fields] *)
Definition _migrate_fields : M unit :=
  migrate_fields (fields (read_schema E)).

(** One iteration of the loop of [_migrate_dynamic_fields]; the handler
    is [except Exception]. *)
Definition migrate_dynamic_field (solr_dynamic_field : pyval) : M unit :=
  report (upd_dynamic_field_solr S) ;;;
  try_except
    (opensearch_dynamic_field <- map_dynamic_field E solr_dynamic_field ;;
     add_dynamic_field opensearch_dynamic_field ;;;
     report (upd_dynamic_field_os S))
    (fun e =>
       Some (report (upd_dynamic_field_exception_list (fun l => (l ++ [e])%list)) ;;;
             report (upd_dynamic_field_error S))).

Definition migrate_dynamic_fields (items : list pyval) : M unit :=
  for_each migrate_dynamic_field items.

(** [Solr2OSMigrate._migrate_dynamic_fields] *)
Definition _migrate_dynamic_fields : M unit :=
  migrate_dynamic_fields (dynamicFields (read_schema E)).

(** The loop of [_migrate_copy_fields], with the helper it owns; the
    handler is [except Exception]. *)
Fixpoint migrate_copy_fields (items : list pyval) (copy_field_service : CopyFieldHelper)
  : M unit :=
  match items with
  | [] => ret tt
  | solr_copy_field :: rest =>
      report (upd_copy_field_solr S) ;;;
      match map_copy_field solr_copy_field copy_field_service with
      | (Ok r, service') =>
          add_field (cf_src r) (cf_src_def r) ;;;
          add_field (cf_dst r) (cf_dst_def r) ;;;
          report (upd_copy_field_os S) ;;;
          migrate_copy_fields rest service'
      | (Raise e, service') =>
          report (upd_copy_field_exception_list (fun l => (l ++ [e])%list)) ;;;
          report (upd_copy_field_error S) ;;;
          migrate_copy_fields rest service'
      end
  end.

(** [Solr2OSMigrate._migrate_copy_fields] *)
Definition _migrate_copy_fields (all_fields : dict (dict pyval)) : M unit :=
  migrate_copy_fields (copyFields (read_schema E)) (CopyFieldHelper_init all_fields).

(** The mapping part of [Solr2OSMigrate.migrate_schema]. *)
Definition migrate_schema : M unit :=
  _migrate_field_types ;;;
  _migrate_fields ;;;
  _migrate_dynamic_fields ;;;
  all_fields <- gets index_fields ;;
  _migrate_copy_fields all_fields.

End Orchestration.

(** ** [migrate/solr2os_migrate.py]: the data export *)

(** The substitution of [_fix_binary_fields_in_json] for one field: the
    pattern is the quoted field name, a colon, and a captured run of one or
    more characters other than a double quote, a comma, a colon, a closing
    brace and white space; the replacement is the key as written, followed
    by the run between double quotes.  The source puts the field name into
    the pattern as it is, so [re.sub] reads it as a regular expression.
    The model follows that for a name whose only characters with a meaning
    in regular expressions are dots (see [regex_dotted]): a dot stands for
    any character but a line feed, every other character for itself.
    Names with anchors, quantifiers, classes, groups, alternation or a
    backslash are outside what the model follows. *)
Module BinaryFix.

(** The characters with a meaning in a regular expression. *)
Definition regex_special (c : ascii) : bool :=
  existsb (Ascii.eqb c)
    (list_ascii_of_string ".^$*+?{}[]()|\").

Definition regex_plain (field : string) : bool :=
  forallb (fun c => negb (regex_special c)) (list_ascii_of_string field).

(** The names the model reads as [re] does: no special character but
    the dot. *)
Definition regex_dotted (field : string) : bool :=
  forallb (fun c => negb (regex_special c) || Ascii.eqb c ".")
    (list_ascii_of_string field).

(** The character class of the captured run. *)
Definition value_char (c : ascii) : bool :=
  negb (Ascii.eqb c (ascii_of_N 34) || Ascii.eqb c "," || Ascii.eqb c ":" ||
        Ascii.eqb c "}" || PyStr.is_space c).

(** The key of a field, as the pattern and the replacement both have
    it: the quoted field name and the colon.  The pattern reads it as a
    regular expression, the replacement as it is written. *)
Definition key_of (field : string) : string :=
  PyStr.dquote ++ field ++ PyStr.dquote ++ ":".

(** What is left of [s] after [n] characters. *)
Fixpoint drop (n : nat) (s : string) : string :=
  match n, s with
  | O, _ => s
  | S n', String _ s' => drop n' s'
  | S _, EmptyString => EmptyString
  end.

(** One character of the key against one character of the text: a dot
    of the key takes any character but a line feed, another character
    takes itself. *)
Definition key_char_matches (p c : ascii) : bool :=
  if Ascii.eqb p "." then negb (Ascii.eqb c (ascii_of_N 10))
  else Ascii.eqb p c.

(** The key, read as a pattern, matches at the head of [s]. *)
Fixpoint key_matches (key s : string) : bool :=
  match key, s with
  | EmptyString, _ => true
  | String p key', String c s' => key_char_matches p c && key_matches key' s'
  | String _ _, EmptyString => false
  end.

(** The pattern matches at the head of [s]: the key, then at least one
    value character. *)
Definition matches_at (key s : string) : bool :=
  key_matches key s &&
  match drop (String.length key) s with
  | String c _ => value_char c
  | EmptyString => false
  end.

(** One pass over the text.  [skip] counts the characters of a matched
    key still to be passed over (the key as written in the pattern was
    put out when the match was found); [run] tells that the value of a
    match is being copied, to be closed by a quote at its first
    character outside the class. *)
Fixpoint sub_go (key : string) (skip : nat) (run : bool) (s : string) : string :=
  match s with
  | EmptyString => if run then PyStr.dquote else EmptyString
  | String c s' =>
      match skip with
      | S k => sub_go key k run s'
      | O =>
          let scan :=
            if matches_at key s
            then key ++ PyStr.dquote ++ sub_go key (String.length key - 1) true s'
            else String c (sub_go key 0 false s') in
          if run then
            if value_char c then String c (sub_go key 0 true s')
            else PyStr.dquote ++ scan
          else scan
      end
  end.

Definition sub (field text : string) : string :=
  sub_go (key_of field) 0 false text.

End BinaryFix.

(** [Solr2OSMigrate._fix_binary_fields_in_json] *)
Definition _fix_binary_fields_in_json (response_text : string)
    (binary_fields : list string) : string :=
  fold_left (fun text field => BinaryFix.sub field text) binary_fields response_text.

(** A reader for JSON texts, standing for [json.loads] on the texts it
    accepts: objects, arrays, strings with the escapes of RFC 8259 (code
    points below 256), integers and the three literals.  It answers [None]
    on a text that is not JSON and on numbers with a fraction or an
    exponent, which it does not read. *)
Module JsonReader.

Definition is_ws (c : ascii) : bool :=
  Ascii.eqb c " " || Ascii.eqb c (ascii_of_N 9) || Ascii.eqb c (ascii_of_N 10) ||
  Ascii.eqb c (ascii_of_N 13).

Fixpoint skip_ws (s : list ascii) : list ascii :=
  match s with
  | c :: s' => if is_ws c then skip_ws s' else s
  | [] => []
  end.

Definition is_digit (c : ascii) : bool :=
  let n := PyStr.code c in ((48 <=? n) && (n <=? 57))%N.

Definition hex_value (c : ascii) : option N :=
  let n := PyStr.code c in
  if ((48 <=? n) && (n <=? 57))%N then Some (n - 48)%N
  else if ((97 <=? n) && (n <=? 102))%N then Some (n - 87)%N
  else if ((65 <=? n) && (n <=? 70))%N then Some (n - 55)%N
  else None.

(** The characters of a string after its opening quote. *)
Fixpoint read_string (s : list ascii) (acc : list ascii)
  : option (string * list ascii) :=
  match s with
  | [] => None
  | c :: s' =>
      if Ascii.eqb c (ascii_of_N 34) then Some (string_of_list_ascii (rev acc), s')
      else if Ascii.eqb c "\" then
        match s' with
        | e :: s'' =>
            if Ascii.eqb e "u" then
              match s'' with
              | a :: b :: h :: l :: rest =>
                  match hex_value a, hex_value b, hex_value h, hex_value l with
                  | Some 0%N, Some 0%N, Some x, Some y =>
                      read_string rest (ascii_of_N (16 * x + y) :: acc)
                  | _, _, _, _ => None
                  end
              | _ => None
              end
            else
              let plain (x : ascii) := read_string s'' (x :: acc) in
              if Ascii.eqb e (ascii_of_N 34) then plain e
              else if Ascii.eqb e "\" then plain e
              else if Ascii.eqb e "/" then plain e
              else if Ascii.eqb e "b" then plain (ascii_of_N 8)
              else if Ascii.eqb e "f" then plain (ascii_of_N 12)
              else if Ascii.eqb e "n" then plain (ascii_of_N 10)
              else if Ascii.eqb e "r" then plain (ascii_of_N 13)
              else if Ascii.eqb e "t" then plain (ascii_of_N 9)
              else None
        | [] => None
        end
      else if (PyStr.code c <? 32)%N then None
      else read_string s' (c :: acc)
  end.

Fixpoint read_digits (s : list ascii) (acc : Z) : Z * list ascii :=
  match s with
  | c :: s' =>
      if is_digit c
      then read_digits s' (10 * acc + Z.of_N (PyStr.code c - 48))%Z
      else (acc, s)
  | [] => (acc, [])
  end.

(** An integer: no leading zero, no fraction, no exponent. *)
Definition read_int (s : list ascii) : option (Z * list ascii) :=
  match s with
  | c :: s' =>
      if is_digit c then
        let '(n, rest) := read_digits s 0%Z in
        let leading_zero :=
          Ascii.eqb c "0" && match s' with d :: _ => is_digit d | [] => false end in
        let more :=
          match rest with
          | d :: _ => Ascii.eqb d "." || Ascii.eqb d "e" || Ascii.eqb d "E"
          | [] => false
          end in
        if leading_zero || more then None else Some (n, rest)
      else None
  | [] => None
  end.

Definition starts (p : string) (s : list ascii) : option (list ascii) :=
  let p' := list_ascii_of_string p in
  if String.prefix p (string_of_list_ascii (firstn (List.length p') s))
  then Some (skipn (List.length p') s) else None.

Fixpoint read_value (fuel : nat) (s : list ascii) : option (pyval * list ascii) :=
  match fuel with
  | O => None
  | S f =>
      match skip_ws s with
      | [] => None
      | c :: r =>
          if Ascii.eqb c "{" then
            match skip_ws r with
            | c' :: r' =>
                if Ascii.eqb c' "}" then Some (PDict [], r')
                else read_members f (c' :: r') []
            | [] => None
            end
          else if Ascii.eqb c "[" then
            match skip_ws r with
            | c' :: r' =>
                if Ascii.eqb c' "]" then Some (PList [], r')
                else read_elements f (c' :: r') []
            | [] => None
            end
          else if Ascii.eqb c (ascii_of_N 34) then
            match read_string r [] with
            | Some (str, r') => Some (PStr str, r')
            | None => None
            end
          else if Ascii.eqb c "-" then
            match read_int r with
            | Some (n, r') => Some (PInt (- n), r')
            | None => None
            end
          else if is_digit c then
            match read_int (c :: r) with
            | Some (n, r') => Some (PInt n, r')
            | None => None
            end
          else
            match starts "true" (c :: r), starts "false" (c :: r),
                  starts "null" (c :: r) with
            | Some r', _, _ => Some (PBool true, r')
            | _, Some r', _ => Some (PBool false, r')
            | _, _, Some r' => Some (PNone, r')
            | _, _, _ => None
            end
      end
  end
with read_elements (fuel : nat) (s : list ascii) (acc : list pyval)
  : option (pyval * list ascii) :=
  match fuel with
  | O => None
  | S f =>
      match read_value f s with
      | Some (v, r) =>
          match skip_ws r with
          | c :: r' =>
              if Ascii.eqb c "," then read_elements f r' (acc ++ [v])
              else if Ascii.eqb c "]" then Some (PList (acc ++ [v]), r')
              else None
          | [] => None
          end
      | None => None
      end
  end
with read_members (fuel : nat) (s : list ascii) (acc : dict pyval)
  : option (pyval * list ascii) :=
  match fuel with
  | O => None
  | S f =>
      match skip_ws s with
      | q :: r =>
          if Ascii.eqb q (ascii_of_N 34) then
            match read_string r [] with
            | Some (k, r1) =>
                match skip_ws r1 with
                | colon :: r2 =>
                    if Ascii.eqb colon ":" then
                      match read_value f r2 with
                      | Some (v, r3) =>
                          match skip_ws r3 with
                          | c :: r4 =>
                              if Ascii.eqb c "," then read_members f r4 (dict_set k v acc)
                              else if Ascii.eqb c "}" then Some (PDict (dict_set k v acc), r4)
                              else None
                          | [] => None
                          end
                      | None => None
                      end
                    else None
                | [] => None
                end
            | None => None
            end
          else None
      | [] => None
      end
  end.

Definition loads (text : string) : option pyval :=
  let s := list_ascii_of_string text in
  match read_value (S (List.length s)) s with
  | Some (v, rest) =>
      match skip_ws rest with
      | [] => Some v
      | _ => None
      end
  | None => None
  end.

End JsonReader.

(** The [data_migration] section of the configuration, with the defaults
    of [_export_regular_data] filled in. *)
Record DataConfig : Type := mkDataConfig {
  rows_per_page : Z;
  max_rows : Z;
  s3_export_bucket : string;
  s3_export_prefix : string
}.

(** The surroundings of a data export.  [count_request] is the first
    query (zero rows), [solr_select n cursor rows] the page query issued
    after [n] earlier page queries, each answering the response text or
    raising; [put_object] is the object store; [json_loads] is the JSON
    reader, raising [JSONDecodeError] on a text it rejects. *)
Record ExportEnv : Type := mkExportEnv {
  data_config : DataConfig;
  export_collection : string;
  export_schema : res Schema;
  count_request : res string;
  solr_select : nat -> pyval -> Z -> res string;
  put_object : string -> pyval -> res unit;
  json_loads : string -> res pyval
}.

Definition JSONDecodeError (m : string) : exn := PyError "JSONDecodeError" m.

(** [json.loads] by the reader above. *)
Definition reader_loads (text : string) : res pyval :=
  match JsonReader.loads text with
  | Some v => Ok v
  | None => Raise (JSONDecodeError "Expecting value")
  end.

(** The variables of the loop of [_export_regular_data], with what it has
    sent out: the cursor of every page query and the objects stored. *)
Record ExportState : Type := mkExportState {
  exported_docs : Z;
  batch_count : nat;
  cursor_mark : pyval;
  page_requests : list pyval;
  s3_objects : list (string * pyval);
  export_report : Report
}.

Definition ExportState_init (r : Report) : ExportState :=
  mkExportState 0 0 (PStr "*") [] [] r.

(** [v[k]] *)
Definition py_index (k : string) (v : pyval) : res pyval :=
  match v with
  | PDict d =>
      match dict_get k d with
      | Some x => Ok x
      | None => Raise (KeyError k)
      end
  | _ => Raise (TypeError "indices must be integers")
  end.

(** [len(v)] *)
Definition py_len (v : pyval) : res Z :=
  match v with
  | PList l => Ok (Z.of_nat (List.length l))
  | PStr s => Ok (Z.of_nat (String.length s))
  | PDict d => Ok (Z.of_nat (List.length d))
  | _ => Raise (TypeError "object has no len()")
  end.

Section DataExport.

Variable X : ExportEnv.

(** The first loop of [_get_binary_fields]: the names of the field
    types whose class ends in [BinaryField]. *)
Fixpoint binary_field_types (fts : list pyval) (acc : list string)
  : res (list string) :=
  match fts with
  | [] => Ok acc
  | field_type :: rest =>
      res_bind (as_dict field_type) (fun d =>
      res_bind (match dict_get "class" d with
                | None => Ok EmptyString
                | Some (PStr c) => Ok c
                | Some _ => Raise (AttributeError "object has no attribute 'endswith'")
                end) (fun cls =>
      if PyStr.endswith "BinaryField" cls then
        let name := py_get "name" d in
        if py_truthy name then
          match name with
          | PStr n => binary_field_types rest (acc ++ [n])
          | _ => Raise (TypeError "the field type name is not a string")
          end
        else binary_field_types rest (acc ++ [cls])
      else binary_field_types rest acc))
  end.

(** The second loop fills a list that survives an exception, so it
    answers what it has collected together with the exception. *)
Fixpoint binary_field_names (types : list string) (fs : list pyval)
    (acc : list string) : list string * option exn :=
  match fs with
  | [] => (acc, None)
  | field :: rest =>
      match as_dict field with
      | Raise e => (acc, Some e)
      | Ok d =>
          match py_get "type" d with
          | PStr t =>
              let field_name := py_get "name" d in
              if existsb (String.eqb t) types && py_truthy field_name then
                match field_name with
                | PStr n => binary_field_names types rest (acc ++ [n])
                | _ => (acc, Some (TypeError "the field name is not a string"))
                end
              else binary_field_names types rest acc
          | PList _ | PDict _ => (acc, Some (TypeError "unhashable type"))
          | _ => binary_field_names types rest acc
          end
      end
  end.

Definition binary_fields_error (e : exn) (r : Report) : Report :=
  add_data_migration_error ("Error identifying binary fields: " ++ exn_str e) r.

(** [Solr2OSMigrate._get_binary_fields] *)
Definition _get_binary_fields (r : Report) : list string * Report :=
  match export_schema X with
  | Raise e => ([], binary_fields_error e r)
  | Ok schema =>
      match binary_field_types (fieldTypes schema) [] with
      | Raise e => ([], binary_fields_error e r)
      | Ok types =>
          match binary_field_names types (fields schema) [] with
          | (names, None) => (names, r)
          | (names, Some e) => (names, binary_fields_error e r)
          end
      end
  end.

Definition batch_error (e : exn) (st : ExportState) : ExportState :=
  mkExportState (exported_docs st) (batch_count st) (cursor_mark st)
    (page_requests st) (s3_objects st)
    (add_data_migration_error
       ("Error processing batch " ++ PyStr.of_nat (batch_count st) ++ ": " ++ exn_str e)
       (export_report st)).

Definition json_error (m : string) (st : ExportState) : ExportState :=
  mkExportState (exported_docs st) (batch_count st) (cursor_mark st)
    (page_requests st) (s3_objects st)
    (add_data_migration_error
       ("JSON parsing error in batch " ++ PyStr.of_nat (batch_count st) ++ ": " ++ m)
       (export_report st)).

(** The page query of one iteration: [batch_count] goes up and the
    query is sent with the current cursor. *)
Definition send_request (st : ExportState) : res string * ExportState :=
  (solr_select X (List.length (page_requests st)) (cursor_mark st)
     (rows_per_page (data_config X)),
   mkExportState (exported_docs st) (S (batch_count st)) (cursor_mark st)
     (page_requests st ++ [cursor_mark st]) (s3_objects st) (export_report st)).

Definition s3_key (st : ExportState) : string :=
  s3_export_prefix (data_config X) ++ export_collection X ++ "_batch_" ++
  PyStr.of_nat (batch_count st) ++ ".json".

(** What follows a parsed page: [true] goes back to the loop test,
    [false] is a [break]. *)
Definition store_batch (batch_data : pyval) (st : ExportState) : ExportState * bool :=
  match res_bind (py_index "response" batch_data) (py_index "docs") with
  | Raise e => (batch_error e st, false)
  | Ok docs =>
      if negb (py_truthy docs) then (st, false)
      else
        match put_object X (s3_key st) docs with
        | Raise e => (batch_error e st, false)
        | Ok _ =>
            let st :=
              mkExportState (exported_docs st) (batch_count st) (cursor_mark st)
                (page_requests st) (s3_objects st ++ [(s3_key st, docs)])
                (export_report st) in
            match py_len docs with
            | Raise e => (batch_error e st, false)
            | Ok n =>
                let st :=
                  mkExportState (exported_docs st + n) (batch_count st)
                    (cursor_mark st) (page_requests st) (s3_objects st)
                    (export_report st) in
                match batch_data with
                | PDict d =>
                    let next_cursor_mark := py_get "nextCursorMark" d in
                    if py_eq next_cursor_mark (cursor_mark st) then (st, false)
                    else
                      (mkExportState (exported_docs st) (batch_count st)
                         next_cursor_mark (page_requests st) (s3_objects st)
                         (export_report st), true)
                | _ => (batch_error (AttributeError "object has no attribute 'get'") st,
                        false)
                end
            end
        end
  end.

(** One iteration of the [while] loop. *)
Definition export_batch (binary_fields : list string) (st : ExportState)
  : ExportState * bool :=
  match send_request st with
  | (Raise e, st) => (batch_error e st, false)
  | (Ok text, st) =>
      match json_loads X (_fix_binary_fields_in_json text binary_fields) with
      | Raise (PyError "JSONDecodeError" m) => (json_error m st, true)
      | Raise e => (batch_error e st, false)
      | Ok batch_data => store_batch batch_data st
      end
  end.

(** The [while] loop, for at most [fuel] iterations; the boolean tells
    that the loop was left. *)
Fixpoint export_pages (fuel : nat) (total_docs : Z) (binary_fields : list string)
    (st : ExportState) : ExportState * bool :=
  if (exported_docs st <? Z.min total_docs (max_rows (data_config X)))%Z then
    match fuel with
    | O => (st, false)
    | S fuel' =>
        match export_batch binary_fields st with
        | (st', true) => export_pages fuel' total_docs binary_fields st'
        | (st', false) => (st', true)
        end
    end
  else (st, true).

(** The count of the first query:
    [response.json()['response']['numFound']]. *)
Definition read_total_docs : res Z :=
  res_bind (count_request X) (fun text =>
  res_bind (json_loads X text) (fun v =>
  res_bind (py_index "response" v) (fun r =>
  res_bind (py_index "numFound" r) (fun n =>
  match n with
  | PInt z => Ok z
  | _ => Raise (TypeError "numFound is not an integer")
  end)))).

(** [Solr2OSMigrate._export_regular_data]: [None] when [fuel] iterations
    did not end the loop. *)
Definition _export_regular_data (fuel : nat) (r : Report)
  : option (res unit * ExportState) :=
  let '(binary_fields, r) := _get_binary_fields r in
  match read_total_docs with
  | Raise e => Some (Raise e, ExportState_init r)
  | Ok total_docs =>
      match export_pages fuel total_docs binary_fields (ExportState_init r) with
      | (st, true) =>
          Some (Ok tt,
                mkExportState (exported_docs st) (batch_count st) (cursor_mark st)
                  (page_requests st) (s3_objects st)
                  (update_data_migration_stats true total_docs (exported_docs st)
                     (batch_count st) (export_report st)))
      | (_, false) => None
      end
  end.

(** [Solr2OSMigrate._export_data_to_s3]; [migrate_data] is the switch of
    that name in the [data_migration] section. *)
Definition _export_data_to_s3 (migrate_data : bool) (fuel : nat) (r : Report)
  : option (res unit * ExportState) :=
  if negb migrate_data then Some (Ok tt, ExportState_init r)
  else _export_regular_data fuel r.

(** [Solr2OSMigrate.export_data], without the report file it writes on
    both paths: what it returns, and the state with the report. *)
Definition export_data (migrate_data : bool) (fuel : nat) (r : Report)
  : option (bool * ExportState) :=
  if negb migrate_data then Some (false, ExportState_init r)
  else
    match _export_data_to_s3 migrate_data fuel r with
    | None => None
    | Some (Ok _, st) => Some (true, st)
    | Some (Raise e, st) =>
        Some (false,
              mkExportState (exported_docs st) (batch_count st) (cursor_mark st)
                (page_requests st) (s3_objects st)
                (add_data_migration_error (exn_str e) (export_report st)))
    end.

End DataExport.

(** ** A small migration, used to run the definitions *)

Module Example.

Definition plain_rule (from : string) (dflt : pyval) : Rule :=
  mkRule (Some from) None false (Some dflt).

Definition file_rule (from : string) : Rule :=
  mkRule None (Some from) true (Some (PList [])).

Definition tokenizers : dict TargetSpec :=
  [ ("standard", mkTargetSpec "standard"
                   [("max_token_length", plain_rule "maxTokenLength" (PInt 255))]);
    ("whitespace", mkTargetSpec "whitespace" []) ].

Definition filters : dict TargetSpec :=
  [ ("lowercase", mkTargetSpec "lowercase" []);
    ("stop", mkTargetSpec "stop"
               [("stopwords_path", file_rule "words");
                ("ignore_case", plain_rule "ignoreCase" (PBool false))]);
    ("porterstem", mkTargetSpec "porter_stem" []) ].

Definition char_filters : dict TargetSpec :=
  [ ("htmlstrip", mkTargetSpec "html_strip" []) ].

Definition data_types : dict string :=
  [ ("solr.TextField", "text"); ("solr.StrField", "keyword");
    ("solr.BinaryField", "binary") ].

Definition attributes : dict string :=
  [ ("indexed", "index"); ("stored", "store"); ("docValues", "doc_values") ].

Definition stopwords_file : string :=
  "# stop words" ++ String (ascii_of_N 10) "a" ++ String (ascii_of_N 10) "the".

(** A field type with an index and a query analyzer. *)
Definition text_general : pyval :=
  PDict [ ("name", PStr "text_general"); ("class", PStr "solr.TextField");
          ("indexAnalyzer",
           PDict [ ("tokenizer", PDict [("class", PStr "solr.StandardTokenizerFactory")]);
                   ("filters", PList [PDict [("class", PStr "solr.LowerCaseFilterFactory")]]) ]);
          ("queryAnalyzer",
           PDict [ ("tokenizer", PDict [("class", PStr "solr.StandardTokenizerFactory")]);
                   ("filters", PList [PDict [("name", PStr "lowercase")]]) ]) ].

(** A field type whose tokenizer has no table entry; its filter has
    one. *)
Definition text_ja : pyval :=
  PDict [ ("name", PStr "text_ja"); ("class", PStr "solr.TextField");
          ("analyzer",
           PDict [ ("tokenizer", PDict [("class", PStr "solr.JapaneseTokenizerFactory")]);
                   ("filters", PList [PDict [("class", PStr "solr.LowerCaseFilterFactory")]]) ]) ].

Definition string_type : pyval :=
  PDict [ ("name", PStr "string"); ("class", PStr "solr.StrField") ].

Definition binary_type : pyval :=
  PDict [ ("name", PStr "binary"); ("class", PStr "solr.BinaryField") ].

Definition field (name type : string) : pyval :=
  PDict [ ("name", PStr name); ("type", PStr type); ("stored", PBool true) ].

Definition copy (source dest : string) : pyval :=
  PDict [ ("source", PStr source); ("dest", PStr dest) ].

Definition schema : Schema :=
  mkSchema
    [ text_general; text_ja; string_type; binary_type ]
    [ field "id" "string"; field "title" "text_general";
      field "body" "text_ja"; field "all" "text_general";
      field "thumb" "binary" ]
    [ field "*_txt" "text_general"; field "*_x" "missing" ]
    [ copy "title" "all"; copy "id" "all"; copy "title" "nowhere";
      copy "title" "id" ].

Definition env (cfg : Config) : Env :=
  mkEnv tokenizers filters char_filters data_types attributes cfg "books"
    schema
    (fun _ => Ok stopwords_file)
    (fun _ name _ => Ok ("F-" ++ name)).

(** The default configuration, and the one that keeps a field type whose
    analyzer failed. *)
Definition strict : Config := mkConfig true false false false.
Definition lenient : Config := mkConfig true false true true.

End Example.

Unset Implicit Arguments.

(** * The vocabulary of the properties *)

(** The lower-case filter, given by name and given by class. *)
Definition lowercase_by_name : pyval := PDict [("name", PStr "lowercase")].
Definition lowercase_by_class : pyval :=
  PDict [("class", PStr "solr.LowerCaseFilterFactory")].

(** A filter definition whose name resolves. *)
Definition resolves (f : pyval) : Prop :=
  exists n, _get_filter_name f = Ok n.

(** A filter definition whose resolved name is not a key of the table. *)
Definition unmapped (table : dict TargetSpec) (f : pyval) : Prop :=
  exists n, _get_filter_name f = Ok n /\ dict_get n table = None.

Definition unknown_filter : pyval := PDict [("name", PStr "kuromoji")].
Definition stop_filter : pyval :=
  PDict [("name", PStr "stop"); ("words", PStr "lang/stopwords_en.txt")].

(** The endpoints of a copy-field entry, as [map_copy_field] reads
    them. *)
Definition copy_endpoints (c : pyval) : option (string * string) :=
  match c with
  | PDict d =>
      match index_str "source" d, index_str "dest" d with
      | Ok src, Ok dst => Some (src, dst)
      | _, _ => None
      end
  | _ => None
  end.

(** The helper after [map_copy_field] was called on each entry in turn;
    the loop of [_migrate_copy_fields] catches what a call raises and goes
    on with the same helper. *)
Fixpoint run_copy_fields (cs : list pyval) (h : CopyFieldHelper) : CopyFieldHelper :=
  match cs with
  | [] => h
  | c :: cs' => run_copy_fields cs' (snd (map_copy_field c h))
  end.

(** The destinations, in order, of the entries that copy from [src] and
    have both endpoints among the fields [F]. *)
Fixpoint destinations (F : dict (dict pyval)) (src : string) (cs : list pyval)
  : list string :=
  match cs with
  | [] => []
  | c :: cs' =>
      match copy_endpoints c with
      | Some (s, d) =>
          if String.eqb src s && dict_mem s F && dict_mem d F
          then d :: destinations F src cs'
          else destinations F src cs'
      | None => destinations F src cs'
      end
  end.

(** The [copy_to] attribute for the destinations [ds]: nothing, the one
    name, or the flat list of the names. *)
Definition copy_to_value (ds : list string) : option pyval :=
  match ds with
  | [] => None
  | [d] => Some (PStr d)
  | _ :: _ :: _ => Some (PList (map PStr ds))
  end.

(** What relates a helper to the fields [F] it started from and to the
    destinations [seen] recorded so far for each source. *)
Record copy_inv (F : dict (dict pyval)) (h : CopyFieldHelper)
    (seen : string -> list string) : Prop := mkCopyInv {
  inv_keys : forall k, dict_mem k (_all_fields h) = dict_mem k F;
  inv_tracker : forall s,
      dict_get s (_field_copy_to h)
      = match seen s with [] => None | ds => Some ds end;
  inv_copy_to : forall s, seen s <> [] ->
      exists def, dict_get s (_all_fields h) = Some def /\
                  dict_get "copy_to" def = copy_to_value (seen s);
  inv_untouched : forall s, seen s = [] ->
      dict_get s (_all_fields h) = dict_get s F
}.

(** Three copy-field entries for one source, the second to a field that
    does not exist, and the fields they are run on. *)
Definition three_copies : list pyval :=
  [ Example.copy "title" "all"; Example.copy "title" "nowhere";
    Example.copy "title" "id" ].

Definition some_fields : dict (dict pyval) :=
  [ ("id", [("type", PStr "keyword")]); ("title", [("type", PStr "text")]);
    ("all", [("type", PStr "text")]); ("body", [("type", PStr "text")]) ].

(** A filter and a tokenizer given by the full class name of the
    factory. *)
Definition qualified_filter : pyval :=
  PDict [("class", PStr "org.apache.lucene.analysis.core.LowerCaseFilterFactory")].
Definition qualified_tokenizer : pyval :=
  PDict [("class", PStr "org.apache.lucene.analysis.standard.StandardTokenizerFactory")].

(** The state after the field types of the example schema were migrated:
    [text_general] is bound and has its index and query analyzers. *)
Definition after_field_types : World :=
  snd (_migrate_field_types (Example.env Example.strict) World_init).

(** Every character of [v] is in the class of the captured run. *)
Definition value_run (v : string) : Prop :=
  forallb BinaryFix.value_char (list_ascii_of_string v) = true.

(** [post] is empty or starts outside the class: a run before it cannot
    be longer. *)
Definition run_ends (post : string) : Prop :=
  match post with
  | EmptyString => True
  | String c _ => BinaryFix.value_char c = false
  end.

(** [repaired key text out]: reading [text] from the left, every place
    where [key] is followed by a non-empty run of value characters, taken
    as long as it goes, appears in [out] with the run between double
    quotes, and every other character is copied. *)
Inductive repaired (key : string) : string -> string -> Prop :=
| repaired_end : repaired key EmptyString EmptyString
| repaired_copy c s t :
    BinaryFix.matches_at key (String c s) = false ->
    repaired key s t ->
    repaired key (String c s) (String c t)
| repaired_value v post t :
    v <> EmptyString -> value_run v -> run_ends post ->
    repaired key post t ->
    repaired key (key ++ v ++ post)
      (key ++ PyStr.dquote ++ v ++ PyStr.dquote ++ t).

(** The passes for the fields of the list, one after the other. *)
Inductive repaired_all : list string -> string -> string -> Prop :=
| repaired_nil t : repaired_all [] t t
| repaired_cons f fs t t1 t2 :
    repaired (BinaryFix.key_of f) t t1 ->
    repaired_all fs t1 t2 ->
    repaired_all (f :: fs) t t2.

(** A key without a dot: the pattern reads all of it literally. *)
Definition dotless (key : string) : Prop :=
  forallb (fun c => negb (Ascii.eqb c ".")) (list_ascii_of_string key) = true.

Definition q (s : string) : string := PyStr.dquote ++ s ++ PyStr.dquote.

(** A page with an unquoted value for the binary field [thumb], and the
    same page with the value quoted. *)
Definition thumb_page : string :=
  "{" ++ q "response" ++ ":{" ++ q "numFound" ++ ":1," ++ q "docs" ++ ":[{" ++
  q "id" ++ ":" ++ q "7" ++ "," ++ q "thumb" ++ ":ABC123," ++
  q "title" ++ ":" ++ q "a:b" ++ "}]}," ++ q "nextCursorMark" ++ ":" ++ q "AoE" ++ "}".

Definition thumb_page_fixed : string :=
  "{" ++ q "response" ++ ":{" ++ q "numFound" ++ ":1," ++ q "docs" ++ ":[{" ++
  q "id" ++ ":" ++ q "7" ++ "," ++ q "thumb" ++ ":" ++ q "ABC123" ++ "," ++
  q "title" ++ ":" ++ q "a:b" ++ "}]}," ++ q "nextCursorMark" ++ ":" ++ q "AoE" ++ "}".

(** A page whose one document has a number under [aXb] and no field
    [a.b], and what the repair for the binary field [a.b] makes of it. *)
Definition dotted_page : string :=
  "{" ++ q "response" ++ ":{" ++ q "numFound" ++ ":1," ++ q "docs" ++ ":[{" ++
  q "id" ++ ":" ++ q "7" ++ "," ++ q "aXb" ++ ":1}]}," ++
  q "nextCursorMark" ++ ":" ++ q "AoE" ++ "}".

Definition dotted_page_rewritten : string :=
  "{" ++ q "response" ++ ":{" ++ q "numFound" ++ ":1," ++ q "docs" ++ ":[{" ++
  q "id" ++ ":" ++ q "7" ++ "," ++ q "a.b" ++ ":" ++ q "1" ++ "}]}," ++
  q "nextCursorMark" ++ ":" ++ q "AoE" ++ "}".

(** The loop test of [_export_regular_data] holds. *)
Definition below_cap (X : ExportEnv) (total_docs : Z) (st : ExportState) : Prop :=
  (exported_docs st < Z.min total_docs (max_rows (data_config X)))%Z.

(** What the page query of the next iteration answers. *)
Definition next_response (X : ExportEnv) (st : ExportState) : res string :=
  solr_select X (List.length (page_requests st)) (cursor_mark st)
    (rows_per_page (data_config X)).

(** The state once the page query of the next iteration is out. *)
Definition requested (st : ExportState) : ExportState :=
  mkExportState (exported_docs st) (S (batch_count st)) (cursor_mark st)
    (page_requests st ++ [cursor_mark st]) (s3_objects st) (export_report st).

(** The page the next iteration reads: the response text, repaired and
    parsed. *)
Definition next_batch (X : ExportEnv) (binary_fields : list string)
    (st : ExportState) : res pyval :=
  res_bind (next_response X st) (fun text =>
  json_loads X (_fix_binary_fields_in_json text binary_fields)).

(** [batch_data['response']['docs']] *)
Definition batch_docs (batch_data : pyval) : res pyval :=
  res_bind (py_index "response" batch_data) (py_index "docs").

(** The next iteration reads a page of [n] documents, [n] positive, with
    the cursor [next], and the object store takes it. *)
Definition full_page (X : ExportEnv) (binary_fields : list string)
    (st : ExportState) (n : Z) (next : pyval) : Prop :=
  exists d docs,
    next_batch X binary_fields st = Ok (PDict d) /\
    batch_docs (PDict d) = Ok (PList docs) /\
    docs <> [] /\ Z.of_nat (List.length docs) = n /\
    put_object X (s3_key X (requested st)) (PList docs) = Ok tt /\
    py_get "nextCursorMark" d = next.

(** The state after a full page whose cursor differs from the current
    one. *)
Definition advanced (X : ExportEnv) (st : ExportState) (docs : pyval) (n : Z)
    (next : pyval) : ExportState :=
  mkExportState (exported_docs st + n) (S (batch_count st)) next
    (page_requests st ++ [cursor_mark st])
    (s3_objects st ++ [(s3_key X (requested st), docs)]) (export_report st).

(** A source with 1200 documents, served 500 at a time. *)
Module Paging.

Definition doc (i : nat) : pyval := PDict [("id", PStr (PyStr.of_nat i))].

Definition page_text (from count : nat) (next : string) : string :=
  Json.dumps false
    (PDict [("response",
             PDict [("numFound", PInt 1200);
                    ("docs", PList (map doc (seq from count)))]);
            ("nextCursorMark", PStr next)]).

Definition select (k : nat) (cursor : pyval) (rows : Z) : res string :=
  match k with
  | O => Ok (page_text 0 500 "c1")
  | S O => Ok (page_text 500 500 "c2")
  | _ => Ok (page_text 1000 200 "c3")
  end.

Definition env : ExportEnv :=
  mkExportEnv (mkDataConfig 500 1000 "bucket" "solr-data/") "books"
    (Ok Example.schema)
    (Ok (page_text 0 0 "*"))
    select
    (fun _ _ => Ok tt)
    reader_loads.

End Paging.

(** The accounting part of a report: the twelve counters of the schema
    categories and the four exception lists. *)
Definition counts (r : Report) : list nat * list (list exn) :=
  ([ field_types_solr r; field_types_os r; field_types_error r;
     field_solr r; field_os r; field_error r;
     dynamic_field_solr r; dynamic_field_os r; dynamic_field_error r;
     copy_field_solr r; copy_field_os r; copy_field_error r ],
   [ field_type_exception_list r; field_exception_list r;
     dynamic_field_exception_list r; copy_field_exception_list r ]).

(** A call that leaves the report as it is, whatever it answers. *)
Definition keeps_report {A} (m : M A) : Prop :=
  forall w, _report (snd (m w)) = _report w.

(** A call that leaves the accounting part of the report as it is. *)
Definition keeps_counts {A} (m : M A) : Prop :=
  forall w, counts (_report (snd (m w))) = counts (_report w).

(** A built-in exception, none of the tool's own classes. *)
Definition py_error (e : exn) : Prop :=
  match e with PyError _ _ => True | _ => False end.

(** A call that raises built-in exceptions only. *)
Definition raises_py_only {A} (m : M A) : Prop :=
  forall w e w1, m w = (Raise e, w1) -> py_error e.

Definition res_py_only {A} (r : res A) : Prop :=
  match r with Raise e => py_error e | Ok _ => True end.

(** The accounting of a report: in each category the attempted counter is
    the sum of the succeeded and the error counter, and the recorded
    exceptions are as many as the errors counted (for field types, unless
    failed field types are counted as succeeded). *)
Definition accounted (lenient : bool) (r : Report) : Prop :=
  field_types_solr r = (field_types_os r + field_types_error r)%nat /\
  field_solr r = (field_os r + field_error r)%nat /\
  dynamic_field_solr r = (dynamic_field_os r + dynamic_field_error r)%nat /\
  copy_field_solr r = (copy_field_os r + copy_field_error r)%nat /\
  (lenient = false ->
   List.length (field_type_exception_list r) = field_types_error r) /\
  List.length (field_exception_list r) = field_error r /\
  List.length (dynamic_field_exception_list r) = dynamic_field_error r /\
  List.length (copy_field_exception_list r) = copy_field_error r.














(** The order of [sort_keys=True] on the items of a dictionary. *)
Definition key_le {V} (a b : string * V) : Prop :=
  String.leb (fst a) (fst b) = true.

(** A call after which the state is related by [R] to the state before,
    whatever the call answers. *)
Definition preserves {A} (R : World -> World -> Prop) (m : M A) : Prop :=
  forall w, R w (snd (m w)).


(** The index under construction, the field-type bindings and the report
    are the same. *)
Definition same_index (w w' : World) : Prop :=
  index_analyzers w' = index_analyzers w /\
  index_fields w' = index_fields w /\
  _dynamic_templates w' = _dynamic_templates w /\
  _field_types_map w' = _field_types_map w /\
  _report w' = _report w.

(** The filter cache is the same. *)
Definition same_filter_map (w w' : World) : Prop := _filter_map w' = _filter_map w.

(** The bindings of the field types are the same. *)
Definition same_bindings (w w' : World) : Prop :=
  _field_types_map w' = _field_types_map w.

(** An exception of the target client's package life cycle. *)
Definition is_opensearch_exn (e : exn) : bool :=
  match e with OpenSearchMappingException _ _ => true | _ => false end.

(** A tokenizer given by its name in upper case, for a table that has the
    standard tokenizer. *)
Definition standard_upper : pyval := PDict [("name", PStr "STANDARD")].

(** The surroundings of the examples, with a target client that cannot
    create packages. *)
Definition no_packages_env : Env :=
  mkEnv Example.tokenizers Example.filters Example.char_filters
    Example.data_types Example.attributes Example.strict "books"
    Example.schema
    (fun _ => Ok Example.stopwords_file)
    (fun _ name _ =>
       Raise (OpenSearchMappingException (Some name)
                "OpenSearch package creation failed")).

(** A stop filter with a word list, its name in capitals. *)
Definition stop_words_filter : pyval :=
  PDict [("name", PStr "Stop"); ("words", PStr "lang/stopwords_en.txt")].

(** The surroundings of the examples, with a geographic shape among the
    data types. *)
Definition geo_env : Env :=
  mkEnv Example.tokenizers Example.filters Example.char_filters
    (("solr.SpatialRecursivePrefixTreeFieldType", "geo_shape") :: Example.data_types)
    Example.attributes Example.strict "places" Example.schema
    (fun _ => Ok Example.stopwords_file)
    (fun _ name _ => Ok ("F-" ++ name)).

(** A state in which the type [location] is bound to a geographic shape. *)
Definition geo_world : World :=
  set_field_types_map (dict_set "location" (Some "geo_shape")) World_init.

(** A field of that type, stored, indexed and with doc values. *)
Definition geo_field : pyval :=
  PDict [ ("name", PStr "area"); ("type", PStr "location");
          ("indexed", PBool true); ("stored", PBool true);
          ("docValues", PBool true) ].

(** A state after the field types of the example schema. *)
Definition typed_world : World :=
  snd (migrate_field_types (Example.env Example.strict)
         (fieldTypes Example.schema) World_init).

(** Two field definitions agree on every attribute but [copy_to]. *)
Definition same_but_copy_to (def def' : dict pyval) : Prop :=
  forall k, k <> "copy_to" -> dict_get k def' = dict_get k def.

(** [len(docs)] where it is defined, nothing otherwise. *)
Definition docs_len (docs : pyval) : Z :=
  match py_len docs with Ok n => n | Raise _ => 0%Z end.

(** The documents counted for a list of stored objects. *)
Definition stored_docs (objs : list (string * pyval)) : Z :=
  fold_right (fun o acc => (docs_len (snd o) + acc)%Z) 0%Z objs.

(** What a run of the export loop has added to a state: the page queries
    sent and the objects stored. *)
Record export_progress (st st' : ExportState) (reqs : list pyval)
    (objs : list (string * pyval)) : Prop := mkExportProgress {
  prog_requests : page_requests st' = (page_requests st ++ reqs)%list;
  prog_batches : batch_count st' = batch_count st + List.length reqs;
  prog_objects : s3_objects st' = (s3_objects st ++ objs)%list;
  prog_some_stored : List.length objs <= List.length reqs;
  prog_not_empty : Forall (fun o => py_truthy (snd o) = true) objs;
  prog_exported : exported_docs st' = (exported_docs st + stored_docs objs)%Z
}.

(** The errors a report counts are the ones it lists. *)
Definition errors_listed (r : Report) : Prop :=
  data_migration_errors r = List.length (data_migration_error_list r).

(** A source that answers every page query with a page of an error
    document, not JSON. *)
Definition gateway_env : ExportEnv :=
  mkExportEnv (mkDataConfig 500 1000 "bucket" "solr-data/") "books"
    (Ok Example.schema)
    (Ok (Paging.page_text 0 0 "*"))
    (fun _ _ _ => Ok "<html>502 Bad Gateway</html>")
    (fun _ _ => Ok tt)
    reader_loads.

(** The key of the object of batch [n]. *)
Definition batch_key (X : ExportEnv) (n : nat) : string :=
  s3_export_prefix (data_config X) ++ export_collection X ++ "_batch_" ++
  PyStr.of_nat n ++ ".json".

(** The integer a decimal numeral stands for. *)
Definition decimal_value (s : string) : Z :=
  match NilZero.int_of_string s with
  | Some d => Z.of_int d
  | None => 0%Z
  end.

(** The objects [objs] were stored under the keys of the batches [ns],
    which go up and lie after [lo], up to [hi]. *)
Definition keyed_by (X : ExportEnv) (lo hi : nat) (objs : list (string * pyval))
    (ns : list nat) : Prop :=
  map fst objs = map (batch_key X) ns /\
  StronglySorted lt ns /\
  Forall (fun n => lo < n <= hi) ns.

(** The field [n] of the schema has a type whose class is a binary
    field. *)
Definition binary_in_schema (schema : Schema) (n : string) : Prop :=
  exists f t ft cls,
    In (PDict f) (fields schema) /\
    py_get "name" f = PStr n /\ py_get "type" f = PStr t /\
    In (PDict ft) (fieldTypes schema) /\
    dict_get "class" ft = Some (PStr cls) /\
    PyStr.endswith "BinaryField" cls = true /\
    (py_get "name" ft = PStr t \/
     (py_truthy (py_get "name" ft) = false /\ t = cls)).

(** The analyzers of the index under construction are the same. *)
Definition same_analyzers (w w' : World) : Prop :=
  index_analyzers w' = index_analyzers w.

(** The names [map_analyzer] gives to the analyzers of a field type
    named [n]. *)
Definition analyzer_names (ft : dict pyval) (n : string) : list string :=
  let index_name := n ++ "_index" in
  let query_name := n ++ "_query" in
  ((if is_none (py_get "analyzer" ft) then [] else [n]) ++
   (if is_none (py_get "indexAnalyzer" ft) then [] else [index_name]) ++
   (if is_none (py_get "queryAnalyzer" ft) then [] else [query_name]))%list.

(** The attributes of the example field type with an index and a query
    analyzer. *)
Definition general_type : dict pyval :=
  [ ("name", PStr "text_general"); ("class", PStr "solr.TextField");
    ("indexAnalyzer",
     PDict [ ("tokenizer", PDict [("class", PStr "solr.StandardTokenizerFactory")]);
             ("filters", PList [PDict [("class", PStr "solr.LowerCaseFilterFactory")]]) ]);
    ("queryAnalyzer",
     PDict [ ("tokenizer", PDict [("class", PStr "solr.StandardTokenizerFactory")]);
             ("filters", PList [PDict [("name", PStr "lowercase")]]) ]) ].

(** A source that counts 1200 documents and then refuses every page
    query. *)
Definition down_env : ExportEnv :=
  mkExportEnv (mkDataConfig 500 1000 "bucket" "solr-data/") "books"
    (Ok Example.schema)
    (Ok (Paging.page_text 0 0 "*"))
    (fun _ _ _ => Raise (PyError "ConnectionError" "Connection refused"))
    (fun _ _ => Ok tt)
    reader_loads.

(** The attributes of the example field type whose tokenizer has no
    table entry. *)
Definition japanese_type : dict pyval :=
  [ ("name", PStr "text_ja"); ("class", PStr "solr.TextField");
    ("analyzer",
     PDict [ ("tokenizer", PDict [("class", PStr "solr.JapaneseTokenizerFactory")]);
             ("filters", PList [PDict [("class", PStr "solr.LowerCaseFilterFactory")]]) ]) ].

(** Every entry of the filter cache is a token filter that carries its
    key as its name; it holds of a fresh helper and as long as only
    token filters are mapped. *)
Definition filters_cached_by_name (w : World) : Prop :=
  forall k e, dict_get k (_filter_map w) = Some e ->
              exists c, e = BuiltFilter c /\ c_name c = k.

(** The entry [e] is the token filter for the source definition [f]: it
    is named by the resolved name of [f] followed by the hash of [f]. *)
Definition filter_for (f : pyval) (e : filter_entry) : Prop :=
  exists name c,
    _get_filter_name f = Ok name /\ e = BuiltFilter c /\
    c_name c = name ++ get_hash f.

(** Two filters, the stop filter first. *)
Definition stop_then_lowercase : list pyval :=
  [ PDict [("class", PStr "solr.StopFilterFactory"); ("words", PStr "stopwords.txt")];
    PDict [("class", PStr "solr.LowerCaseFilterFactory")] ].

(** * Properties *)

(** ** Dictionaries *)

Section DictFacts.
Variable V : Type.

Lemma dict_get_set_eq (k : string) (v : V) (d : dict V) :
  dict_get k (dict_set k v d) = Some v.
Proof.
  induction d as [|[k' v'] d IH]; simpl.
  - now rewrite String.eqb_refl.
  - destruct (String.eqb k k') eqn:Hk; simpl; rewrite Hk; auto.
Qed.

Lemma dict_get_set_neq (k k' : string) (v : V) (d : dict V) :
  k <> k' -> dict_get k (dict_set k' v d) = dict_get k d.
Proof.
  intros Hne. induction d as [|[k0 v0] d IH]; simpl.
  - apply String.eqb_neq in Hne. now rewrite Hne.
  - destruct (String.eqb k' k0) eqn:Hk; simpl.
    + apply String.eqb_eq in Hk. subst k0.
      apply String.eqb_neq in Hne. now rewrite Hne.
    + destruct (String.eqb k k0); auto.
Qed.

Lemma dict_mem_set (k k' : string) (v : V) (d : dict V) :
  dict_mem k (dict_set k' v d) = String.eqb k k' || dict_mem k d.
Proof.
  unfold dict_mem. destruct (String.eqb k k') eqn:Hk.
  - apply String.eqb_eq in Hk. subst. now rewrite dict_get_set_eq.
  - apply String.eqb_neq in Hk. now rewrite dict_get_set_neq.
Qed.
End DictFacts.

(** ** The filter cache *)

(** Closes a case in which a raised exception is equated with a result. *)
Ltac clash :=
  match goal with
  | H : (Raise _, _) = (Ok _, _) |- _ => discriminate H
  | H : (Ok _, _) = (Raise _, _) |- _ => discriminate H
  | H : Raise _ = Ok _ |- _ => discriminate H
  | H : Ok _ = Raise _ |- _ => discriminate H
  end.
Ltac absurd_run :=
  intros; simpl in *;
  first [ clash
        | match goal with e : exn |- _ => destruct e; simpl in *; clash end ].

Lemma map_filter_ok_inv E f w r w1 :
  _map_filter E f w = (Ok r, w1) ->
  exists name spec,
    _get_filter_name f = Ok name /\
    dict_get name (_filter_mapping E) = Some spec /\
    dict_get (name ++ get_hash f) (_filter_map w1) = Some r.
Proof.
  unfold _map_filter, bind, lift, try_except, gets, raise, ret, modify.
  destruct (_get_filter_name f) as [name|e]; [|absurd_run].
  destruct (dict_get name (_filter_mapping E)) as [spec|] eqn:Hspec; [|absurd_run].
  destruct (dict_get (name ++ get_hash f) (_filter_map w)) as [tf|] eqn:Hc.
  - intros H. inversion H. subst. eauto.
  - destruct (as_dict f) as [cfg|e]; [|absurd_run].
    destruct (process_keys _ _ _ _ _ _) as [[def|e] w'] eqn:Hp.
    + intros H. inversion H. subst. exists name, spec.
      repeat split; auto. simpl. apply dict_get_set_eq.
    + destruct e; absurd_run.
Qed.

Lemma map_filter_hit E f w name spec r :
  _get_filter_name f = Ok name ->
  dict_get name (_filter_mapping E) = Some spec ->
  dict_get (name ++ get_hash f) (_filter_map w) = Some r ->
  _map_filter E f w = (Ok r, w).
Proof.
  intros Hn Hs Hc.
  unfold _map_filter, bind, lift, try_except, gets, raise, ret.
  now rewrite Hn, Hs, Hc.
Qed.

(** C1, as amended.  The cache of [_map_filter] is keyed by the resolved
    name followed by the hash of the source definition as given.  A
    definition mapped with success is stored under that key, and mapping
    afterwards a definition with the same resolved name and the same hash
    (the same definition again, in particular) is a cache hit: it returns
    the construct of the first mapping and leaves the state as it is. *)
Theorem map_filter_cache_hit E f1 f2 w r w1 :
  _map_filter E f1 w = (Ok r, w1) ->
  _get_filter_name f2 = _get_filter_name f1 ->
  get_hash f2 = get_hash f1 ->
  (exists name,
     _get_filter_name f1 = Ok name /\
     dict_get (name ++ get_hash f1) (_filter_map w1) = Some r) /\
  _map_filter E f2 w1 = (Ok r, w1).
Proof.
  intros H1 Hn Hh.
  destruct (map_filter_ok_inv _ _ _ _ _ H1) as (name & spec & Hname & Hspec & Hget).
  split; [eauto|].
  apply map_filter_hit with (name := name) (spec := spec); congruence.
Qed.

Lemma map_filter_cache_hit_witness :
  let E := Example.env Example.strict in
  let w1 := snd (_map_filter E lowercase_by_name World_init) in
  exists r, _map_filter E lowercase_by_name w1 = (Ok r, w1).
Proof.
  eexists.
  refine (proj2 (map_filter_cache_hit (Example.env Example.strict)
                   lowercase_by_name lowercase_by_name World_init _ _ _ _ _)).
  - vm_compute. reflexivity.
  - reflexivity.
  - reflexivity.
Defined.

(** C1 as stated does not hold: a filter given by name and the same filter
    given by class resolve to the same name, the same type and the same
    (empty) attribute set, and yet the second mapping builds a second
    construct under a second key. *)
Lemma map_filter_no_dedup_across_names :
  let E := Example.env Example.strict in
  exists tf1 tf2 w1 w2,
    _map_filter E lowercase_by_name World_init = (Ok (BuiltFilter tf1), w1) /\
    _map_filter E lowercase_by_class w1 = (Ok (BuiltFilter tf2), w2) /\
    _get_filter_name lowercase_by_name = _get_filter_name lowercase_by_class /\
    c_type tf1 = c_type tf2 /\ c_attrs tf1 = c_attrs tf2 /\
    tf1 <> tf2 /\
    List.length (_filter_map w1) = 1%nat /\ List.length (_filter_map w2) = 2%nat.
Proof.
  cbv zeta. do 4 eexists.
  split; [vm_compute; reflexivity|].
  split; [vm_compute; reflexivity|].
  repeat split; try reflexivity.
  intros H. vm_compute in H. discriminate H.
Qed.

(** ** The pre-check of [map_filters] and [map_char_filters] *)

Lemma pre_check_unmapped table not_found fs :
  Forall resolves fs ->
  Exists (unmapped table) fs ->
  exists n, dict_get n table = None /\
            pre_check table not_found fs = Raise (not_found n).
Proof.
  intros Hres Hex. induction fs as [|f fs IH]; [inversion Hex|].
  inversion Hres as [|? ? [n Hn] Hres']; subst.
  simpl. rewrite Hn. simpl.
  destruct (dict_get n table) as [spec|] eqn:Hspec.
  - apply IH; auto.
    inversion Hex as [? ? [n' [Hn' Hnone]]|]; subst; auto.
    congruence.
  - eauto.
Qed.

Lemma map_filters_pre_check_fails E fs w n :
  pre_check (_filter_mapping E)
    (fun n => FilterMappingException n MAPPING_NOT_FOUND) fs
  = Raise (FilterMappingException n MAPPING_NOT_FOUND) ->
  map_filters E (PList fs) w
  = (Raise (FilterMappingException n MAPPING_NOT_FOUND), w).
Proof.
  intros H. unfold map_filters, try_except, bind, lift, raise. simpl.
  now rewrite H.
Qed.

Lemma map_char_filters_pre_check_fails E fs w n :
  pre_check (_char_filter_mapping E)
    (fun n => CharFilterMappingException n MAPPING_NOT_FOUND) fs
  = Raise (CharFilterMappingException n MAPPING_NOT_FOUND) ->
  map_char_filters E (PList fs) w
  = (Raise (CharFilterMappingException n MAPPING_NOT_FOUND), w).
Proof.
  intros H. unfold map_char_filters, try_except, bind, lift, raise. simpl.
  now rewrite H.
Qed.

(** C2.  On a list of filter definitions (each with a name that resolves)
    of which one has no entry in the filter table, [map_filters] raises
    [FilterMappingException] with the shared not-found message and leaves
    the whole state as it was: no package file, no package call, no entry
    of the package map and no cached construct, also for the elements in
    front of the unmapped one.  [map_char_filters] does the same with the
    char-filter table and [CharFilterMappingException]. *)
Theorem map_filters_fails_before_side_effects E fs w :
  Forall resolves fs ->
  (Exists (unmapped (_filter_mapping E)) fs ->
   exists n, dict_get n (_filter_mapping E) = None /\
     map_filters E (PList fs) w
     = (Raise (FilterMappingException n MAPPING_NOT_FOUND), w)) /\
  (Exists (unmapped (_char_filter_mapping E)) fs ->
   exists n, dict_get n (_char_filter_mapping E) = None /\
     map_char_filters E (PList fs) w
     = (Raise (CharFilterMappingException n MAPPING_NOT_FOUND), w)).
Proof.
  intros Hres. split; intros Hex.
  - destruct (pre_check_unmapped (_filter_mapping E)
                (fun n => FilterMappingException n MAPPING_NOT_FOUND) fs Hres Hex)
      as (n & Hnone & Hpre).
    exists n. split; auto. now apply map_filters_pre_check_fails.
  - destruct (pre_check_unmapped (_char_filter_mapping E)
                (fun n => CharFilterMappingException n MAPPING_NOT_FOUND) fs Hres Hex)
      as (n & Hnone & Hpre).
    exists n. split; auto. now apply map_char_filters_pre_check_fails.
Qed.

Lemma map_filters_fails_before_side_effects_witness :
  let E := Example.env Example.strict in
  let fs := [stop_filter; unknown_filter] in
  (exists n, dict_get n (_filter_mapping E) = None /\
     map_filters E (PList fs) World_init
     = (Raise (FilterMappingException n MAPPING_NOT_FOUND), World_init)) /\
  (exists n, dict_get n (_char_filter_mapping E) = None /\
     map_char_filters E (PList fs) World_init
     = (Raise (CharFilterMappingException n MAPPING_NOT_FOUND), World_init)).
Proof.
  assert (Hres : Forall resolves [stop_filter; unknown_filter]).
  { repeat constructor; eexists; reflexivity. }
  pose proof (map_filters_fails_before_side_effects
                (Example.env Example.strict) [stop_filter; unknown_filter]
                World_init Hres) as [Hf Hc].
  split.
  - apply Hf. apply Exists_cons_tl, Exists_cons_hd.
    exists "kuromoji". split; reflexivity.
  - apply Hc. apply Exists_cons_hd.
    exists "stop". split; reflexivity.
Defined.

(** ** Copy fields *)

Lemma map_copy_field_unreadable c h :
  copy_endpoints c = None ->
  exists e, map_copy_field c h = (Raise e, h).
Proof.
  unfold copy_endpoints, map_copy_field.
  destruct c; simpl; eauto. unfold res_bind.
  destruct (index_str "source" d) as [src|e]; simpl; eauto.
  destruct (index_str "dest" d) as [dst|e]; simpl; eauto.
  discriminate.
Qed.

Lemma map_copy_field_readable c h src dst :
  copy_endpoints c = Some (src, dst) ->
  map_copy_field c h =
  match dict_get src (_all_fields h), dict_get dst (_all_fields h) with
  | Some src_def, Some dst_def =>
      let '(src_def', copy_to') :=
        match dict_get src (_field_copy_to h) with
        | None =>
            (dict_set "copy_to" (PStr dst) src_def,
             dict_set src [dst] (_field_copy_to h))
        | Some dsts =>
            (extend_copy_to dst src_def,
             dict_set src (dsts ++ [dst])%list (_field_copy_to h))
        end in
      let dst_def' := if String.eqb src dst then src_def' else dst_def in
      (Ok (mkCopyFieldResult src src_def' dst dst_def'),
       mkCopyFieldHelper (dict_set src src_def' (_all_fields h)) copy_to')
  | _, _ =>
      (Raise (CopyFieldMappingException src MAPPING_NOT_FOUND (Some src)), h)
  end.
Proof.
  unfold copy_endpoints, map_copy_field.
  destruct c; try discriminate. unfold res_bind.
  destruct (index_str "source" d) as [s|e]; try discriminate.
  destruct (index_str "dest" d) as [t|e]; try discriminate.
  intros H. inversion H. subst. reflexivity.
Qed.

Lemma map_copy_field_unresolved c h src dst :
  copy_endpoints c = Some (src, dst) ->
  dict_get src (_all_fields h) = None \/ dict_get dst (_all_fields h) = None ->
  map_copy_field c h
  = (Raise (CopyFieldMappingException src MAPPING_NOT_FOUND (Some src)), h).
Proof.
  intros Hc Hnone. rewrite (map_copy_field_readable _ _ _ _ Hc).
  destruct Hnone as [H|H]; rewrite H; auto.
  destruct (dict_get src (_all_fields h)); auto.
Qed.

Lemma copy_to_value_snoc ds d def :
  ds <> [] ->
  dict_get "copy_to" def = copy_to_value ds ->
  dict_get "copy_to" (extend_copy_to d def) = copy_to_value (ds ++ [d]).
Proof.
  intros Hne Hget. unfold extend_copy_to. rewrite Hget.
  destruct ds as [|d0 [|d1 ds']]; [congruence| |]; simpl.
  - apply dict_get_set_eq.
  - rewrite dict_get_set_eq. destruct (ds' ++ [d])%list eqn:Happ.
    + destruct ds'; discriminate.
    + rewrite <- Happ. now rewrite map_app.
Qed.

Lemma dict_mem_get_some {V} k (d : dict V) :
  dict_mem k d = true -> exists v, dict_get k d = Some v.
Proof. unfold dict_mem. destruct (dict_get k d); eauto; discriminate. Qed.

Lemma dict_mem_get_none {V} k (d : dict V) :
  dict_mem k d = false -> dict_get k d = None.
Proof. unfold dict_mem. destruct (dict_get k d); auto; discriminate. Qed.

Lemma copy_inv_ext F h seen seen' :
  (forall s, seen s = seen' s) -> copy_inv F h seen -> copy_inv F h seen'.
Proof.
  intros Heq [Hk Ht Hc Hu]. constructor; intros; try rewrite <- Heq in *; auto.
Qed.

(** One call of [map_copy_field] keeps the relation, with the destination
    recorded when both endpoints are fields. *)
Lemma map_copy_field_inv F h seen c :
  copy_inv F h seen ->
  copy_inv F (snd (map_copy_field c h))
    (fun s => (seen s ++ destinations F s [c])%list).
Proof.
  intros Hinv. destruct (copy_endpoints c) as [[src dst]|] eqn:Hc.
  2:{ destruct (map_copy_field_unreadable c h Hc) as [e He]. rewrite He. simpl.
      eapply copy_inv_ext; [|exact Hinv].
      intros s. simpl. rewrite Hc. now rewrite app_nil_r. }
  rewrite (map_copy_field_readable _ _ _ _ Hc).
  destruct Hinv as [Hk Ht Hct Hu].
  destruct (dict_mem src F) eqn:Hms.
  2:{ pose proof Hms as Hms'. rewrite <- Hk in Hms'.
      rewrite (dict_mem_get_none _ _ Hms'). simpl.
      constructor; auto; intros s; simpl; rewrite Hc, Hms, andb_false_r, ?app_nil_r; auto. }
  destruct (dict_mem dst F) eqn:Hmd.
  2:{ pose proof Hmd as Hmd'. rewrite <- Hk in Hmd'.
      rewrite (dict_mem_get_none _ _ Hmd').
      assert (Hsame : (match dict_get src (_all_fields h) with
                       | Some _ | _ =>
                           (Raise (CopyFieldMappingException src MAPPING_NOT_FOUND (Some src)) : res CopyFieldResult, h)
                       end) = (Raise (CopyFieldMappingException src MAPPING_NOT_FOUND (Some src)), h)).
      { destruct (dict_get src (_all_fields h)); auto. }
      rewrite Hsame. simpl.
      constructor; auto; intros s; simpl; rewrite Hc, Hms, Hmd, andb_false_r, ?app_nil_r; auto. }
  pose proof Hms as Hms'. rewrite <- Hk in Hms'.
  pose proof Hmd as Hmd'. rewrite <- Hk in Hmd'.
  destruct (dict_mem_get_some _ _ Hms') as [src_def Hsd].
  destruct (dict_mem_get_some _ _ Hmd') as [dst_def Hdd].
  rewrite Hsd, Hdd.
  assert (Hdest : forall s, destinations F s [c] = if String.eqb s src then [dst] else []).
  { intros s. simpl. rewrite Hc, Hms, Hmd. destruct (String.eqb s src); reflexivity. }
  apply copy_inv_ext
    with (seen := fun s => (seen s ++ (if String.eqb s src then [dst] else []))%list);
    [intros s; now rewrite Hdest|].
  rewrite Ht.
  destruct (seen src) as [|d0 ds0] eqn:Hseen; simpl.
  - constructor; simpl.
    + intros k. rewrite dict_mem_set, Hk.
      destruct (String.eqb k src) eqn:Hks; auto.
      apply String.eqb_eq in Hks. now subst.
    + intros s. destruct (String.eqb s src) eqn:Hss.
      * apply String.eqb_eq in Hss. subst s.
        rewrite dict_get_set_eq, Hseen. reflexivity.
      * apply String.eqb_neq in Hss. rewrite dict_get_set_neq by auto.
        rewrite app_nil_r. apply Ht.
    + intros s. destruct (String.eqb s src) eqn:Hss.
      * apply String.eqb_eq in Hss. subst s. intros _.
        rewrite dict_get_set_eq, Hseen. eexists. split; [reflexivity|].
        simpl. apply dict_get_set_eq.
      * apply String.eqb_neq in Hss. rewrite dict_get_set_neq by auto.
        rewrite app_nil_r. apply Hct.
    + intros s. destruct (String.eqb s src) eqn:Hss.
      * apply String.eqb_eq in Hss. subst s. rewrite Hseen. discriminate.
      * apply String.eqb_neq in Hss. rewrite dict_get_set_neq by auto.
        rewrite app_nil_r. apply Hu.
  - assert (Hne : seen src <> []) by (rewrite Hseen; discriminate).
    destruct (Hct src Hne) as (def & Hdef & Hcopy).
    assert (def = src_def) by congruence. subst def.
    constructor; simpl.
    + intros k. rewrite dict_mem_set, Hk.
      destruct (String.eqb k src) eqn:Hks; auto.
      apply String.eqb_eq in Hks. now subst.
    + intros s. destruct (String.eqb s src) eqn:Hss.
      * apply String.eqb_eq in Hss. subst s.
        rewrite dict_get_set_eq, Hseen. reflexivity.
      * apply String.eqb_neq in Hss. rewrite dict_get_set_neq by auto.
        rewrite app_nil_r. apply Ht.
    + intros s. destruct (String.eqb s src) eqn:Hss.
      * apply String.eqb_eq in Hss. subst s. intros _.
        rewrite dict_get_set_eq. eexists. split; [reflexivity|].
        apply copy_to_value_snoc; auto.
      * apply String.eqb_neq in Hss. rewrite dict_get_set_neq by auto.
        rewrite app_nil_r. apply Hct.
    + intros s. destruct (String.eqb s src) eqn:Hss.
      * apply String.eqb_eq in Hss. subst s. rewrite Hseen. discriminate.
      * apply String.eqb_neq in Hss. rewrite dict_get_set_neq by auto.
        rewrite app_nil_r. apply Hu.
Qed.

Lemma destinations_cons F s c cs :
  destinations F s (c :: cs) = (destinations F s [c] ++ destinations F s cs)%list.
Proof.
  simpl. destruct (copy_endpoints c) as [[src dst]|]; auto.
  destruct (String.eqb s src && dict_mem src F && dict_mem dst F); auto.
Qed.

Lemma run_copy_fields_inv F cs : forall h seen,
  copy_inv F h seen ->
  copy_inv F (run_copy_fields cs h)
    (fun s => (seen s ++ destinations F s cs)%list).
Proof.
  induction cs as [|c cs IH]; intros h seen Hinv.
  - simpl. eapply copy_inv_ext; [|exact Hinv]. intros s. now rewrite app_nil_r.
  - simpl run_copy_fields.
    eapply copy_inv_ext; [|apply IH, map_copy_field_inv, Hinv].
    intros s. simpl. rewrite <- app_assoc. f_equal.
    symmetry. apply (destinations_cons F s c cs).
Qed.

Lemma copy_inv_init F : copy_inv F (CopyFieldHelper_init F) (fun _ => []).
Proof. constructor; simpl; auto. congruence. Qed.

Lemma run_copy_fields_app cs cs' h :
  run_copy_fields (cs ++ cs') h = run_copy_fields cs' (run_copy_fields cs h).
Proof. revert h. induction cs as [|c cs IH]; intros h; simpl; auto. Qed.

Lemma destinations_app F s cs cs' :
  destinations F s (cs ++ cs') = (destinations F s cs ++ destinations F s cs')%list.
Proof.
  induction cs as [|c cs IH]; auto.
  rewrite <- app_comm_cons, destinations_cons, IH, app_assoc.
  now rewrite <- destinations_cons.
Qed.

(** C6.  Let the helper start from the field definitions [F] and have
    gone through the entries [cs], and let [c] be the next entry, copying
    [src] to [dst].  If [src] or [dst] is not a field, [map_copy_field]
    raises [CopyFieldMappingException] with the shared not-found message
    and the helper, field definitions included, is as before.  Otherwise
    the call succeeds, and the [copy_to] attribute of the definition of
    [src] (the one returned and the one kept) is [copy_to_value] of all
    the destinations recorded for [src], this one last: the bare name when
    it is the only one, the flat list of the names otherwise. *)
Theorem map_copy_field_spec (F : dict (dict pyval)) (cs : list pyval)
    (c : pyval) (src dst : string) :
  copy_endpoints c = Some (src, dst) ->
  let h := run_copy_fields cs (CopyFieldHelper_init F) in
  (dict_get src (_all_fields h) = None \/ dict_get dst (_all_fields h) = None ->
   map_copy_field c h
   = (Raise (CopyFieldMappingException src MAPPING_NOT_FOUND (Some src)), h)) /\
  (dict_get src (_all_fields h) <> None -> dict_get dst (_all_fields h) <> None ->
   exists r h' ds,
     map_copy_field c h = (Ok r, h') /\
     (destinations F src cs ++ [dst])%list = ds /\
     dict_get src (_all_fields h') = Some (cf_src_def r) /\
     dict_get "copy_to" (cf_src_def r) = copy_to_value ds /\
     dict_get "copy_to" (cf_src_def r)
     = Some (match ds with [d] => PStr d | _ => PList (map PStr ds) end)).
Proof.
  intros Hc h. split.
  - apply map_copy_field_unresolved, Hc.
  - intros Hs Hd.
    pose proof (run_copy_fields_inv F cs _ _ (copy_inv_init F)) as Hinv.
    simpl in Hinv. fold h in Hinv.
    pose proof (map_copy_field_inv F h _ c Hinv) as Hinv'.
    assert (HmS : dict_mem src F = true).
    { rewrite <- (inv_keys _ _ _ Hinv). unfold dict_mem.
      destruct (dict_get src (_all_fields h)); congruence. }
    assert (HmD : dict_mem dst F = true).
    { rewrite <- (inv_keys _ _ _ Hinv). unfold dict_mem.
      destruct (dict_get dst (_all_fields h)); congruence. }
    assert (Hdest : destinations F src [c] = [dst]).
    { simpl. now rewrite Hc, HmS, HmD, String.eqb_refl. }
    destruct (inv_copy_to _ _ _ Hinv' src) as (def & Hdef & Hcopy).
    { rewrite Hdest. destruct (destinations F src cs); discriminate. }
    rewrite Hdest in Hcopy.
    rewrite (map_copy_field_readable _ _ _ _ Hc) in *.
    destruct (dict_get src (_all_fields h)) as [src_def|]; [|congruence].
    destruct (dict_get dst (_all_fields h)) as [dst_def|]; [|congruence].
    destruct (dict_get src (_field_copy_to h)) as [dsts|]; simpl in *;
      rewrite dict_get_set_eq in Hdef; inversion Hdef; subst def;
      do 3 eexists; (split; [reflexivity|]); simpl;
      rewrite dict_get_set_eq; (split; [reflexivity|]);
      (split; [reflexivity|]); (split; [exact Hcopy|]);
      rewrite Hcopy;
      destruct (destinations F src cs) as [|d0 [|d1 ds']]; reflexivity.
Qed.

Lemma map_copy_field_spec_witness :
  exists r h',
    map_copy_field (Example.copy "title" "body")
      (run_copy_fields three_copies (CopyFieldHelper_init some_fields))
    = (Ok r, h') /\
    dict_get "copy_to" (cf_src_def r)
    = Some (PList [PStr "all"; PStr "id"; PStr "body"]).
Proof.
  destruct (map_copy_field_spec some_fields three_copies
              (Example.copy "title" "body") "title" "body" eq_refl)
    as [_ Hok].
  destruct Hok as (r & h' & ds & Hrun & Hds & _ & _ & Hcopy).
  - vm_compute. discriminate.
  - vm_compute. discriminate.
  - exists r, h'. split; [exact Hrun|].
    rewrite Hcopy, <- Hds. reflexivity.
Defined.

(** ** Name resolution *)

(** C5, on the code.  An explicit name is lower-cased, and a class of the
    form [solr.XFilterFactory] gives [x]; but for a class name with more
    than two segments the code takes the second segment, not the last
    one: the fully qualified [LowerCaseFilterFactory] resolves to
    [apache], and so does the fully qualified [StandardTokenizerFactory],
    while the report code of [_migrate_field_types] takes the last segment
    of the same definition. *)
Theorem get_filter_name_takes_second_segment :
  (forall d name, py_get "name" d = PStr name ->
     _get_filter_name (PDict d) = Ok (PyStr.lower name) /\
     _get_tokenizer_name (PDict d) = Ok (PyStr.lower name)) /\
  _get_filter_name lowercase_by_class = Ok "lowercase" /\
  _get_filter_name qualified_filter = Ok "apache" /\
  _get_tokenizer_name qualified_tokenizer = Ok "apache" /\
  report_name "TokenFilterFactory" qualified_filter = Ok "LowerCaseFilterFactory" /\
  report_name "TokenizerFactory" qualified_tokenizer = Ok "Standard".
Proof.
  split.
  - intros d name H. unfold _get_filter_name, _get_tokenizer_name. simpl.
    now rewrite H.
  - repeat split; reflexivity.
Qed.

(** ** Analyzers of fields and dynamic fields *)

(** C8, on the code.  With the analyzers [text_general_index] and
    [text_general_query] registered, a field of type [text_general] gets
    both of them, while a dynamic field of the same type gets the analyzer
    [text_general], which is not a registered name, and no search
    analyzer: [map_dynamic_field] looks for [text_generals_query]. *)
Theorem map_dynamic_field_misses_analyzers :
  let E := Example.env Example.strict in
  let w := after_field_types in
  dict_keys (index_analyzers w) = ["text_general_index"; "text_general_query"] /\
  map_field E (Example.field "title" "text_general") w
  = (Ok ("title", [("store", PBool true); ("type", PStr "text");
                   ("analyzer", PStr "text_general_index");
                   ("search_analyzer", PStr "text_general_query")]), w) /\
  map_dynamic_field E (Example.field "*_txt" "text_general") w
  = (Ok [("*_txt",
          PDict [("match", PStr "*_txt");
                 ("mapping", PDict [("type", PStr "text"); ("store", PBool true);
                                    ("analyzer", PStr "text_general")])])], w).
Proof. repeat split; vm_compute; reflexivity. Qed.

(** ** The repair of binary fields *)

Module BinaryFixFacts.
Import BinaryFix.

Lemma append_assoc (a b c : string) : (a ++ b) ++ c = a ++ b ++ c.
Proof. induction a; simpl; congruence. Qed.

Lemma append_nil_r (a : string) : a ++ EmptyString = a.
Proof. induction a; simpl; congruence. Qed.

Lemma length_append (a b : string) :
  String.length (a ++ b) = (String.length a + String.length b)%nat.
Proof. induction a; simpl; auto. Qed.

Lemma prefix_split (p : string) : forall s,
  String.prefix p s = true -> exists r, s = p ++ r.
Proof.
  induction p as [|a p IH]; intros s H.
  - exists s. reflexivity.
  - destruct s as [|b s]; simpl in H; [discriminate|].
    destruct (Ascii.ascii_dec a b) as [->|]; [|discriminate].
    destruct (IH s H) as [r ->]. exists r. reflexivity.
Qed.

Lemma prefix_append (p r : string) : String.prefix p (p ++ r) = true.
Proof.
  induction p as [|a p IH]; simpl.
  - destruct r; reflexivity.
  - destruct (Ascii.ascii_dec a a); congruence.
Qed.

Lemma drop_append (p r : string) : drop (String.length p) (p ++ r) = r.
Proof. induction p; simpl; auto. Qed.

(** Without a dot, the key matches where it is a prefix. *)
Lemma key_matches_prefix (key : string) : forall s,
  dotless key -> key_matches key s = String.prefix key s.
Proof.
  unfold dotless.
  induction key as [|a key IH]; intros s H; simpl in *.
  - destruct s; reflexivity.
  - apply andb_true_iff in H as [Ha Hk].
    destruct s as [|b s]; [reflexivity|].
    unfold key_char_matches. apply negb_true_iff in Ha. rewrite Ha.
    change (String.prefix (String a key) (String b s)) with
      (if Ascii.ascii_dec a b then String.prefix key s else false).
    destruct (Ascii.ascii_dec a b) as [Heq|Hne].
    + subst b. rewrite Ascii.eqb_refl. simpl. now apply IH.
    + apply Ascii.eqb_neq in Hne. now rewrite Hne.
Qed.

Lemma matches_at_prefix key s :
  dotless key ->
  matches_at key s
  = String.prefix key s &&
    match drop (String.length key) s with
    | String c _ => value_char c
    | EmptyString => false
    end.
Proof. intros H. unfold matches_at. now rewrite key_matches_prefix. Qed.

Lemma dotless_append (a b : string) :
  dotless a -> dotless b -> dotless (a ++ b).
Proof.
  unfold dotless. induction a as [|c a IH]; simpl; auto.
  intros Ha Hb. apply andb_true_iff in Ha as [Hc Ha].
  rewrite Hc. simpl. auto.
Qed.

Lemma regex_plain_dotless (field : string) :
  regex_plain field = true -> dotless field.
Proof.
  unfold regex_plain, dotless.
  induction field as [|c f IH]; simpl; auto.
  intros H. apply andb_true_iff in H as [Hc Hf].
  rewrite IH by assumption. rewrite andb_true_r.
  unfold regex_special in Hc. simpl in Hc.
  destruct (Ascii.eqb c "."); [discriminate Hc|reflexivity].
Qed.

Lemma key_of_dotless (field : string) :
  regex_plain field = true -> dotless (key_of field).
Proof.
  intros H. unfold key_of.
  apply dotless_append; [reflexivity|].
  apply dotless_append; [now apply regex_plain_dotless|reflexivity].
Qed.

(** A text splits into its longest leading run of value characters and
    the rest. *)
Lemma span_run (s : string) :
  exists v post, s = v ++ post /\ value_run v /\ run_ends post.
Proof.
  induction s as [|c s (v & post & -> & Hv & Hp)].
  - exists EmptyString, EmptyString. repeat split.
  - destruct (value_char c) eqn:Hc.
    + exists (String c v), post. repeat split; auto.
      unfold value_run in *. simpl. now rewrite Hc.
    + exists EmptyString, (String c (v ++ post)). repeat split. exact Hc.
Qed.

Lemma sub_go_skip key run (k : string) : forall r,
  sub_go key (String.length k) run (k ++ r) = sub_go key 0 run r.
Proof. induction k as [|a k IH]; intros r; simpl; auto. Qed.

Lemma sub_go_run key (v : string) : forall post,
  value_run v -> run_ends post ->
  sub_go key 0 true (v ++ post)
  = v ++ PyStr.dquote ++ sub_go key 0 false post.
Proof.
  induction v as [|c v IH]; intros post Hv Hp.
  - destruct post as [|c p]; simpl in *; [reflexivity|].
    now rewrite Hp.
  - unfold value_run in Hv. simpl in Hv.
    apply andb_true_iff in Hv as [Hc Hv].
    simpl. rewrite Hc. f_equal. now apply IH.
Qed.

Lemma matches_at_value key v post :
  dotless key -> v <> EmptyString -> value_run v ->
  matches_at key (key ++ v ++ post) = true.
Proof.
  intros Hd Hne Hv. rewrite matches_at_prefix by assumption.
  rewrite prefix_append, drop_append.
  destruct v as [|c v]; [congruence|].
  unfold value_run in Hv. simpl in *.
  now apply andb_true_iff in Hv as [-> _].
Qed.

(** A match at the head of the text is rewritten, and the pass goes on
    behind it. *)
Lemma sub_go_value key v post :
  dotless key ->
  key <> EmptyString -> v <> EmptyString -> value_run v -> run_ends post ->
  sub_go key 0 false (key ++ v ++ post)
  = key ++ PyStr.dquote ++ v ++ PyStr.dquote ++ sub_go key 0 false post.
Proof.
  intros Hd Hk Hne Hv Hp.
  pose proof (matches_at_value key v post Hd Hne Hv) as Hm.
  destruct key as [|a k]; [congruence|].
  change (String a k ++ v ++ post) with (String a (k ++ v ++ post)) in *.
  cbn [sub_go]. rewrite Hm.
  cbn [String.length Nat.sub]. rewrite Nat.sub_0_r.
  rewrite sub_go_skip, sub_go_run by auto.
  reflexivity.
Qed.

Lemma sub_go_copy key c s :
  matches_at key (String c s) = false ->
  sub_go key 0 false (String c s) = String c (sub_go key 0 false s).
Proof. intros H. cbn [sub_go]. now rewrite H. Qed.

Lemma sub_go_repaired key :
  dotless key -> key <> EmptyString ->
  forall n text, (String.length text <= n)%nat ->
                 repaired key text (sub_go key 0 false text).
Proof.
  intros Hd Hk. induction n as [|n IH]; intros text Hlen.
  - destruct text; simpl in Hlen; [constructor|lia].
  - destruct text as [|c s]; [constructor|].
    destruct (matches_at key (String c s)) eqn:Hm.
    + pose proof Hm as Hm'. rewrite matches_at_prefix in Hm' by assumption.
      apply andb_true_iff in Hm' as [Hpre Hval].
      destruct (prefix_split _ _ Hpre) as [rest Hrest].
      rewrite Hrest in *. rewrite drop_append in Hval.
      destruct (span_run rest) as (v & post & -> & Hv & Hp).
      assert (Hne : v <> EmptyString).
      { intros ->. simpl in Hval. destruct post; [discriminate|].
        simpl in Hp. congruence. }
      rewrite sub_go_value by auto.
      apply repaired_value; auto. apply IH.
      rewrite !length_append in Hlen.
      destruct key; [congruence|]. simpl in Hlen. lia.
    + rewrite sub_go_copy by auto.
      apply repaired_copy; auto. apply IH. simpl in Hlen. lia.
Qed.

Lemma key_of_nonempty field : key_of field <> EmptyString.
Proof. unfold key_of, PyStr.dquote. simpl. discriminate. Qed.

Lemma sub_repaired field text :
  regex_plain field = true ->
  repaired (key_of field) text (sub field text).
Proof.
  intros Hp. unfold sub.
  eapply sub_go_repaired;
    [now apply key_of_dotless|apply key_of_nonempty|reflexivity].
Qed.

Lemma sub_go_absent key : dotless key -> forall text,
  PyStr.contains key text = false -> sub_go key 0 false text = text.
Proof.
  intros Hd.
  induction text as [|c s IH]; intros H; [reflexivity|].
  simpl in H. apply orb_false_iff in H as [Hpre Hrest].
  rewrite sub_go_copy.
  - now rewrite IH.
  - rewrite matches_at_prefix by assumption.
    change (String.prefix key (String c s)) with
      (match key with
       | EmptyString => true
       | String a p => if Ascii.ascii_dec a c then String.prefix p s else false
       end) in Hpre |- *.
    now rewrite Hpre.
Qed.

End BinaryFixFacts.

Lemma fix_binary_fields_repaired fields : forall text,
  Forall (fun f => BinaryFix.regex_plain f = true) fields ->
  repaired_all fields text (_fix_binary_fields_in_json text fields).
Proof.
  induction fields as [|f fs IH]; intros text Hp.
  - constructor.
  - inversion Hp as [|? ? Hf Hfs]; subst.
    simpl. econstructor; [now apply BinaryFixFacts.sub_repaired|now apply IH].
Qed.

Lemma fix_binary_fields_absent fields : forall text,
  Forall (fun f => BinaryFix.regex_plain f = true) fields ->
  (forall f, In f fields -> PyStr.contains (BinaryFix.key_of f) text = false) ->
  _fix_binary_fields_in_json text fields = text.
Proof.
  induction fields as [|f fs IH]; intros text Hp H; [reflexivity|].
  inversion Hp as [|? ? Hf Hfs]; subst.
  simpl. unfold BinaryFix.sub.
  rewrite BinaryFixFacts.sub_go_absent;
    [|now apply BinaryFixFacts.key_of_dotless|apply H; now left].
  apply IH; [assumption|]. intros g Hg. apply H. now right.
Qed.

(** C9.  The pattern of the repair is built from the field name as it
    is, so a binary field named [a.b] is read as a regular expression in
    which the dot takes any character.  On a page that has no field
    [a.b] and a number under [aXb], the repair for [a.b] renames the
    field [aXb], which is not a binary field, to [a.b] and turns its
    number into a string: the page parses before and after, to different
    documents. *)
Theorem fix_binary_fields_reads_name_as_pattern :
  BinaryFix.regex_dotted "a.b" = true /\
  PyStr.contains (BinaryFix.key_of "a.b") dotted_page = false /\
  _fix_binary_fields_in_json dotted_page ["a.b"] = dotted_page_rewritten /\
  JsonReader.loads dotted_page
  = Some (PDict [("response",
                  PDict [("numFound", PInt 1);
                         ("docs", PList [PDict [("id", PStr "7");
                                                ("aXb", PInt 1)]])]);
                 ("nextCursorMark", PStr "AoE")]) /\
  JsonReader.loads (_fix_binary_fields_in_json dotted_page ["a.b"])
  = Some (PDict [("response",
                  PDict [("numFound", PInt 1);
                         ("docs", PList [PDict [("id", PStr "7");
                                                ("a.b", PStr "1")]])]);
                 ("nextCursorMark", PStr "AoE")]).
Proof.
  split; [reflexivity|].
  split; [vm_compute; reflexivity|].
  split; [vm_compute; reflexivity|].
  split; vm_compute; reflexivity.
Qed.

(** X28.  For binary field names without a character that has a meaning
    in regular expressions, the result of [_fix_binary_fields_in_json] is
    the text after one pass per field, and a pass quotes every unquoted
    value that follows the field's key and copies everything else; a text
    in which the key of no listed field occurs comes out unchanged.  The
    page with [thumb] unquoted is not accepted by the JSON reader; its
    repair is the page with [thumb] quoted, which the reader accepts,
    other fields untouched. *)
Theorem fix_binary_fields_quotes_values (fields : list string) (text : string) :
  Forall (fun f => BinaryFix.regex_plain f = true) fields ->
  repaired_all fields text (_fix_binary_fields_in_json text fields) /\
  ((forall f, In f fields -> PyStr.contains (BinaryFix.key_of f) text = false) ->
   _fix_binary_fields_in_json text fields = text) /\
  _fix_binary_fields_in_json thumb_page ["thumb"] = thumb_page_fixed /\
  JsonReader.loads thumb_page = None /\
  JsonReader.loads thumb_page_fixed
  = Some (PDict [("response",
                  PDict [("numFound", PInt 1);
                         ("docs", PList [PDict [("id", PStr "7");
                                                ("thumb", PStr "ABC123");
                                                ("title", PStr "a:b")]])]);
                 ("nextCursorMark", PStr "AoE")]).
Proof.
  intros Hplain. split; [now apply fix_binary_fields_repaired|].
  split; [now apply fix_binary_fields_absent|].
  repeat split; vm_compute; reflexivity.
Qed.

Lemma fix_binary_fields_quotes_values_witness :
  repaired_all ["thumb"] thumb_page thumb_page_fixed /\
  _fix_binary_fields_in_json thumb_page ["photo"] = thumb_page.
Proof.
  destruct (fix_binary_fields_quotes_values ["thumb"] thumb_page)
    as (Hrep & _ & Hfix & _).
  { repeat constructor. }
  destruct (fix_binary_fields_quotes_values ["photo"] thumb_page)
    as (_ & Hsame & _).
  { repeat constructor. }
  split.
  - rewrite <- Hfix. exact Hrep.
  - apply Hsame. intros f [<-|[]]. vm_compute. reflexivity.
Defined.

(** ** The export loop *)

Lemma send_request_eq X st :
  send_request X st = (next_response X st, requested st).
Proof. reflexivity. Qed.

Lemma export_pages_at_cap X fuel total bf st :
  ~ below_cap X total st ->
  export_pages X fuel total bf st = (st, true).
Proof.
  unfold below_cap. intros H.
  destruct fuel; simpl;
    destruct (exported_docs st <? Z.min total (max_rows (data_config X)))%Z eqn:Hlt;
    auto; apply Z.ltb_lt in Hlt; contradiction.
Qed.

Lemma export_pages_step X fuel total bf st :
  below_cap X total st ->
  export_pages X (S fuel) total bf st
  = match export_batch X bf st with
    | (st', true) => export_pages X fuel total bf st'
    | (st', false) => (st', true)
    end.
Proof.
  unfold below_cap. intros H. apply Z.ltb_lt in H.
  simpl. now rewrite H.
Qed.

Lemma export_batch_request_error X bf st e :
  next_response X st = Raise e ->
  export_batch X bf st = (batch_error e (requested st), false).
Proof.
  intros H. unfold export_batch. rewrite send_request_eq, H. reflexivity.
Qed.

Lemma export_batch_parsed X bf st batch :
  next_batch X bf st = Ok batch ->
  export_batch X bf st = store_batch X batch (requested st).
Proof.
  unfold next_batch, export_batch. rewrite send_request_eq.
  destruct (next_response X st) as [text|e]; simpl; [|discriminate].
  intros H. now rewrite H.
Qed.

Lemma store_batch_empty X batch st docs :
  batch_docs batch = Ok docs -> py_truthy docs = false ->
  store_batch X batch st = (st, false).
Proof.
  unfold batch_docs, store_batch. intros Hd Ht. now rewrite Hd, Ht.
Qed.

Lemma store_batch_full X st d docs next :
  batch_docs (PDict d) = Ok (PList docs) -> docs <> [] ->
  put_object X (s3_key X st) (PList docs) = Ok tt ->
  py_get "nextCursorMark" d = next ->
  store_batch X (PDict d) st =
  let st' :=
    mkExportState (exported_docs st + Z.of_nat (List.length docs)) (batch_count st)
      (cursor_mark st) (page_requests st)
      (s3_objects st ++ [(s3_key X st, PList docs)]) (export_report st) in
  if py_eq next (cursor_mark st) then (st', false)
  else (mkExportState (exported_docs st') (batch_count st') next
          (page_requests st') (s3_objects st') (export_report st'), true).
Proof.
  unfold batch_docs, store_batch. intros Hd Hne Hput Hnext.
  rewrite Hd. destruct docs as [|x xs]; [congruence|].
  cbn [py_truthy negb]. rewrite Hput. cbn [py_len s3_objects cursor_mark].
  rewrite Hnext. reflexivity.
Qed.

Lemma export_batch_full X bf st n next :
  full_page X bf st n next ->
  exists docs,
    export_batch X bf st =
    if py_eq next (cursor_mark st)
    then (mkExportState (exported_docs st + n) (S (batch_count st)) (cursor_mark st)
            (page_requests st ++ [cursor_mark st])
            (s3_objects st ++ [(s3_key X (requested st), docs)]) (export_report st),
          false)
    else (advanced X st docs n next, true).
Proof.
  intros (d & docs & Hb & Hd & Hne & Hn & Hput & Hnext).
  exists (PList docs).
  rewrite (export_batch_parsed _ _ _ _ Hb).
  rewrite (store_batch_full _ _ _ _ _ Hd Hne Hput Hnext).
  subst n. simpl. destruct (py_eq next (cursor_mark st)); reflexivity.
Qed.

(** With 1200 documents in the source, a cap of 1000 and two full pages
    of 500, the loop is left after the second page. *)
Lemma export_two_pages X bf r c1 c2 :
  max_rows (data_config X) = 1000%Z ->
  full_page X bf (ExportState_init r) 500 c1 ->
  py_eq c1 (PStr "*") = false ->
  (forall docs, full_page X bf (advanced X (ExportState_init r) docs 500 c1) 500 c2) ->
  forall fuel, (2 <= fuel)%nat ->
  exists st,
    export_pages X fuel 1200 bf (ExportState_init r) = (st, true) /\
    exported_docs st = 1000%Z /\
    page_requests st = [PStr "*"; c1] /\
    batch_count st = 2%nat /\
    List.length (s3_objects st) = 2%nat.
Proof.
  intros Hmax Hp1 Hc1 Hp2 fuel Hfuel.
  destruct fuel as [|[|fuel]]; try lia.
  destruct (export_batch_full _ _ _ _ _ Hp1) as [docs1 Hb1].
  cbn [cursor_mark ExportState_init] in Hb1. rewrite Hc1 in Hb1.
  destruct (export_batch_full _ _ _ _ _ (Hp2 docs1)) as [docs2 Hb2].
  rewrite export_pages_step by (unfold below_cap; rewrite Hmax; simpl; lia).
  rewrite Hb1.
  rewrite export_pages_step by (unfold below_cap; rewrite Hmax; simpl; lia).
  rewrite Hb2.
  destruct (py_eq c2 (cursor_mark (advanced X (ExportState_init r) docs1 500 c1))).
  - eexists. split; [reflexivity|]. simpl. repeat split; reflexivity.
  - rewrite export_pages_at_cap by (unfold below_cap; rewrite Hmax; simpl; lia).
    eexists. split; [reflexivity|]. simpl. repeat split; reflexivity.
Qed.

(** C7.  The loop issues no page query once the count of exported
    documents has reached the smaller of the source's total and the row
    cap.  Below that, it issues the next query and is left right after
    it, with no further query, when the query fails, when the page has no
    documents, and when a stored page carries the cursor it was asked
    with.  With a total of 1200, a cap of 1000 and pages of 500
    documents, two queries are issued, 1000 documents are exported, and
    there is no third query whatever number of iterations is allowed. *)
Theorem export_pagination_stops (X : ExportEnv) (bf : list string) (total : Z)
    (st : ExportState) (fuel : nat) :
  (~ below_cap X total st -> export_pages X fuel total bf st = (st, true)) /\
  (below_cap X total st ->
   (forall e, next_response X st = Raise e ->
      export_pages X (S fuel) total bf st = (batch_error e (requested st), true)) /\
   (forall batch docs,
      next_batch X bf st = Ok batch -> batch_docs batch = Ok docs ->
      py_truthy docs = false ->
      export_pages X (S fuel) total bf st = (requested st, true)) /\
   (forall n next,
      full_page X bf st n next -> py_eq next (cursor_mark st) = true ->
      exists st',
        export_pages X (S fuel) total bf st = (st', true) /\
        exported_docs st' = (exported_docs st + n)%Z /\
        page_requests st' = (page_requests st ++ [cursor_mark st])%list)) /\
  (forall r c1 c2,
     rows_per_page (data_config X) = 500%Z ->
     max_rows (data_config X) = 1000%Z ->
     full_page X bf (ExportState_init r) 500 c1 ->
     py_eq c1 (PStr "*") = false ->
     (forall docs,
        full_page X bf (advanced X (ExportState_init r) docs 500 c1) 500 c2) ->
     (2 <= fuel)%nat ->
     exists st',
       export_pages X fuel 1200 bf (ExportState_init r) = (st', true) /\
       exported_docs st' = 1000%Z /\
       page_requests st' = [PStr "*"; c1] /\
       batch_count st' = 2%nat /\
       List.length (s3_objects st') = 2%nat).
Proof.
  split; [apply export_pages_at_cap|]. split.
  - intros Hcap. repeat split.
    + intros e He. rewrite export_pages_step by auto.
      now rewrite (export_batch_request_error _ _ _ _ He).
    + intros batch docs Hb Hd Ht. rewrite export_pages_step by auto.
      rewrite (export_batch_parsed _ _ _ _ Hb).
      now rewrite (store_batch_empty _ _ _ _ Hd Ht).
    + intros n next Hp Heq. rewrite export_pages_step by auto.
      destruct (export_batch_full _ _ _ _ _ Hp) as [docs Hb].
      rewrite Hb, Heq. eexists. split; [reflexivity|]. split; reflexivity.
  - intros r c1 c2 _ Hmax Hp1 Hc1 Hp2 Hfuel.
    now apply export_two_pages with (c2 := c2).
Qed.

Lemma export_pagination_stops_witness :
  exists st,
    export_pages Paging.env 7 1200 [] (ExportState_init Report_init) = (st, true) /\
    exported_docs st = 1000%Z /\
    page_requests st = [PStr "*"; PStr "c1"] /\
    batch_count st = 2%nat /\
    List.length (s3_objects st) = 2%nat.
Proof.
  destruct (export_pagination_stops Paging.env [] 1200
              (ExportState_init Report_init) 7) as (_ & _ & H).
  apply (H Report_init (PStr "c1") (PStr "c2")).
  - reflexivity.
  - reflexivity.
  - do 2 eexists. split; [vm_compute; reflexivity|].
    split; [vm_compute; reflexivity|].
    split; [discriminate|]. repeat split.
  - reflexivity.
  - intros docs. do 2 eexists. split; [vm_compute; reflexivity|].
    split; [vm_compute; reflexivity|].
    split; [discriminate|]. repeat split.
  - lia.
Defined.

(** ** What the mappers leave alone *)

Section Frames.
Context {A B : Type}.

Lemma keeps_report_ret (a : A) : keeps_report (ret a).
Proof. intros w. reflexivity. Qed.

Lemma keeps_report_raise (e : exn) : keeps_report (@raise A e).
Proof. intros w. reflexivity. Qed.

Lemma keeps_report_lift (r : res A) : keeps_report (lift r).
Proof. intros w. reflexivity. Qed.

Lemma keeps_report_gets (f : World -> A) : keeps_report (gets f).
Proof. intros w. reflexivity. Qed.

Lemma keeps_report_modify (f : World -> World) :
  (forall w, _report (f w) = _report w) -> keeps_report (modify f).
Proof. intros H w. apply H. Qed.

Lemma keeps_report_bind (m : M A) (f : A -> M B) :
  keeps_report m -> (forall a, keeps_report (f a)) -> keeps_report (bind m f).
Proof.
  intros Hm Hf w. unfold bind. specialize (Hm w).
  destruct (m w) as [[a|e] w1]; simpl in *; [|assumption].
  now rewrite Hf.
Qed.

Lemma keeps_report_try (m : M A) (h : exn -> option (M A)) :
  keeps_report m ->
  (forall e, match h e with Some k => keeps_report k | None => True end) ->
  keeps_report (try_except m h).
Proof.
  intros Hm Hh w. unfold try_except. specialize (Hm w).
  destruct (m w) as [[a|e] w1]; simpl in *; [assumption|].
  specialize (Hh e). destruct (h e) as [k|]; [|assumption].
  now rewrite Hh.
Qed.

Lemma keeps_counts_of_report (m : M A) : keeps_report m -> keeps_counts m.
Proof. intros H w. now rewrite H. Qed.

Lemma keeps_counts_ret (a : A) : keeps_counts (ret a).
Proof. intros w. reflexivity. Qed.

Lemma keeps_counts_bind (m : M A) (f : A -> M B) :
  keeps_counts m -> (forall a, keeps_counts (f a)) -> keeps_counts (bind m f).
Proof.
  intros Hm Hf w. unfold bind. specialize (Hm w).
  destruct (m w) as [[a|e] w1]; simpl in *; [|assumption].
  now rewrite Hf.
Qed.
End Frames.

Lemma keeps_report_map_each {A B} (f : A -> M B) (xs : list A) :
  (forall x, keeps_report (f x)) -> keeps_report (map_each f xs).
Proof.
  intros Hf. induction xs as [|x xs IH]; simpl.
  - apply keeps_report_ret.
  - apply keeps_report_bind; [apply Hf|intros y].
    apply keeps_report_bind; [apply IH|intros ys]. apply keeps_report_ret.
Qed.

Lemma keeps_report_for_each {A} (f : A -> M unit) (xs : list A) :
  (forall x, keeps_report (f x)) -> keeps_report (for_each f xs).
Proof.
  intros Hf. induction xs as [|x xs IH]; simpl.
  - apply keeps_report_ret.
  - apply keeps_report_bind; [apply Hf|intros _; apply IH].
Qed.

Lemma keeps_counts_for_each {A} (f : A -> M unit) (xs : list A) :
  (forall x, keeps_counts (f x)) -> keeps_counts (for_each f xs).
Proof.
  intros Hf. induction xs as [|x xs IH]; simpl.
  - apply keeps_counts_ret.
  - apply keeps_counts_bind; [apply Hf|intros _; apply IH].
Qed.

(** Takes a call apart along its binds, handlers and case distinctions. *)
Create HintDb frames.

Ltac frame_step :=
  first
    [ solve [trivial with frames nocore]
    | apply keeps_report_ret
    | apply keeps_report_raise
    | apply keeps_report_lift
    | apply keeps_report_gets
    | apply keeps_report_modify; intros; reflexivity
    | apply keeps_report_bind; [|intros]
    | apply keeps_report_try; [|let e := fresh "e" in intros e; destruct e; simpl; auto]
    | apply keeps_report_map_each; intros
    | apply keeps_report_for_each; intros
    | assumption
    | match goal with
      | |- keeps_report (match ?x with _ => _ end) => destruct x
      | |- keeps_report (let '(_, _) := ?x in _) => destruct x
      end ].
Ltac frame := repeat frame_step.

Section MapperFrames.
Variable E : Env.

Lemma keeps_report_map_tokenizer t : keeps_report (map_tokenizer E t).
Proof. unfold map_tokenizer. frame. Qed.
#[local] Hint Resolve keeps_report_map_tokenizer : frames.

Lemma keeps_report_handle_packages n f : keeps_report (_handle_packages E n f).
Proof. unfold _handle_packages, _create_package_file. frame. Qed.
#[local] Hint Resolve keeps_report_handle_packages : frames.

Lemma keeps_report_process_mapping_key p r f n :
  keeps_report (process_mapping_key E p r f n).
Proof. unfold process_mapping_key. frame. Qed.
#[local] Hint Resolve keeps_report_process_mapping_key : frames.

Lemma keeps_report_process_keys p attrs f n : forall d,
  keeps_report (process_keys (process_mapping_key E p) attrs f n d).
Proof.
  induction attrs as [|[k r] attrs IH]; intros d; simpl.
  - apply keeps_report_ret.
  - apply keeps_report_bind; [apply keeps_report_process_mapping_key|].
    intros v. apply IH.
Qed.
#[local] Hint Resolve keeps_report_process_keys : frames.

Lemma keeps_report_map_filter f : keeps_report (_map_filter E f).
Proof.
  unfold _map_filter, _process_filter_mapping_key. frame.
Qed.
#[local] Hint Resolve keeps_report_map_filter : frames.

Lemma keeps_report_map_char_filter f : keeps_report (_map_char_filter E f).
Proof.
  unfold _map_char_filter, _process_char_filter_mapping_key. frame.
Qed.
#[local] Hint Resolve keeps_report_map_char_filter : frames.

Lemma keeps_report_map_filters fs : keeps_report (map_filters E fs).
Proof. unfold map_filters. frame. Qed.
#[local] Hint Resolve keeps_report_map_filters : frames.

Lemma keeps_report_map_char_filters fs : keeps_report (map_char_filters E fs).
Proof. unfold map_char_filters. frame. Qed.
#[local] Hint Resolve keeps_report_map_char_filters : frames.

Lemma keeps_report_map_analyzer_one n a : keeps_report (_map_analyzer E n a).
Proof.
  unfold _map_analyzer. frame.
Qed.
#[local] Hint Resolve keeps_report_map_analyzer_one : frames.

Lemma keeps_report_map_analyzer ft : keeps_report (map_analyzer E ft).
Proof. unfold map_analyzer. frame. Qed.
#[local] Hint Resolve keeps_report_map_analyzer : frames.

Lemma keeps_report_map_field_type_analyzer ft :
  keeps_report (map_field_type_analyzer E ft).
Proof.
  unfold map_field_type_analyzer. frame.
Qed.

Lemma keeps_report_map_field f : keeps_report (map_field E f).
Proof. unfold map_field. frame. Qed.

Lemma keeps_report_map_dynamic_field f : keeps_report (map_dynamic_field E f).
Proof. unfold map_dynamic_field. frame. Qed.

End MapperFrames.

Lemma keeps_report_add_analyzer a : keeps_report (add_analyzer a).
Proof. unfold add_analyzer. frame. Qed.

Lemma keeps_report_add_field n f : keeps_report (add_field n f).
Proof. unfold add_field. frame. Qed.

Lemma keeps_report_add_dynamic_field f : keeps_report (add_dynamic_field f).
Proof. unfold add_dynamic_field. frame. Qed.

(** ** Running a call *)

Lemma keeps_report_run {A} (m : M A) w r w1 :
  keeps_report m -> m w = (r, w1) -> _report w1 = _report w.
Proof. intros H Hrun. specialize (H w). now rewrite Hrun in H. Qed.

Lemma keeps_counts_run {A} (m : M A) w r w1 :
  keeps_counts m -> m w = (r, w1) -> counts (_report w1) = counts (_report w).
Proof. intros H Hrun. specialize (H w). now rewrite Hrun in H. Qed.

Lemma bind_ok {A B} (m : M A) (f : A -> M B) w b w' :
  bind m f w = (Ok b, w') ->
  exists a w1, m w = (Ok a, w1) /\ f a w1 = (Ok b, w').
Proof.
  unfold bind. destruct (m w) as [[a|e] w1]; [eauto|discriminate].
Qed.

Lemma for_each_add_analyzer l : forall w,
  exists w1, for_each add_analyzer l w = (Ok tt, w1) /\ _report w1 = _report w.
Proof.
  induction l as [|a l IH]; intros w; simpl.
  - exists w. split; reflexivity.
  - unfold bind, add_analyzer, modify.
    destruct (IH (set_index_analyzers (dict_set (a_name a) a) w)) as (w1 & H1 & H2).
    exists w1. split; auto.
Qed.

(** The report entries of a failure are written without an exception
    and touch no counter. *)
Lemma track_failure_runs a w :
  exists w1, track_failure a w = (Ok tt, w1) /\
             counts (_report w1) = counts (_report w).
Proof.
  unfold track_failure.
  destruct a as [[]|]; try (eexists; split; reflexivity).
  destruct filter_exception, tokenizer_exception, char_filter_exception;
    eexists; split; reflexivity.
Qed.

Lemma keeps_counts_report_detail (f : Report -> Report) :
  (forall r, counts (f r) = counts r) -> keeps_counts (report f).
Proof. intros H w. apply H. Qed.

Lemma keeps_counts_lift {A} (r : res A) : keeps_counts (lift r).
Proof. intros w. reflexivity. Qed.

Ltac count_step :=
  first
    [ apply keeps_counts_ret
    | apply keeps_counts_lift
    | apply keeps_counts_report_detail; intros; reflexivity
    | apply keeps_counts_bind; [|intros]
    | apply keeps_counts_for_each; intros
    | match goal with
      | |- keeps_counts (if ?x then _ else _) => destruct x
      | |- keeps_counts (match ?x with _ => _ end) => destruct x
      end ].

Lemma keeps_counts_track_analyzer a : keeps_counts (track_analyzer a).
Proof. unfold track_analyzer. repeat count_step. Qed.

Lemma keeps_counts_track_success ft : keeps_counts (track_success ft).
Proof.
  unfold track_success. apply keeps_counts_for_each. intros x.
  destruct (py_truthy (py_get x ft));
    [apply keeps_counts_track_analyzer|apply keeps_counts_ret].
Qed.

Lemma raises_py_only_ret {A} (a : A) : raises_py_only (ret a).
Proof. intros w e w1 H. discriminate H. Qed.

Lemma raises_py_only_report f : raises_py_only (report f).
Proof. intros w e w1 H. discriminate H. Qed.

Lemma raises_py_only_lift {A} (r : res A) : res_py_only r -> raises_py_only (lift r).
Proof.
  intros Hr w e w1 H. unfold lift in H. inversion H; subst. exact Hr.
Qed.

Lemma raises_py_only_bind {A B} (m : M A) (f : A -> M B) :
  raises_py_only m -> (forall a, raises_py_only (f a)) -> raises_py_only (bind m f).
Proof.
  intros Hm Hf w e w1. unfold bind.
  destruct (m w) as [[a|e'] w2] eqn:Hrun.
  - apply Hf.
  - intros H. inversion H; subst. eapply Hm, Hrun.
Qed.

Lemma raises_py_only_for_each {A} (f : A -> M unit) (xs : list A) :
  (forall x, raises_py_only (f x)) -> raises_py_only (for_each f xs).
Proof.
  intros Hf. induction xs as [|x xs IH]; simpl.
  - apply raises_py_only_ret.
  - apply raises_py_only_bind; [apply Hf|intros _; apply IH].
Qed.

Lemma res_py_only_as_dict v : res_py_only (as_dict v).
Proof. destruct v; exact I. Qed.

Lemma res_py_only_py_iter v : res_py_only (py_iter v).
Proof. destruct v; exact I. Qed.

Lemma res_py_only_report_name suffix cfg : res_py_only (report_name suffix cfg).
Proof.
  unfold report_name. destruct cfg; try exact I. simpl.
  destruct (py_truthy (py_get "name" d)).
  - destruct (py_get "name" d); exact I.
  - destruct (dict_get "class" d) as [[]|]; exact I.
Qed.

Ltac py_only_step :=
  first
    [ apply raises_py_only_ret
    | apply raises_py_only_report
    | apply raises_py_only_lift;
      first [ apply res_py_only_as_dict | apply res_py_only_py_iter
            | apply res_py_only_report_name ]
    | apply raises_py_only_bind; [|intros]
    | apply raises_py_only_for_each; intros
    | match goal with
      | |- raises_py_only (if ?x then _ else _) => destruct x
      end ].

Lemma raises_py_only_track_analyzer a : raises_py_only (track_analyzer a).
Proof. unfold track_analyzer. repeat py_only_step. Qed.

Lemma raises_py_only_track_success ft : raises_py_only (track_success ft).
Proof.
  unfold track_success. apply raises_py_only_for_each. intros x.
  destruct (py_truthy (py_get x ft));
    [apply raises_py_only_track_analyzer|apply raises_py_only_ret].
Qed.

(** Reads the counters and lists off an equation between [counts]. *)
Ltac read_counts H :=
  unfold counts in H; simpl in H;
  injection H as ? ? ? ? ? ? ? ? ? ? ? ? ? ? ? ?.

(** ** One iteration of each loop *)

Section Iterations.
Variable E : Env.

Let lenient := map_fields_on_analyzer_failure (migration_config E).

Lemma map_field_type_analyzer_dict ft w n m a w1 :
  map_field_type_analyzer E ft w = (Raise (FieldTypeMappingException n m a), w1) ->
  exists d, ft = PDict d.
Proof.
  destruct ft; try (unfold map_field_type_analyzer, bind, lift; simpl; discriminate).
  eauto.
Qed.

(** A field type whose mapping raises [FieldTypeMappingException]. *)
Lemma migrate_field_type_failure ft w n m a w1 :
  map_field_type_analyzer E ft (set_report (upd_field_types_solr S) w)
  = (Raise (FieldTypeMappingException n m a), w1) ->
  exists w2,
    migrate_field_type E ft w = (Ok tt, w2) /\
    counts (_report w2)
    = counts (upd_field_type_exception_list
                (fun l => (l ++ [FieldTypeMappingException n m a])%list)
                ((if lenient then upd_field_types_os S else upd_field_types_error S)
                   (upd_field_types_solr S (_report w)))).
Proof.
  intros Hm.
  destruct (map_field_type_analyzer_dict _ _ _ _ _ _ Hm) as [d ->].
  pose proof (keeps_report_run _ _ _ _
                (keeps_report_map_field_type_analyzer E (PDict d)) Hm) as Hr.
  unfold migrate_field_type, report, bind, modify, lift, try_except. simpl.
  rewrite Hm. simpl.
  match goal with
  | |- context [track_failure a ?w0] =>
      destruct (track_failure_runs a w0) as (w2 & Hrun & Hc)
  end.
  exists w2. split.
  - unfold report, modify in Hrun. exact Hrun.
  - rewrite Hc. simpl. rewrite Hr. reflexivity.
Qed.

(** A completed iteration on a field type is a success or a recorded
    failure. *)
Lemma migrate_field_type_counts ft w w' :
  migrate_field_type E ft w = (Ok tt, w') ->
  counts (_report w')
  = counts (upd_field_types_os S (upd_field_types_solr S (_report w))) \/
  exists e,
    counts (_report w')
    = counts (upd_field_type_exception_list (fun l => (l ++ [e])%list)
                ((if lenient then upd_field_types_os S else upd_field_types_error S)
                   (upd_field_types_solr S (_report w)))).
Proof.
  intros H.
  destruct (map_field_type_analyzer E ft (set_report (upd_field_types_solr S) w))
    as [[analyzers|e] w1] eqn:Hm.
  - left.
    pose proof (keeps_report_run _ _ _ _
                  (keeps_report_map_field_type_analyzer E ft) Hm) as Hr.
    unfold migrate_field_type, report, bind, modify, lift, try_except in H.
    destruct (as_dict ft) as [d|e]; [|discriminate H].
    rewrite Hm in H.
    destruct (for_each_add_analyzer analyzers w1) as (w2 & Hadd & Hr2).
    rewrite Hadd in H.
    match type of H with
    | context [track_success d ?w0] =>
        destruct (track_success d w0) as [[[]|e] w3] eqn:Ht;
        [|pose proof (raises_py_only_track_success d _ _ _ Ht) as Hpy;
          destruct e; try contradiction; simpl in H; discriminate H];
        pose proof (keeps_counts_run _ _ _ _ (keeps_counts_track_success d) Ht) as Hc
    end.
    inversion H; subst. rewrite Hc. simpl. now rewrite Hr2, Hr.
  - right. destruct e;
      try (unfold migrate_field_type, report, bind, modify, lift, try_except in H;
           destruct (as_dict ft); [rewrite Hm in H|]; discriminate H).
    destruct (migrate_field_type_failure _ _ _ _ _ _ Hm) as (w2 & Hrun & Hc).
    rewrite Hrun in H. inversion H; subst. eauto.
Qed.

Lemma migrate_field_failure sf w n m t w1 :
  map_field E sf (set_report (upd_field_solr S) w)
  = (Raise (FieldMappingException n m t), w1) ->
  exists w2,
    migrate_field E sf w = (Ok tt, w2) /\
    _report w2
    = upd_field_error S
        (upd_field_exception_list
           (fun l => (l ++ [FieldMappingException n m t])%list)
           (upd_field_solr S (_report w))).
Proof.
  intros Hm.
  pose proof (keeps_report_run _ _ _ _ (keeps_report_map_field E sf) Hm) as Hr.
  unfold migrate_field, report, bind, modify, try_except. rewrite Hm. simpl.
  eexists. split; [reflexivity|]. simpl. now rewrite Hr.
Qed.

Lemma migrate_field_counts sf w w' :
  migrate_field E sf w = (Ok tt, w') ->
  _report w' = upd_field_os S (upd_field_solr S (_report w)) \/
  exists e,
    _report w'
    = upd_field_error S
        (upd_field_exception_list (fun l => (l ++ [e])%list)
           (upd_field_solr S (_report w))).
Proof.
  intros H.
  destruct (map_field E sf (set_report (upd_field_solr S) w))
    as [[nf|e] w1] eqn:Hm.
  - left.
    pose proof (keeps_report_run _ _ _ _ (keeps_report_map_field E sf) Hm) as Hr.
    unfold migrate_field, report, bind, modify, try_except, add_field in H.
    rewrite Hm in H. inversion H; subst. simpl. now rewrite Hr.
  - right. destruct e;
      try (unfold migrate_field, report, bind, modify, try_except in H;
           rewrite Hm in H; discriminate H).
    destruct (migrate_field_failure _ _ _ _ _ _ Hm) as (w2 & Hrun & Hc).
    rewrite Hrun in H. inversion H; subst. eauto.
Qed.

Lemma migrate_dynamic_field_failure sf w e w1 :
  map_dynamic_field E sf (set_report (upd_dynamic_field_solr S) w) = (Raise e, w1) ->
  exists w2,
    migrate_dynamic_field E sf w = (Ok tt, w2) /\
    _report w2
    = upd_dynamic_field_error S
        (upd_dynamic_field_exception_list (fun l => (l ++ [e])%list)
           (upd_dynamic_field_solr S (_report w))).
Proof.
  intros Hm.
  pose proof (keeps_report_run _ _ _ _ (keeps_report_map_dynamic_field E sf) Hm) as Hr.
  unfold migrate_dynamic_field, report, bind, modify, try_except. rewrite Hm. simpl.
  eexists. split; [reflexivity|]. simpl. now rewrite Hr.
Qed.

(** An iteration on a dynamic field always completes. *)
Lemma migrate_dynamic_field_counts sf w :
  exists w',
    migrate_dynamic_field E sf w = (Ok tt, w') /\
    (_report w' = upd_dynamic_field_os S (upd_dynamic_field_solr S (_report w)) \/
     exists e,
       _report w'
       = upd_dynamic_field_error S
           (upd_dynamic_field_exception_list (fun l => (l ++ [e])%list)
              (upd_dynamic_field_solr S (_report w)))).
Proof.
  destruct (map_dynamic_field E sf (set_report (upd_dynamic_field_solr S) w))
    as [[df|e] w1] eqn:Hm.
  - pose proof (keeps_report_run _ _ _ _ (keeps_report_map_dynamic_field E sf) Hm) as Hr.
    unfold migrate_dynamic_field, report, bind, modify, try_except, add_dynamic_field.
    rewrite Hm. eexists. split; [reflexivity|]. left. simpl. now rewrite Hr.
  - destruct (migrate_dynamic_field_failure _ _ _ _ Hm) as (w2 & Hrun & Hc).
    exists w2. split; eauto.
Qed.

End Iterations.

(** ** The accounting of the report *)

Lemma accounted_counts lenient r r' :
  counts r' = counts r -> accounted lenient r -> accounted lenient r'.
Proof.
  intros H. unfold counts in H.
  injection H as H1 H2 H3 H4 H5 H6 H7 H8 H9 H10 H11 H12 H13 H14 H15 H16.
  unfold accounted.
  rewrite H1, H2, H3, H4, H5, H6, H7, H8, H9, H10, H11, H12, H13, H14, H15, H16.
  auto.
Qed.

Ltac account :=
  unfold accounted; simpl; rewrite ?length_app; simpl;
  intuition (try discriminate; lia).

Section Loops.
Variable E : Env.

Let lenient := map_fields_on_analyzer_failure (migration_config E).

Lemma for_each_cons {A} (body : A -> M unit) x xs w w1 :
  body x w = (Ok tt, w1) ->
  for_each body (x :: xs) w = for_each body xs w1.
Proof. intros H. simpl. unfold bind. now rewrite H. Qed.

Lemma for_each_cons_ok {A} (body : A -> M unit) x xs w w' :
  for_each body (x :: xs) w = (Ok tt, w') ->
  exists w1, body x w = (Ok tt, w1) /\ for_each body xs w1 = (Ok tt, w').
Proof.
  simpl. intros H. apply bind_ok in H as ([] & w1 & H1 & H2). eauto.
Qed.

Lemma migrate_field_type_accounted ft w w' :
  migrate_field_type E ft w = (Ok tt, w') ->
  accounted lenient (_report w) ->
  accounted lenient (_report w') /\
  field_types_solr (_report w') = S (field_types_solr (_report w)) /\
  (lenient = true -> field_types_error (_report w') = field_types_error (_report w)).
Proof.
  intros Hrun Hacc.
  destruct (migrate_field_type_counts E _ _ _ Hrun) as [Hc|[e Hc]];
    fold lenient in Hc.
  - split; [eapply accounted_counts; [exact Hc|]; revert Hacc; account|].
    read_counts Hc. split; [assumption|]. intros _. assumption.
  - split; [eapply accounted_counts; [exact Hc|];
            revert Hacc; destruct lenient; account|].
    read_counts Hc. destruct lenient; simpl in *; split; try assumption;
      intros; try discriminate; assumption.
Qed.

Lemma migrate_field_types_accounted items : forall w w',
  migrate_field_types E items w = (Ok tt, w') ->
  accounted lenient (_report w) ->
  accounted lenient (_report w') /\
  field_types_solr (_report w')
  = (field_types_solr (_report w) + List.length items)%nat /\
  (lenient = true -> field_types_error (_report w') = field_types_error (_report w)).
Proof.
  unfold migrate_field_types.
  induction items as [|ft items IH]; intros w w' Hrun Hacc.
  - inversion Hrun; subst. simpl. split; [assumption|]. split; [lia|auto].
  - apply for_each_cons_ok in Hrun as (w1 & H1 & H2).
    destruct (migrate_field_type_accounted _ _ _ H1 Hacc) as (Hacc1 & Hn1 & He1).
    destruct (IH _ _ H2 Hacc1) as (Hacc' & Hn' & He').
    split; [assumption|]. split.
    + rewrite Hn', Hn1. simpl. lia.
    + intros Hl. rewrite He', He1; auto.
Qed.

Lemma migrate_field_accounted sf w w' :
  migrate_field E sf w = (Ok tt, w') ->
  accounted lenient (_report w) ->
  accounted lenient (_report w') /\
  field_solr (_report w') = S (field_solr (_report w)).
Proof.
  intros Hrun Hacc.
  destruct (migrate_field_counts E _ _ _ Hrun) as [Hc|[e Hc]]; rewrite Hc;
    (split; [revert Hacc; account|reflexivity]).
Qed.

Lemma migrate_fields_accounted items : forall w w',
  migrate_fields E items w = (Ok tt, w') ->
  accounted lenient (_report w) ->
  accounted lenient (_report w') /\
  field_solr (_report w') = (field_solr (_report w) + List.length items)%nat.
Proof.
  unfold migrate_fields.
  induction items as [|sf items IH]; intros w w' Hrun Hacc.
  - inversion Hrun; subst. simpl. split; [assumption|lia].
  - apply for_each_cons_ok in Hrun as (w1 & H1 & H2).
    destruct (migrate_field_accounted _ _ _ H1 Hacc) as (Hacc1 & Hn1).
    destruct (IH _ _ H2 Hacc1) as (Hacc' & Hn').
    split; [assumption|]. rewrite Hn', Hn1. simpl. lia.
Qed.

Lemma migrate_dynamic_fields_accounted items : forall w,
  accounted lenient (_report w) ->
  exists w',
    migrate_dynamic_fields E items w = (Ok tt, w') /\
    accounted lenient (_report w') /\
    dynamic_field_solr (_report w')
    = (dynamic_field_solr (_report w) + List.length items)%nat.
Proof.
  unfold migrate_dynamic_fields.
  induction items as [|sf items IH]; intros w Hacc.
  - exists w. simpl. split; [reflexivity|]. split; [assumption|lia].
  - destruct (migrate_dynamic_field_counts E sf w) as (w1 & H1 & Hc).
    assert (Hacc1 : accounted lenient (_report w1) /\
                    dynamic_field_solr (_report w1)
                    = S (dynamic_field_solr (_report w))).
    { destruct Hc as [Hc|[e Hc]]; rewrite Hc;
        (split; [revert Hacc; account|reflexivity]). }
    destruct Hacc1 as [Hacc1 Hn1].
    destruct (IH w1 Hacc1) as (w' & H2 & Hacc' & Hn').
    exists w'. rewrite (for_each_cons _ _ _ _ _ H1).
    split; [assumption|]. split; [assumption|]. rewrite Hn', Hn1. simpl. lia.
Qed.

Lemma migrate_copy_fields_accounted items : forall h w,
  accounted lenient (_report w) ->
  exists w',
    migrate_copy_fields items h w = (Ok tt, w') /\
    accounted lenient (_report w') /\
    copy_field_solr (_report w')
    = (copy_field_solr (_report w) + List.length items)%nat.
Proof.
  induction items as [|c items IH]; intros h w Hacc.
  - exists w. simpl. split; [reflexivity|]. split; [assumption|lia].
  - simpl. unfold bind, report, modify, add_field.
    destruct (map_copy_field c h) as [[r|e] h1]; unfold modify; cbv beta iota.
    + match goal with
      | |- context [migrate_copy_fields items h1 ?w0] =>
          destruct (IH h1 w0) as (w' & H2 & Hacc' & Hn')
      end.
      { revert Hacc. account. }
      exists w'. split; [assumption|]. split; [assumption|].
      rewrite Hn'. simpl. lia.
    + match goal with
      | |- context [migrate_copy_fields items h1 ?w0] =>
          destruct (IH h1 w0) as (w' & H2 & Hacc' & Hn')
      end.
      { revert Hacc. account. }
      exists w'. split; [assumption|]. split; [assumption|].
      rewrite Hn'. simpl. lia.
Qed.

End Loops.

Lemma accounted_init lenient : accounted lenient Report_init.
Proof. unfold accounted. simpl. intuition. Qed.

(** C10.  Let the report be accounted for: in each category the
    attempted counter is the sum of the succeeded and the error counter,
    and the exceptions recorded are as many as the errors counted (for
    field types this second part is asked only when
    [map_fields_on_analyzer_failure] is off).  Then it is accounted for
    after any number of iterations of each of the four loops (the loops
    are run on an arbitrary list of items, so on every prefix of the
    schema's list), and after the four loops in a row.  With the switch on,
    the loop over the field types leaves the error counter alone: a failed
    field type goes to the succeeded counter and the sum is kept.  The
    loops over the field types and the fields are taken when they return;
    the other two always do. *)
Theorem report_accounting (E : Env) (w : World) :
  let lenient := map_fields_on_analyzer_failure (migration_config E) in
  accounted lenient (_report w) ->
  (forall items w',
     migrate_field_types E items w = (Ok tt, w') ->
     accounted lenient (_report w') /\
     (lenient = true ->
      field_types_error (_report w') = field_types_error (_report w))) /\
  (forall items w',
     migrate_fields E items w = (Ok tt, w') -> accounted lenient (_report w')) /\
  (forall items,
     exists w', migrate_dynamic_fields E items w = (Ok tt, w') /\
                accounted lenient (_report w')) /\
  (forall items h,
     exists w', migrate_copy_fields items h w = (Ok tt, w') /\
                accounted lenient (_report w')) /\
  (forall w', migrate_schema E w = (Ok tt, w') -> accounted lenient (_report w')).
Proof.
  intros lenient Hacc.
  split; [|split; [|split; [|split]]].
  - intros items w' H.
    destruct (migrate_field_types_accounted E items w w' H Hacc) as (Ha & _ & He).
    split; assumption.
  - intros items w' H. eapply migrate_fields_accounted; eauto.
  - intros items.
    destruct (migrate_dynamic_fields_accounted E items w Hacc) as (w' & H & Ha & _).
    eauto.
  - intros items h.
    destruct (migrate_copy_fields_accounted E items h w Hacc) as (w' & H & Ha & _).
    eauto.
  - intros w' H. unfold migrate_schema in H.
    apply bind_ok in H as ([] & w1 & H1 & H).
    apply bind_ok in H as ([] & w2 & H2 & H).
    apply bind_ok in H as ([] & w3 & H3 & H).
    apply bind_ok in H as (all_fields & w4 & H4 & H).
    unfold gets in H4. inversion H4; subst. clear H4.
    unfold _migrate_field_types in H1. unfold _migrate_fields in H2.
    destruct (migrate_field_types_accounted E _ _ _ H1 Hacc) as (Ha1 & _).
    destruct (migrate_fields_accounted E _ _ _ H2 Ha1) as (Ha2 & _).
    destruct (migrate_dynamic_fields_accounted E (dynamicFields (read_schema E)) w2 Ha2)
      as (w3' & H3' & Ha3 & _).
    unfold _migrate_dynamic_fields in H3. rewrite H3' in H3. inversion H3; subst.
    destruct (migrate_copy_fields_accounted E (copyFields (read_schema E))
                (CopyFieldHelper_init (index_fields w4)) w4 Ha3)
      as (w5 & H5 & Ha5 & _).
    unfold _migrate_copy_fields in H. rewrite H5 in H. inversion H; subst.
    exact Ha5.
Qed.

Lemma report_accounting_witness :
  accounted true
    (_report (snd (migrate_schema (Example.env Example.lenient) World_init))) /\
  accounted false
    (_report (snd (migrate_schema (Example.env Example.strict) World_init))).
Proof.
  split.
  - refine (proj2 (proj2 (proj2 (proj2
             (report_accounting (Example.env Example.lenient) World_init
                (accounted_init true))))) _ _).
    vm_compute. reflexivity.
  - refine (proj2 (proj2 (proj2 (proj2
             (report_accounting (Example.env Example.strict) World_init
                (accounted_init false))))) _ _).
    vm_compute. reflexivity.
Defined.

(** ** Failing items and the loops *)

Section Continue.
Variable E : Env.

Let lenient := map_fields_on_analyzer_failure (migration_config E).

Lemma migrate_field_types_attempted items : forall w w',
  migrate_field_types E items w = (Ok tt, w') ->
  field_types_solr (_report w')
  = (field_types_solr (_report w) + List.length items)%nat.
Proof.
  unfold migrate_field_types.
  induction items as [|ft items IH]; intros w w' Hrun.
  - inversion Hrun; subst. simpl. lia.
  - apply for_each_cons_ok in Hrun as (w1 & H1 & H2).
    rewrite (IH _ _ H2).
    destruct (migrate_field_type_counts E _ _ _ H1) as [Hc|[e Hc]];
      read_counts Hc;
      match goal with
      | H : field_types_solr (_report w1) = _ |- _ => rewrite H
      end; simpl; destruct (map_fields_on_analyzer_failure (migration_config E));
      simpl; lia.
Qed.

Lemma migrate_fields_attempted items : forall w w',
  migrate_fields E items w = (Ok tt, w') ->
  field_solr (_report w') = (field_solr (_report w) + List.length items)%nat.
Proof.
  unfold migrate_fields.
  induction items as [|sf items IH]; intros w w' Hrun.
  - inversion Hrun; subst. simpl. lia.
  - apply for_each_cons_ok in Hrun as (w1 & H1 & H2).
    rewrite (IH _ _ H2).
    destruct (migrate_field_counts E _ _ _ H1) as [Hc|[e Hc]];
      rewrite Hc; simpl; lia.
Qed.

Lemma migrate_dynamic_fields_attempted items : forall w,
  exists w',
    migrate_dynamic_fields E items w = (Ok tt, w') /\
    dynamic_field_solr (_report w')
    = (dynamic_field_solr (_report w) + List.length items)%nat.
Proof.
  unfold migrate_dynamic_fields.
  induction items as [|sf items IH]; intros w.
  - exists w. simpl. split; [reflexivity|lia].
  - destruct (migrate_dynamic_field_counts E sf w) as (w1 & H1 & Hc).
    destruct (IH w1) as (w' & H2 & Hn).
    exists w'. rewrite (for_each_cons _ _ _ _ _ H1). split; [assumption|].
    rewrite Hn. destruct Hc as [Hc|[e Hc]]; rewrite Hc; simpl; lia.
Qed.

Lemma migrate_copy_fields_attempted items : forall h w,
  exists w',
    migrate_copy_fields items h w = (Ok tt, w') /\
    copy_field_solr (_report w')
    = (copy_field_solr (_report w) + List.length items)%nat.
Proof.
  induction items as [|c items IH]; intros h w.
  - exists w. simpl. split; [reflexivity|lia].
  - simpl. unfold bind, report, modify, add_field.
    destruct (map_copy_field c h) as [[r|e] h1]; unfold modify; cbv beta iota;
      match goal with
      | |- context [migrate_copy_fields items h1 ?w0] =>
          destruct (IH h1 w0) as (w' & H2 & Hn')
      end;
      exists w'; (split; [assumption|]); rewrite Hn'; simpl; lia.
Qed.

End Continue.

(** C3, as amended.  In each of the four loops, an item whose mapping
    raises the category's exception class (any exception, for dynamic
    fields and copy fields) leaves the loop running: the loop goes on with
    the rest of the items, in a state where the attempted counter is one
    higher, the exception is the last of the category's exception list and
    the error counter is one higher; for a field type this last part holds
    when [map_fields_on_analyzer_failure] is off, and when it is on the
    succeeded counter is one higher instead.  Every item of a loop that
    returns has been attempted. *)
Theorem loops_record_and_continue (E : Env) (rest : list pyval) (w : World) :
  let lenient := map_fields_on_analyzer_failure (migration_config E) in
  (forall ft n m a w1,
     map_field_type_analyzer E ft (set_report (upd_field_types_solr S) w)
     = (Raise (FieldTypeMappingException n m a), w1) ->
     exists w2,
       migrate_field_types E (ft :: rest) w = migrate_field_types E rest w2 /\
       field_type_exception_list (_report w2)
       = (field_type_exception_list (_report w)
          ++ [FieldTypeMappingException n m a])%list /\
       field_types_solr (_report w2) = S (field_types_solr (_report w)) /\
       field_types_error (_report w2)
       = ((if lenient then 0 else 1) + field_types_error (_report w))%nat /\
       field_types_os (_report w2)
       = ((if lenient then 1 else 0) + field_types_os (_report w))%nat) /\
  (forall sf n m t w1,
     map_field E sf (set_report (upd_field_solr S) w)
     = (Raise (FieldMappingException n m t), w1) ->
     exists w2,
       migrate_fields E (sf :: rest) w = migrate_fields E rest w2 /\
       field_exception_list (_report w2)
       = (field_exception_list (_report w) ++ [FieldMappingException n m t])%list /\
       field_solr (_report w2) = S (field_solr (_report w)) /\
       field_error (_report w2) = S (field_error (_report w)) /\
       field_os (_report w2) = field_os (_report w)) /\
  (forall sf e w1,
     map_dynamic_field E sf (set_report (upd_dynamic_field_solr S) w) = (Raise e, w1) ->
     exists w2,
       migrate_dynamic_fields E (sf :: rest) w = migrate_dynamic_fields E rest w2 /\
       dynamic_field_exception_list (_report w2)
       = (dynamic_field_exception_list (_report w) ++ [e])%list /\
       dynamic_field_solr (_report w2) = S (dynamic_field_solr (_report w)) /\
       dynamic_field_error (_report w2) = S (dynamic_field_error (_report w)) /\
       dynamic_field_os (_report w2) = dynamic_field_os (_report w)) /\
  (forall c h e h1,
     map_copy_field c h = (Raise e, h1) ->
     exists w2,
       migrate_copy_fields (c :: rest) h w = migrate_copy_fields rest h1 w2 /\
       copy_field_exception_list (_report w2)
       = (copy_field_exception_list (_report w) ++ [e])%list /\
       copy_field_solr (_report w2) = S (copy_field_solr (_report w)) /\
       copy_field_error (_report w2) = S (copy_field_error (_report w)) /\
       copy_field_os (_report w2) = copy_field_os (_report w)) /\
  (forall w',
     migrate_field_types E rest w = (Ok tt, w') ->
     field_types_solr (_report w')
     = (field_types_solr (_report w) + List.length rest)%nat) /\
  (forall w',
     migrate_fields E rest w = (Ok tt, w') ->
     field_solr (_report w') = (field_solr (_report w) + List.length rest)%nat) /\
  (exists w',
     migrate_dynamic_fields E rest w = (Ok tt, w') /\
     dynamic_field_solr (_report w')
     = (dynamic_field_solr (_report w) + List.length rest)%nat) /\
  (forall h, exists w',
     migrate_copy_fields rest h w = (Ok tt, w') /\
     copy_field_solr (_report w')
     = (copy_field_solr (_report w) + List.length rest)%nat).
Proof.
  intros lenient.
  split; [|split; [|split; [|split; [|split; [|split; [|split]]]]]].
  - intros ft n m a w1 Hm.
    destruct (migrate_field_type_failure E _ _ _ _ _ _ Hm) as (w2 & Hrun & Hc).
    exists w2. split.
    + unfold migrate_field_types. apply for_each_cons, Hrun.
    + unfold lenient.
      destruct (map_fields_on_analyzer_failure (migration_config E));
        read_counts Hc; simpl; repeat split; assumption.
  - intros sf n m t w1 Hm.
    destruct (migrate_field_failure E _ _ _ _ _ _ Hm) as (w2 & Hrun & Hc).
    exists w2. split.
    + unfold migrate_fields. apply for_each_cons, Hrun.
    + rewrite Hc. simpl. repeat split.
  - intros sf e w1 Hm.
    destruct (migrate_dynamic_field_failure E _ _ _ _ Hm) as (w2 & Hrun & Hc).
    exists w2. split.
    + unfold migrate_dynamic_fields. apply for_each_cons, Hrun.
    + rewrite Hc. simpl. repeat split.
  - intros c h e h1 Hm. simpl. unfold bind, report, modify.
    rewrite Hm. cbv beta iota.
    eexists. split; [reflexivity|]. simpl. repeat split.
  - apply migrate_field_types_attempted.
  - apply migrate_fields_attempted.
  - apply migrate_dynamic_fields_attempted.
  - intros h. apply migrate_copy_fields_attempted.
Qed.

Lemma loops_record_and_continue_witness :
  let E := Example.env Example.strict in
  exists w2,
    migrate_field_types E [Example.text_ja; Example.string_type] World_init
    = migrate_field_types E [Example.string_type] w2 /\
    field_types_error (_report w2) = 1%nat /\
    field_types_solr (_report w2) = 1%nat.
Proof.
  destruct (loops_record_and_continue (Example.env Example.strict)
              [Example.string_type] World_init) as (Hft & _).
  edestruct (Hft Example.text_ja) as (w2 & Hrun & _ & Hs & He & _).
  { vm_compute. reflexivity. }
  exists w2. split; [exact Hrun|]. split; [exact He|exact Hs].
Defined.

(** C3 as stated does not hold for field types when
    [map_fields_on_analyzer_failure] is on: the field type whose mapping
    raises [FieldTypeMappingException] is recorded in the exception list,
    but the error counter stays at zero and the succeeded counter goes
    up. *)
Lemma field_type_error_counted_as_success :
  let E := Example.env Example.lenient in
  exists n m a w1 w2,
    map_field_type_analyzer E Example.text_ja
      (set_report (upd_field_types_solr S) World_init)
    = (Raise (FieldTypeMappingException n m a), w1) /\
    migrate_field_types E [Example.text_ja] World_init = (Ok tt, w2) /\
    field_type_exception_list (_report w2) = [FieldTypeMappingException n m a] /\
    field_types_error (_report w2) = 0%nat /\
    field_types_os (_report w2) = 1%nat.
Proof.
  cbv zeta. do 5 eexists.
  split; [vm_compute; reflexivity|].
  split; [vm_compute; reflexivity|].
  repeat split.
Qed.

(** ** The analyzer composer *)

Section Composer.
Variable E : Env.












End Composer.




(** ** [get_hash] does not depend on the order of the entries *)

Module SortFacts.

Lemma ascii_compare_N (a b : ascii) :
Ascii.compare a b = N.compare (N_of_ascii a) (N_of_ascii b).
Proof. reflexivity. Qed.

Lemma ascii_compare_eq (a b : ascii) : Ascii.compare a b = Eq -> a = b.
Proof. apply Ascii.compare_eq_iff. Qed.

Lemma ascii_compare_refl (a : ascii) : Ascii.compare a a = Eq.
Proof. rewrite ascii_compare_N. apply N.compare_refl. Qed.

Lemma compare_refl (s : string) : String.compare s s = Eq.
Proof. induction s as [|a s IH]; simpl; [|rewrite ascii_compare_refl]; auto. Qed.

Lemma compare_lt_trans : forall s1 s2 s3,
String.compare s1 s2 = Lt -> String.compare s2 s3 = Lt ->
String.compare s1 s3 = Lt.
Proof.
induction s1 as [|a s1 IH]; intros [|b s2] [|c s3]; simpl;
  try discriminate; auto.
destruct (Ascii.compare a b) eqn:Hab; try discriminate;
  destruct (Ascii.compare b c) eqn:Hbc; try discriminate; intros H1 H2.
- apply ascii_compare_eq in Hab, Hbc. subst.
  rewrite ascii_compare_refl. eapply IH; eauto.
- apply ascii_compare_eq in Hab. subst. now rewrite Hbc.
- apply ascii_compare_eq in Hbc. subst. now rewrite Hab.
- rewrite ascii_compare_N in Hab. rewrite ascii_compare_N in Hbc.
  rewrite ascii_compare_N.
  pose proof (N.lt_trans _ _ _ Hab Hbc) as H. unfold N.lt in H.
  now rewrite H.
Qed.

Lemma leb_trans (s1 s2 s3 : string) :
String.leb s1 s2 = true -> String.leb s2 s3 = true -> String.leb s1 s3 = true.
Proof.
unfold String.leb.
destruct (String.compare s1 s2) eqn:H12; try discriminate;
  destruct (String.compare s2 s3) eqn:H23; try discriminate; intros _ _.
- apply String.compare_eq_iff in H12, H23. subst.
  now rewrite compare_refl.
- apply String.compare_eq_iff in H12. subst. now rewrite H23.
- apply String.compare_eq_iff in H23. subst. now rewrite H12.
- now rewrite (compare_lt_trans _ _ _ H12 H23).
Qed.

Section Sorting.
Variable V : Type.
Implicit Types (l : list (string * V)) (a b : string * V).

Lemma insert_item_perm a l : Permutation (a :: l) (Json.insert_item a l).
Proof.
  induction l as [|b l IH]; simpl; auto.
  destruct (String.leb (fst a) (fst b)); auto.
  rewrite perm_swap. now constructor.
Qed.

Lemma sort_items_perm l : Permutation l (Json.sort_items l).
Proof.
  unfold Json.sort_items. induction l as [|a l IH]; simpl; auto.
  rewrite <- insert_item_perm. now constructor.
Qed.

Lemma insert_item_sorted a l :
  StronglySorted key_le l -> StronglySorted key_le (Json.insert_item a l).
Proof.
  induction 1 as [|b l Hs IH Hall]; simpl.
  - repeat constructor.
  - destruct (String.leb (fst a) (fst b)) eqn:Hab.
    + constructor; [now constructor|].
      constructor; [exact Hab|].
      eapply Forall_impl; [|exact Hall]. intros c Hc.
      unfold key_le in *. eapply leb_trans; eauto.
    + constructor; auto.
      eapply Permutation_Forall; [apply insert_item_perm|].
      constructor; auto. unfold key_le.
      destruct (String.leb_total (fst a) (fst b)); congruence.
Qed.

Lemma sort_items_sorted l : StronglySorted key_le (Json.sort_items l).
Proof.
  unfold Json.sort_items. induction l as [|a l IH]; simpl.
  - constructor.
  - now apply insert_item_sorted.
Qed.

(** Two sorted lists with the same items and no key twice are the same
    list. *)
Lemma sorted_unique : forall l l',
  StronglySorted key_le l -> StronglySorted key_le l' ->
  Permutation l l' -> NoDup (map fst l) -> l = l'.
Proof.
  induction l as [|a l IH]; intros l' Hs Hs' Hp Hnd.
  - apply Permutation_nil in Hp. now subst.
  - destruct l' as [|b l'].
    { apply Permutation_sym, Permutation_nil in Hp. discriminate. }
    inversion Hs as [|? ? Hsl Hal]; subst.
    inversion Hs' as [|? ? Hsl' Hbl']; subst.
    inversion Hnd as [|? ? Hnotin Hnd']; subst.
    assert (Hab : a = b).
    { assert (Hina : In a (b :: l')) by (eapply Permutation_in; [exact Hp|now left]).
      assert (Hinb : In b (a :: l))
        by (eapply Permutation_in; [apply Permutation_sym, Hp|now left]).
      destruct Hina as [->|Hina]; auto.
      destruct Hinb as [->|Hinb]; auto.
      rewrite Forall_forall in Hal, Hbl'.
      pose proof (Hal _ Hinb) as H1. pose proof (Hbl' _ Hina) as H2.
      unfold key_le in *.
      assert (Hk : fst a = fst b).
      { apply String.leb_antisym; auto. }
      exfalso. apply Hnotin. rewrite Hk. now apply in_map. }
    subst b. f_equal. apply IH; auto.
    eapply Permutation_cons_inv; eauto.
Qed.

Lemma sort_items_order l l' :
  Permutation l l' -> NoDup (map fst l) ->
  Json.sort_items l = Json.sort_items l'.
Proof.
  intros Hp Hnd. apply sorted_unique; try apply sort_items_sorted.
  - rewrite <- (sort_items_perm l), <- (sort_items_perm l'). exact Hp.
  - eapply Permutation_NoDup; [|exact Hnd].
    apply Permutation_map, sort_items_perm.
Qed.
End Sorting.

Lemma dumps_dict sk (d : dict pyval) :
Json.dumps sk (PDict d)
= let items := map (fun kv => (fst kv, Json.dumps sk (snd kv))) d in
  let items := if sk then Json.sort_items items else items in
  "{" ++ PyStr.join ", "
           (map (fun kv => Json.quote (fst kv) ++ ": " ++ snd kv) items) ++ "}".
Proof.
simpl.
assert (H : forall l,
           (fix go (d : list (string * pyval)) : list (string * string) :=
              match d with
              | [] => []
              | (k, x) :: d' => (k, Json.dumps sk x) :: go d'
              end) l
           = map (fun kv => (fst kv, Json.dumps sk (snd kv))) l).
{ induction l as [|[k x] l IH]; simpl; congruence. }
now rewrite H.
Qed.

End SortFacts.

(** X1.  [get_hash] reads a dictionary through
    [json.dumps(..., sort_keys=True)]:
    two dictionaries with the same entries in a different order have the
    same hash. *)
Theorem get_hash_order_independent (d1 d2 : dict pyval) :
  Permutation d1 d2 -> NoDup (dict_keys d1) ->
  Json.dumps true (PDict d1) = Json.dumps true (PDict d2) /\
  get_hash (PDict d1) = get_hash (PDict d2).
Proof.
  intros Hp Hnd.
  assert (H : Json.dumps true (PDict d1) = Json.dumps true (PDict d2)).
  { rewrite !SortFacts.dumps_dict. cbv zeta.
    rewrite (SortFacts.sort_items_order _
               (map (fun kv => (fst kv, Json.dumps true (snd kv))) d1)
               (map (fun kv => (fst kv, Json.dumps true (snd kv))) d2)).
    - reflexivity.
    - now apply Permutation_map.
    - rewrite map_map. simpl. exact Hnd. }
  split; [exact H|]. unfold get_hash. now rewrite H.
Qed.

Lemma get_hash_order_independent_witness :
  get_hash (PDict [("class", PStr "solr.StopFilterFactory"); ("words", PStr "stop.txt")])
  = get_hash (PDict [("words", PStr "stop.txt"); ("class", PStr "solr.StopFilterFactory")]).
Proof.
  apply (get_hash_order_independent
           [("class", PStr "solr.StopFilterFactory"); ("words", PStr "stop.txt")]
           [("words", PStr "stop.txt"); ("class", PStr "solr.StopFilterFactory")]).
  - apply perm_swap.
  - repeat constructor; simpl; intuition discriminate.
Defined.

(** ** What the mappers keep *)

Section Preserve.
Variable R : World -> World -> Prop.
Hypothesis R_refl : forall w, R w w.
Hypothesis R_trans : forall w1 w2 w3, R w1 w2 -> R w2 w3 -> R w1 w3.

Lemma preserves_ret {A} (a : A) : preserves R (ret a).
Proof. intros w. apply R_refl. Qed.

Lemma preserves_raise {A} (e : exn) : preserves R (@raise A e).
Proof. intros w. apply R_refl. Qed.

Lemma preserves_lift {A} (r : res A) : preserves R (lift r).
Proof. intros w. apply R_refl. Qed.

Lemma preserves_gets {A} (f : World -> A) : preserves R (gets f).
Proof. intros w. apply R_refl. Qed.

Lemma preserves_modify (f : World -> World) :
  (forall w, R w (f w)) -> preserves R (modify f).
Proof. intros H w. apply H. Qed.

Lemma preserves_bind {A B} (m : M A) (f : A -> M B) :
  preserves R m -> (forall a, preserves R (f a)) -> preserves R (bind m f).
Proof.
  intros Hm Hf w. unfold bind. specialize (Hm w).
  destruct (m w) as [[a|e] w1]; simpl in *; [|assumption].
  eapply R_trans; [exact Hm|apply Hf].
Qed.

Lemma preserves_try {A} (m : M A) (h : exn -> option (M A)) :
  preserves R m ->
  (forall e, match h e with Some k => preserves R k | None => True end) ->
  preserves R (try_except m h).
Proof.
  intros Hm Hh w. unfold try_except. specialize (Hm w).
  destruct (m w) as [[a|e] w1]; simpl in *; [assumption|].
  specialize (Hh e). destruct (h e) as [k|]; [|assumption].
  eapply R_trans; [exact Hm|apply Hh].
Qed.

Lemma preserves_map_each {A B} (f : A -> M B) (xs : list A) :
  (forall x, preserves R (f x)) -> preserves R (map_each f xs).
Proof.
  intros Hf. induction xs as [|x xs IH]; simpl.
  - apply preserves_ret.
  - apply preserves_bind; [apply Hf|intros y].
    apply preserves_bind; [apply IH|intros ys]. apply preserves_ret.
Qed.

Lemma preserves_run {A} (m : M A) w r w1 :
  preserves R m -> m w = (r, w1) -> R w w1.
Proof. intros H Hrun. specialize (H w). now rewrite Hrun in H. Qed.

(** The updates the mappers make. *)
Hypothesis R_tokenizer_map : forall f w, R w (set_tokenizer_map f w).
Hypothesis R_filter_map : forall f w, R w (set_filter_map f w).
Hypothesis R_packages_map : forall f w, R w (set_packages_map f w).
Hypothesis R_package_files :
  forall l w, R w (set_package_files (fun fs => (fs ++ l)%list) w).
Hypothesis R_package_calls :
  forall l w, R w (set_package_calls (fun cs => (cs ++ l)%list) w).

Ltac keep_step :=
  first
    [ assumption
    | apply preserves_ret
    | apply preserves_raise
    | apply preserves_lift
    | apply preserves_gets
    | apply preserves_modify; intros;
      first [ apply R_tokenizer_map | apply R_filter_map | apply R_packages_map
            | apply R_package_files | apply R_package_calls ]
    | apply preserves_bind; [|intros]
    | apply preserves_try; [|let e := fresh "e" in intros e; destruct e; simpl; auto]
    | apply preserves_map_each; intros
    | match goal with
      | |- preserves R (match ?x with _ => _ end) => destruct x
      | |- preserves R (let '(_, _) := ?x in _) => destruct x
      end ].

Variable E : Env.

Lemma preserves_map_tokenizer t : preserves R (map_tokenizer E t).
Proof. unfold map_tokenizer. repeat keep_step. Qed.

Lemma preserves_handle_packages n f : preserves R (_handle_packages E n f).
Proof. unfold _handle_packages, _create_package_file. repeat keep_step. Qed.

Lemma preserves_process_mapping_key p r f n :
  preserves R (process_mapping_key E p r f n).
Proof.
  pose proof preserves_handle_packages.
  unfold process_mapping_key. repeat keep_step; auto.
Qed.

Lemma preserves_process_keys p attrs f n : forall d,
  preserves R (process_keys (process_mapping_key E p) attrs f n d).
Proof.
  induction attrs as [|[k r] attrs IH]; intros d; simpl.
  - apply preserves_ret.
  - apply preserves_bind; [apply preserves_process_mapping_key|].
    intros v. apply IH.
Qed.

Lemma preserves_map_filter f : preserves R (_map_filter E f).
Proof.
  unfold _map_filter, _process_filter_mapping_key.
  apply preserves_bind; [apply preserves_lift|intros n].
  apply preserves_try; [|intros e; destruct e; simpl; auto; apply preserves_raise].
  destruct (dict_get n (_filter_mapping E)); [|apply preserves_raise].
  apply preserves_bind; [apply preserves_gets|intros [tf|]];
    [apply preserves_ret|].
  apply preserves_bind; [apply preserves_lift|intros cfg].
  apply preserves_bind; [apply preserves_process_keys|intros d].
  repeat keep_step.
Qed.

Lemma preserves_map_char_filter f : preserves R (_map_char_filter E f).
Proof.
  unfold _map_char_filter, _process_char_filter_mapping_key.
  apply preserves_bind; [apply preserves_lift|intros n].
  apply preserves_try; [|intros e; destruct e; simpl; auto; apply preserves_raise].
  destruct (dict_get n (_char_filter_mapping E)); [|apply preserves_raise].
  apply preserves_bind; [apply preserves_lift|intros cfg].
  apply preserves_bind; [apply preserves_process_keys|intros d].
  repeat keep_step.
Qed.

Lemma preserves_map_filters fs : preserves R (map_filters E fs).
Proof.
  unfold map_filters.
  apply preserves_try; [|intros e; destruct e; simpl; auto; apply preserves_raise].
  apply preserves_bind; [apply preserves_lift|intros l].
  apply preserves_bind; [apply preserves_lift|intros _].
  apply preserves_map_each. intros x. apply preserves_map_filter.
Qed.

Lemma preserves_map_char_filters fs : preserves R (map_char_filters E fs).
Proof.
  unfold map_char_filters.
  apply preserves_try; [|intros e; destruct e; simpl; auto; apply preserves_raise].
  apply preserves_bind; [apply preserves_lift|intros l].
  apply preserves_bind; [apply preserves_lift|intros _].
  apply preserves_map_each. intros x. apply preserves_map_char_filter.
Qed.

Lemma preserves_map_analyzer_one n a : preserves R (_map_analyzer E n a).
Proof.
  pose proof preserves_map_tokenizer. pose proof preserves_map_filters.
  pose proof preserves_map_char_filters.
  unfold _map_analyzer.
  apply preserves_bind;
    [apply preserves_try;
     [apply preserves_bind; [apply preserves_lift|intros cfg];
      destruct (py_get "tokenizer" cfg);
      first [apply preserves_ret
            | apply preserves_bind; [auto|intros; apply preserves_ret]]
     |intros e; destruct e; simpl; auto; apply preserves_ret]|intros t].
  apply preserves_bind;
    [apply preserves_try;
     [apply preserves_bind; [apply preserves_lift|intros cfg];
      destruct (py_get "filters" cfg);
      first [apply preserves_ret
            | apply preserves_bind; [auto|intros; apply preserves_ret]]
     |intros e; destruct e; simpl; auto; apply preserves_ret]|intros f].
  apply preserves_bind;
    [apply preserves_try;
     [apply preserves_bind; [apply preserves_lift|intros cfg];
      destruct (py_get "charFilters" cfg);
      first [apply preserves_ret
            | apply preserves_bind; [auto|intros; apply preserves_ret]]
     |intros e; destruct e; simpl; auto; apply preserves_ret]|intros c].
  destruct t as [mt [te|]], f as [mf [fe|]], c as [mc [ce|]];
    first [apply preserves_ret | apply preserves_raise].
Qed.

Lemma preserves_map_analyzer ft : preserves R (map_analyzer E ft).
Proof.
  pose proof preserves_map_analyzer_one.
  unfold map_analyzer.
  apply preserves_bind;
    [destruct (py_get "analyzer" ft);
     first [apply preserves_ret
           | apply preserves_bind; [apply preserves_lift|intros];
             apply preserves_bind; [auto|intros; apply preserves_ret]]|intros a1].
  apply preserves_bind;
    [destruct (py_get "indexAnalyzer" ft);
     first [apply preserves_ret
           | apply preserves_bind; [apply preserves_lift|intros];
             apply preserves_bind; [auto|intros];
             apply preserves_bind; [auto|intros; apply preserves_ret]]|intros a2].
  apply preserves_bind;
    [destruct (py_get "queryAnalyzer" ft);
     first [apply preserves_ret
           | apply preserves_bind; [apply preserves_lift|intros];
             apply preserves_bind; [auto|intros; apply preserves_ret]]|intros a3].
  apply preserves_ret.
Qed.

(** With the binding of a field type among the updates, the whole
    mapping of a field type. *)
Hypothesis R_field_types_map : forall f w, R w (set_field_types_map f w).

Lemma preserves_map_field_type_analyzer ft :
  preserves R (map_field_type_analyzer E ft).
Proof.
  pose proof preserves_map_analyzer.
  unfold map_field_type_analyzer.
  apply preserves_bind; [apply preserves_lift|intros d].
  apply preserves_bind; [apply preserves_lift|intros n].
  apply preserves_try.
  - apply preserves_bind; [apply preserves_lift|intros nt].
    apply preserves_bind; [auto|intros l].
    apply preserves_bind; [|intros; apply preserves_ret].
    apply preserves_modify. intros. apply R_field_types_map.
  - intros e. destruct e; simpl; auto.
    apply preserves_bind; [|intros; apply preserves_raise].
    destruct (skip_text_analysis_failure (migration_config E));
      [|apply preserves_ret].
    apply preserves_bind; [apply preserves_lift|intros nt].
    apply preserves_modify. intros. apply R_field_types_map.
Qed.

End Preserve.



Lemma same_index_refl w : same_index w w.
Proof. repeat split. Qed.

Lemma same_index_trans w1 w2 w3 :
  same_index w1 w2 -> same_index w2 w3 -> same_index w1 w3.
Proof.
  unfold same_index. intros (A1 & A2 & A3 & A4 & A5) (B1 & B2 & B3 & B4 & B5).
  repeat split; congruence.
Qed.

(** ** Packages, caches and names *)


(** X3.  Mapping the analyzers of a field type registers nothing in the
    index under construction, binds no field type and writes nothing to
    the report, whether it succeeds or raises: registering and reporting
    are left to the caller. *)
Theorem map_analyzer_leaves_index E ft w :
  same_index w (snd (map_analyzer E ft w)).
Proof.
  apply (preserves_map_analyzer same_index).
  - apply same_index_refl.
  - apply same_index_trans.
  - intros f w0. repeat split.
  - intros f w0. repeat split.
  - intros f w0. repeat split.
  - intros l w0. repeat split.
  - intros l w0. repeat split.
Qed.

Ltac py_raise :=
  let H := fresh "H" in
  intros H;
  first [ discriminate H
        | injection H as <-;
          unfold AttributeError, IndexError, KeyError, TypeError; eauto ].

Lemma get_tokenizer_name_py_only t e :
  _get_tokenizer_name t = Raise e -> exists k m, e = PyError k m.
Proof.
  unfold _get_tokenizer_name, as_dict, res_bind.
  destruct t; try py_raise.
  destruct (py_get "name" d); try py_raise.
  destruct (py_get "class" d); try py_raise.
  match goal with |- context [nth_error ?l 1] => destruct (nth_error l 1) end;
    [destruct (PyStr.contains _ _)|]; py_raise.
Qed.

Lemma get_filter_name_py_only f e :
  _get_filter_name f = Raise e -> exists k m, e = PyError k m.
Proof.
  unfold _get_filter_name, as_dict, res_bind.
  destruct f; try py_raise.
  destruct (py_get "name" d); try py_raise.
  destruct (py_get "class" d); try py_raise.
  match goal with |- context [nth_error ?l 1] => destruct (nth_error l 1) end;
    [repeat destruct (PyStr.contains _ _)|]; py_raise.
Qed.

Lemma rule_default_py_only r e :
  rule_default r = Raise e -> exists k m, e = PyError k m.
Proof. unfold rule_default. destruct (default r); py_raise. Qed.

Lemma tokenizer_attrs_py_only cfg attrs : forall d e,
  tokenizer_attrs cfg attrs d = Raise e -> exists k m, e = PyError k m.
Proof.
  induction attrs as [|[key r] attrs IH]; intros d e; simpl; [discriminate|].
  unfold tokenizer_attr.
  destruct (valueFrom r) as [a|].
  - destruct (py_get a cfg); simpl; try apply IH.
    destruct (rule_default r) eqn:Hd; simpl; [apply IH|].
    intros H. injection H as <-. eapply rule_default_py_only; eauto.
  - destruct (rule_default r) eqn:Hd; simpl; [apply IH|].
    intros H. injection H as <-. eapply rule_default_py_only; eauto.
Qed.

Lemma map_tokenizer_ok_inv E t w c w' :
  map_tokenizer E t w = (Ok c, w') ->
  exists n spec,
    _get_tokenizer_name t = Ok n /\
    dict_get n (_tokenizer_mapping E) = Some spec /\
    c_type c = spec_type spec /\
    c_name c = n ++ get_hash (PDict (c_attrs c)) /\
    w' = set_tokenizer_map (dict_set (c_name c) (c_name c)) w.
Proof.
  unfold map_tokenizer, bind, lift, try_except, raise, ret, modify.
  destruct (_get_tokenizer_name t) as [n|e] eqn:Hn; [|discriminate].
  destruct (dict_get n (_tokenizer_mapping E)) as [spec|] eqn:Hs; simpl;
    [|discriminate].
  destruct (as_dict t) as [cfg|e]; simpl; [|destruct e; discriminate].
  destruct (tokenizer_attrs cfg (spec_attrs spec) []) as [d|e]; simpl;
    [|destruct e; discriminate].
  intros H. injection H as <- <-. exists n, spec. repeat split; auto.
Qed.

(** X4.  What [map_tokenizer] does.  On success the construct has the
    type of the table entry of the resolved name, its name is the resolved
    name followed by the hash of the attributes it was given (the resolved
    ones, not the source definition), and that name is the one entry added
    to the tokenizer map.  On failure the state is unchanged and, once the
    name is resolved, the exception is a [TokenizerMappingException] that
    carries it, whatever went wrong underneath. *)
Theorem map_tokenizer_outcome E t w :
  match map_tokenizer E t w with
  | (Ok c, w') =>
      exists n spec,
        _get_tokenizer_name t = Ok n /\
        dict_get n (_tokenizer_mapping E) = Some spec /\
        c_type c = spec_type spec /\
        c_name c = n ++ get_hash (PDict (c_attrs c)) /\
        w' = set_tokenizer_map (dict_set (c_name c) (c_name c)) w
  | (Raise e, w') =>
      w' = w /\
      forall n, _get_tokenizer_name t = Ok n ->
                exists m, e = TokenizerMappingException n m
  end.
Proof.
  destruct (map_tokenizer E t w) as [[c|e] w'] eqn:Hrun;
    [now apply map_tokenizer_ok_inv|].
  revert Hrun.
  unfold map_tokenizer, bind, lift, try_except, raise, ret, modify.
  destruct (_get_tokenizer_name t) as [n|e0] eqn:Hn.
  - destruct (dict_get n (_tokenizer_mapping E)) as [spec|] eqn:Hs; simpl.
    + destruct (as_dict t) as [cfg|e0] eqn:Hcfg; simpl.
      * destruct (tokenizer_attrs cfg (spec_attrs spec) []) as [d|e0] eqn:Ha;
          simpl; [discriminate|].
        destruct (tokenizer_attrs_py_only _ _ _ _ Ha) as (k & m & ->). simpl.
        intros H. injection H as <- <-.
        split; auto. intros n' Hn'. injection Hn' as <-. eauto.
      * destruct t; simpl in Hcfg; try discriminate Hcfg;
          injection Hcfg as <-; simpl; intros H; injection H as <- <-;
          (split; auto; intros n' Hn'; injection Hn' as <-; eauto).
    + intros H. injection H as <- <-.
      split; auto. intros n' Hn'. injection Hn' as <-. eauto.
  - intros H. injection H as <- <-. split; auto. intros n' Hn'. discriminate.
Qed.

(** X5.  Tokenizers are shared by content: two source definitions that
    resolve to the same name and are mapped to the same attributes give
    the same construct, under the same name, however the two were
    written. *)
Theorem map_tokenizer_shares_by_content E t1 t2 w1 w2 c1 c2 w1' w2' :
  map_tokenizer E t1 w1 = (Ok c1, w1') ->
  map_tokenizer E t2 w2 = (Ok c2, w2') ->
  _get_tokenizer_name t1 = _get_tokenizer_name t2 ->
  c_attrs c1 = c_attrs c2 ->
  c1 = c2.
Proof.
  intros H1 H2 Hn Ha.
  destruct (map_tokenizer_ok_inv _ _ _ _ _ H1) as (n1 & s1 & Hn1 & Hs1 & Ht1 & Hc1 & _).
  destruct (map_tokenizer_ok_inv _ _ _ _ _ H2) as (n2 & s2 & Hn2 & Hs2 & Ht2 & Hc2 & _).
  assert (n1 = n2) by congruence. subst n2.
  assert (s1 = s2) by congruence. subst s2.
  destruct c1 as [a1 b1 d1], c2 as [a2 b2 d2]; simpl in *. congruence.
Qed.

Lemma map_tokenizer_shares_by_content_witness :
  let E := Example.env Example.strict in
  exists c1 c2 w1 w2,
    map_tokenizer E standard_upper World_init = (Ok c1, w1) /\
    map_tokenizer E (PDict [("class", PStr "solr.StandardTokenizerFactory")])
      World_init = (Ok c2, w2) /\
    c1 = c2.
Proof.
  do 4 eexists. split; [vm_compute; reflexivity|].
  split; [vm_compute; reflexivity|].
  eapply (map_tokenizer_shares_by_content (Example.env Example.strict)
            standard_upper
            (PDict [("class", PStr "solr.StandardTokenizerFactory")])
            World_init World_init);
    vm_compute; reflexivity.
Defined.

(** X6.  A package is created once: after [_handle_packages] has
    succeeded for a filter and a file, asking again answers the same
    package reference from the packages map and changes nothing (no file
    is written and no call is made the second time). *)
Theorem handle_packages_idempotent E n f w v w1 :
  _handle_packages E n f w = (Ok v, w1) ->
  _handle_packages E n f w1 = (Ok v, w1).
Proof.
  unfold _handle_packages, _create_package_file.
  destruct f as [| | |fname| |]; try (intros H; discriminate H).
  unfold bind, gets, ret, lift, modify.
  match goal with
  | |- context [dict_get ?k (_packages_map w)] =>
      set (key := k); destruct (dict_get key (_packages_map w)) as [p|] eqn:Hk
  end.
  - intros H. injection H as <- <-. now rewrite Hk.
  - destruct (_get_file_data E n (PStr fname)) as [data|e]; [|discriminate].
    simpl.
    match goal with
    | |- context [create_and_associate_package E ?a ?b ?c] =>
        destruct (create_and_associate_package E a b c) as [id|e]
    end; [|discriminate].
    intros H. injection H as <- <-. simpl.
    now rewrite dict_get_set_eq.
Qed.

Lemma handle_packages_idempotent_witness :
  let E := Example.env Example.strict in
  exists v w1,
    _handle_packages E "filter_stop" (PStr "lang/stopwords_en.txt") World_init
      = (Ok v, w1) /\
    _handle_packages E "filter_stop" (PStr "lang/stopwords_en.txt") w1
      = (Ok v, w1).
Proof.
  do 2 eexists. split; [vm_compute; reflexivity|].
  eapply (handle_packages_idempotent (Example.env Example.strict)
            "filter_stop" (PStr "lang/stopwords_en.txt") World_init).
  vm_compute. reflexivity.
Defined.

(** X7.  A package that could not be made is not recorded, and what was
    done for it is not undone: when [_handle_packages] raises for a file
    name, the packages map is as before; either the source file could not
    be read and nothing changed at all, or the package file was written
    and the call was made, and both stay. *)
Theorem handle_packages_failure_keeps_file E n fname w e w' :
  _handle_packages E n (PStr fname) w = (Raise e, w') ->
  _packages_map w' = _packages_map w /\
  (w' = w \/
   exists name file data,
     package_files w' = (package_files w ++ [(file, data)])%list /\
     package_calls w' = (package_calls w ++ [(name, file)])%list /\
     create_and_associate_package E (package_calls w) name file = Raise e).
Proof.
  unfold _handle_packages, _create_package_file.
  unfold bind, gets, ret, lift, modify.
  match goal with
  | |- context [dict_get ?k (_packages_map w)] =>
      destruct (dict_get k (_packages_map w)) as [p|]
  end; [discriminate|].
  destruct (_get_file_data E n (PStr fname)) as [data|e0].
  - simpl.
    match goal with
    | |- context [create_and_associate_package E ?a ?b ?c] =>
        destruct (create_and_associate_package E a b c) as [id|e0] eqn:Hc
    end; [discriminate|].
    intros H. injection H as <- <-. simpl. split; auto. right.
    do 3 eexists. repeat split. exact Hc.
  - intros H. injection H as <- <-. auto.
Qed.

Lemma handle_packages_failure_keeps_file_witness :
  exists e w',
    _handle_packages no_packages_env "filter_stop"
      (PStr "lang/stopwords_en.txt") World_init = (Raise e, w') /\
    _packages_map w' = _packages_map World_init /\
    List.length (package_files w') = 1.
Proof.
  do 2 eexists. split; [vm_compute; reflexivity|].
  split; [|reflexivity].
  eapply (handle_packages_failure_keeps_file no_packages_env "filter_stop"
            "lang/stopwords_en.txt" World_init).
  vm_compute. reflexivity.
Defined.

(** ** The filter cache on failure *)

Lemma process_keys_same_filter_map E p attrs f n d w :
  same_filter_map w (snd (process_keys (process_mapping_key E p) attrs f n d w)).
Proof.
  apply (preserves_process_keys same_filter_map); unfold same_filter_map;
    try reflexivity; intros; simpl; congruence.
Qed.

(** X8.  A filter that could not be mapped is not cached, and a failure of
    the package life cycle never leaves [_map_filter] as such: when
    [_map_filter] raises, the filter cache is as before and the exception
    is not an [OpenSearchMappingException] (it was wrapped into a
    [FilterMappingException]). *)
Theorem map_filter_failure_caches_nothing E f w e w' :
  _map_filter E f w = (Raise e, w') ->
  _filter_map w' = _filter_map w /\ is_opensearch_exn e = false.
Proof.
  unfold _map_filter, _process_filter_mapping_key.
  unfold bind at 1. unfold lift at 1.
  destruct (_get_filter_name f) as [n|e0] eqn:Hn.
  - unfold try_except.
    destruct (dict_get n (_filter_mapping E)) as [spec|].
    + unfold bind at 1. unfold gets at 1.
      destruct (dict_get (n ++ get_hash f) (_filter_map w)) as [tf|];
        [intros H; discriminate H|].
      unfold bind at 1. unfold lift at 1.
      destruct (as_dict f) as [cfg|e0] eqn:Hcfg.
      * unfold bind at 1.
        pose proof (process_keys_same_filter_map E "filter_"
                      (spec_attrs spec) cfg n [] w) as Hp.
        destruct (process_keys _ _ _ _ _ w) as [[d|e0] w2]; simpl in Hp.
        -- intros H. discriminate H.
        -- destruct e0; simpl; intros H; injection H as <- <-; auto.
      * destruct f; simpl in Hcfg; try discriminate Hcfg;
          injection Hcfg as <-; simpl; intros H; injection H as <- <-; auto.
    + simpl. intros H. injection H as <- <-. auto.
  - intros H. injection H as <- <-.
    destruct (get_filter_name_py_only _ _ Hn) as (k & m & ->). auto.
Qed.

Lemma map_filter_failure_caches_nothing_witness :
  exists e w',
    _map_filter no_packages_env stop_words_filter World_init = (Raise e, w') /\
    _filter_map w' = [] /\ is_opensearch_exn e = false.
Proof.
  do 2 eexists. split; [vm_compute; reflexivity|].
  eapply (map_filter_failure_caches_nothing no_packages_env stop_words_filter
            World_init).
  vm_compute. reflexivity.
Defined.

(** ** Names and tables *)

Lemma dict_mem_fold_lower {V} (d : dict V) : forall acc k',
  dict_mem k' acc = true \/
  (exists k, In k (dict_keys d) /\ PyStr.lower k = k') ->
  dict_mem k'
    (fold_left (fun acc kv => dict_set (PyStr.lower (fst kv)) (snd kv) acc) d acc)
  = true.
Proof.
  induction d as [|[k0 v0] d IH]; intros acc k' H; simpl.
  - destruct H as [H|(k & [] & _)]. exact H.
  - apply IH. destruct H as [H|(k & [Hk|Hk] & Hl)].
    + left. rewrite dict_mem_set, H. apply orb_true_r.
    + left. simpl in Hk. subst k0. rewrite dict_mem_set, Hl, String.eqb_refl.
      reflexivity.
    + right. exists k. auto.
Qed.

Lemma lower_keys_mem {V} (d : dict V) k :
  In k (dict_keys d) -> dict_mem (PyStr.lower k) (lower_keys d) = true.
Proof. intros H. apply dict_mem_fold_lower. right. eauto. Qed.

(** X9.  Filter names are matched without regard to case: a filter given
    by a name that equals a key of the filter table up to case resolves
    to a name that the loaded table has. *)
Theorem filter_lookup_ignores_case E cfg s k :
  py_get "name" cfg = PStr s ->
  In k (dict_keys (filter_mapping_json E)) ->
  PyStr.lower s = PyStr.lower k ->
  exists spec,
    _get_filter_name (PDict cfg) = Ok (PyStr.lower s) /\
    dict_get (PyStr.lower s) (_filter_mapping E) = Some spec.
Proof.
  intros Hname Hin Hl.
  pose proof (lower_keys_mem (filter_mapping_json E) k Hin) as Hm.
  unfold dict_mem in Hm. rewrite <- Hl in Hm.
  unfold _filter_mapping.
  destruct (dict_get (PyStr.lower s) (lower_keys (filter_mapping_json E)))
    as [spec|]; [|discriminate Hm].
  exists spec. split; auto.
  unfold _get_filter_name. simpl. now rewrite Hname.
Qed.

Lemma filter_lookup_ignores_case_witness :
  exists spec,
    _get_filter_name stop_words_filter = Ok "stop" /\
    dict_get "stop" (_filter_mapping (Example.env Example.strict)) = Some spec.
Proof.
  apply (filter_lookup_ignores_case (Example.env Example.strict)
           [("name", PStr "Stop"); ("words", PStr "lang/stopwords_en.txt")]
           "Stop" "stop").
  - reflexivity.
  - simpl. auto.
  - reflexivity.
Defined.

(** ** The binding of a field type *)

Lemma map_analyzer_same_bindings E ft w :
  same_bindings w (snd (map_analyzer E ft w)).
Proof.
  apply (preserves_map_analyzer same_bindings); unfold same_bindings;
    try reflexivity; intros; simpl; congruence.
Qed.

(** X10.  When a field type is bound to its data type.  For a field type
    with a name and a class, [map_field_type_analyzer] binds the name to
    the table's data type of the class (to nothing, when the table has no
    entry) if the analyzers were mapped; if they failed with an
    [AnalyzerMappingException], it does so only under
    [skip_text_analysis_failure]; after any other failure the bindings
    are as before. *)
Theorem field_type_binding E ft n c w :
  index_str "name" ft = Ok n ->
  index_str "class" ft = Ok c ->
  _field_types_map (snd (map_field_type_analyzer E (PDict ft) w)) =
  let bound :=
    dict_set n (dict_get c (field_data_types_mapping E)) (_field_types_map w) in
  match fst (map_analyzer E ft w) with
  | Ok _ => bound
  | Raise (AnalyzerMappingException _ _ _ _) =>
      if skip_text_analysis_failure (migration_config E)
      then bound else _field_types_map w
  | Raise _ => _field_types_map w
  end.
Proof.
  intros Hn Hc.
  pose proof (map_analyzer_same_bindings E ft w) as Hft.
  unfold same_bindings in Hft.
  unfold map_field_type_analyzer, _map_field_data_type.
  unfold bind, lift, try_except, modify, raise, ret, res_bind.
  rewrite Hn, Hc. simpl.
  destruct (map_analyzer E ft w) as [[l|e] w1]; simpl in *.
  - now rewrite Hft.
  - destruct e; simpl; auto.
    destruct (skip_text_analysis_failure (migration_config E)); simpl; auto.
    now rewrite Hft.
Qed.

Lemma field_type_binding_witness :
  _field_types_map
    (snd (map_field_type_analyzer (Example.env Example.lenient)
            Example.text_ja World_init))
  = [("text_ja", Some "text")].
Proof.
  eapply eq_trans.
  - apply (field_type_binding (Example.env Example.lenient)
             [ ("name", PStr "text_ja"); ("class", PStr "solr.TextField");
               ("analyzer",
                PDict [ ("tokenizer",
                         PDict [("class", PStr "solr.JapaneseTokenizerFactory")]);
                        ("filters",
                         PList [PDict [("class", PStr "solr.LowerCaseFilterFactory")]]) ]) ]
             "text_ja" "solr.TextField" World_init); reflexivity.
  - vm_compute. reflexivity.
Defined.

(** ** Dictionaries without repeated keys *)

Section DictKeys.
Variable V : Type.
Implicit Types (d : dict V) (k : string).

Lemma dict_get_none k d : dict_get k d = None <-> ~ In k (dict_keys d).
Proof.
  induction d as [|[k' v'] d IH]; simpl.
  - tauto.
  - destruct (String.eqb k k') eqn:Hk.
    + apply String.eqb_eq in Hk. subst. split; [discriminate|tauto].
    + apply String.eqb_neq in Hk. rewrite IH. split.
      * intros H [H1|H1]; [congruence|tauto].
      * tauto.
Qed.

Lemma dict_keys_set k v d k' :
  In k' (dict_keys (dict_set k v d)) <-> k' = k \/ In k' (dict_keys d).
Proof.
  induction d as [|[k0 v0] d IH]; simpl.
  - intuition.
  - destruct (String.eqb k k0) eqn:Hk; simpl.
    + apply String.eqb_eq in Hk. subst. intuition.
    + rewrite IH. intuition.
Qed.

Lemma dict_keys_pop k d k' :
  In k' (dict_keys (dict_pop k d)) -> In k' (dict_keys d).
Proof.
  induction d as [|[k0 v0] d IH]; simpl; auto.
  destruct (String.eqb k k0); simpl; intuition.
Qed.

Lemma nodup_dict_set k v d :
  NoDup (dict_keys d) -> NoDup (dict_keys (dict_set k v d)).
Proof.
  induction d as [|[k0 v0] d IH]; simpl; intros H.
  - constructor; [tauto|constructor].
  - inversion H as [|? ? Hnotin Hnd]; subst.
    destruct (String.eqb k k0) eqn:Hk; simpl.
    + constructor; auto.
    + apply String.eqb_neq in Hk. constructor; auto.
      rewrite dict_keys_set. intros [H1|H1]; [congruence|tauto].
Qed.

Lemma nodup_dict_pop k d :
  NoDup (dict_keys d) -> NoDup (dict_keys (dict_pop k d)).
Proof.
  induction d as [|[k0 v0] d IH]; simpl; intros H; auto.
  inversion H as [|? ? Hnotin Hnd]; subst.
  destruct (String.eqb k k0); simpl; auto.
  constructor; auto. intros H1. apply Hnotin. eapply dict_keys_pop; eauto.
Qed.

Lemma dict_get_pop_eq k d :
  NoDup (dict_keys d) -> dict_get k (dict_pop k d) = None.
Proof.
  induction d as [|[k0 v0] d IH]; simpl; intros H; auto.
  inversion H as [|? ? Hnotin Hnd]; subst.
  destruct (String.eqb k k0) eqn:Hk; simpl.
  - apply String.eqb_eq in Hk. subst. now apply dict_get_none.
  - rewrite Hk. auto.
Qed.

Lemma dict_get_pop_neq k k' d :
  k <> k' -> dict_get k (dict_pop k' d) = dict_get k d.
Proof.
  intros Hne. induction d as [|[k0 v0] d IH]; simpl; auto.
  destruct (String.eqb k' k0) eqn:Hk; simpl.
  - apply String.eqb_eq in Hk. subst k0.
    apply String.eqb_neq in Hne. now rewrite Hne.
  - now rewrite IH.
Qed.

Lemma dict_get_pop_none k k' d :
  dict_get k d = None -> dict_get k (dict_pop k' d) = None.
Proof.
  rewrite !dict_get_none. intros H H1. apply H. eapply dict_keys_pop; eauto.
Qed.
End DictKeys.

(** ** Fields *)

Lemma nodup_project_attrs E sf : forall init,
  NoDup (dict_keys init) -> NoDup (dict_keys (project_attrs E sf init)).
Proof.
  unfold project_attrs.
  induction sf as [|[k v] sf IH]; intros init H; simpl; auto.
  apply IH. destruct (dict_get k (attributes_mapping E)); auto.
  now apply nodup_dict_set.
Qed.

Lemma nodup_setup_analyzers attrs ty w :
  NoDup (dict_keys attrs) -> NoDup (dict_keys (_setup_analyzers attrs ty w)).
Proof.
  intros H. unfold _setup_analyzers.
  repeat match goal with
         | |- context [if ?b then _ else _] => destruct b
         end; repeat apply nodup_dict_set; auto.
Qed.

Lemma setup_analyzers_keeps attrs ty w k :
  k <> "analyzer" -> k <> "search_analyzer" ->
  dict_get k (_setup_analyzers attrs ty w) = dict_get k attrs.
Proof.
  intros H1 H2. unfold _setup_analyzers.
  repeat match goal with
         | |- context [if ?b then _ else _] => destruct b
         end; rewrite ?dict_get_set_neq; auto.
Qed.

Lemma cleanup_keeps attrs ft k :
  k <> "index" -> k <> "store" -> k <> "doc_values" ->
  dict_get k (_cleanup_field_attrs attrs ft) = dict_get k attrs.
Proof.
  intros H1 H2 H3. unfold _cleanup_field_attrs.
  repeat match goal with
         | |- context [if ?b then _ else _] => destruct b
         end; rewrite ?dict_get_pop_neq; auto.
Qed.

(** What [map_field] computes for a field with a name and a type. *)
Lemma map_field_run E sf name ty w :
  index_str "name" sf = Ok name ->
  index_str "type" sf = Ok ty ->
  map_field E (PDict sf) w =
  match get_field_type ty w with
  | None => (Raise (FieldMappingException name MAPPING_NOT_FOUND (Some ty)), w)
  | Some ft =>
      (Ok (name,
           _cleanup_field_attrs
             (_setup_analyzers
                (dict_set "type" (PStr ft) (project_attrs E sf [])) ty w) ft), w)
  end.
Proof.
  intros Hn Ht. unfold map_field, bind, lift, gets, try_except, raise, ret.
  rewrite Hn, Ht. destruct (get_field_type ty w); reflexivity.
Qed.

(** X11.  What [map_field] does for a field with a name and a type.  It
    never changes the state.  If the type is not bound, it raises a
    [FieldMappingException] with the field's name, the message of a
    missing mapping and the type.  If the type is bound, it returns the
    field's name with attributes whose [type] is the bound data type:
    nothing projected from the source attributes and nothing done for the
    analyzers replaces it. *)
Theorem map_field_outcome E sf name ty w :
  index_str "name" sf = Ok name ->
  index_str "type" sf = Ok ty ->
  match get_field_type ty w with
  | None =>
      map_field E (PDict sf) w =
      (Raise (FieldMappingException name MAPPING_NOT_FOUND (Some ty)), w)
  | Some ft =>
      exists attrs,
        map_field E (PDict sf) w = (Ok (name, attrs), w) /\
        dict_get "type" attrs = Some (PStr ft)
  end.
Proof.
  intros Hn Ht. rewrite (map_field_run E sf name ty w Hn Ht).
  destruct (get_field_type ty w) as [ft|]; [|reflexivity].
  eexists. split; [reflexivity|].
  rewrite cleanup_keeps by discriminate.
  rewrite setup_analyzers_keeps by discriminate.
  apply dict_get_set_eq.
Qed.

Lemma map_field_outcome_witness :
  exists attrs,
    map_field geo_env geo_field geo_world = (Ok ("area", attrs), geo_world) /\
    dict_get "type" attrs = Some (PStr "geo_shape").
Proof.
  apply (map_field_outcome geo_env
           [ ("name", PStr "area"); ("type", PStr "location");
             ("indexed", PBool true); ("stored", PBool true);
             ("docValues", PBool true) ]
           "area" "location" geo_world); reflexivity.
Defined.

(** X12.  Index options that the target type does not take are dropped:
    a field mapped to a data type [nested] or [geo_shape] has no [index]
    and no [store] attribute, and one mapped to [geo_shape] has no
    [doc_values] either, whatever the source field said. *)
Theorem map_field_drops_index_options E sf w name attrs w' ty ft :
  map_field E (PDict sf) w = (Ok (name, attrs), w') ->
  index_str "type" sf = Ok ty ->
  get_field_type ty w = Some ft ->
  (ft = "nested" \/ ft = "geo_shape" ->
   dict_get "index" attrs = None /\ dict_get "store" attrs = None) /\
  (ft = "geo_shape" -> dict_get "doc_values" attrs = None).
Proof.
  intros Hrun Ht Hft.
  destruct (index_str "name" sf) as [n|e] eqn:Hn.
  2:{ unfold map_field, bind, lift in Hrun. rewrite Hn in Hrun. discriminate. }
  rewrite (map_field_run E sf n ty w Hn Ht), Hft in Hrun.
  injection Hrun as <- <- <-.
  set (a := _setup_analyzers _ ty w).
  assert (Hnd : NoDup (dict_keys a)).
  { apply nodup_setup_analyzers, nodup_dict_set, nodup_project_attrs. constructor. }
  unfold _cleanup_field_attrs. split.
  - intros [->| ->]; simpl; split.
    + apply dict_get_pop_none. apply dict_get_pop_eq; auto.
    + apply dict_get_pop_eq. now apply nodup_dict_pop.
    + do 2 apply dict_get_pop_none. apply dict_get_pop_eq; auto.
    + apply dict_get_pop_none. apply dict_get_pop_eq. now apply nodup_dict_pop.
  - intros ->. simpl. apply dict_get_pop_eq. now do 2 apply nodup_dict_pop.
Qed.

Lemma map_field_drops_index_options_witness :
  exists attrs,
    map_field geo_env geo_field geo_world = (Ok ("area", attrs), geo_world) /\
    dict_get "index" attrs = None /\ dict_get "store" attrs = None /\
    dict_get "doc_values" attrs = None.
Proof.
  eexists. split; [vm_compute; reflexivity|].
  destruct (map_field_drops_index_options geo_env
              [ ("name", PStr "area"); ("type", PStr "location");
                ("indexed", PBool true); ("stored", PBool true);
                ("docValues", PBool true) ]
              geo_world "area" _ geo_world "location" "geo_shape"
              eq_refl eq_refl eq_refl) as [H1 H2].
  destruct (H1 (or_intror eq_refl)) as [Hi Hs].
  split; [exact Hi|]. split; [exact Hs|]. exact (H2 eq_refl).
Defined.

Lemma truthy_suffix s c t : py_truthy (PStr (s ++ String c t)) = true.
Proof. destruct s; reflexivity. Qed.

(** X13.  Which analyzers a field gets.  For a field that is mapped, with
    source type [ty]: if the index under construction has the analyzer
    [ty_index], that is the field's [analyzer], also when [ty] itself is
    registered; if it has only [ty], that is the [analyzer]; and if it
    has [ty_query], that is the field's [search_analyzer]. *)
Theorem map_field_analyzers E sf w name attrs w' ty :
  map_field E (PDict sf) w = (Ok (name, attrs), w') ->
  index_str "type" sf = Ok ty ->
  (analyzer_registered (ty ++ "_index") w = true ->
   dict_get "analyzer" attrs = Some (PStr (ty ++ "_index"))) /\
  (analyzer_registered (ty ++ "_index") w = false ->
   analyzer_registered ty w = true -> ty <> EmptyString ->
   dict_get "analyzer" attrs = Some (PStr ty)) /\
  (analyzer_registered (ty ++ "_query") w = true ->
   dict_get "search_analyzer" attrs = Some (PStr (ty ++ "_query"))).
Proof.
  intros Hrun Ht.
  destruct (index_str "name" sf) as [n|e] eqn:Hn.
  2:{ unfold map_field, bind, lift in Hrun. rewrite Hn in Hrun. discriminate. }
  rewrite (map_field_run E sf n ty w Hn Ht) in Hrun.
  destruct (get_field_type ty w) as [ft|]; [|discriminate].
  injection Hrun as <- <- <-.
  assert (Hty : ty <> EmptyString -> py_truthy (PStr ty) = true).
  { intros Hne. simpl. destruct ty; [congruence|reflexivity]. }
  repeat split.
  - intros Hi. rewrite cleanup_keeps by discriminate.
    unfold _setup_analyzers. rewrite Hi. cbv beta iota zeta.
    rewrite !truthy_suffix.
    destruct (analyzer_registered (ty ++ "_query") w); cbv beta iota zeta;
      rewrite ?truthy_suffix.
    + rewrite dict_get_set_neq by discriminate. apply dict_get_set_eq.
    + apply dict_get_set_eq.
  - intros Hi Ha Hne. rewrite cleanup_keeps by discriminate.
    unfold _setup_analyzers. rewrite Hi, Ha. cbv beta iota zeta.
    rewrite (Hty Hne), ?truthy_suffix.
    destruct (analyzer_registered (ty ++ "_query") w); cbv beta iota zeta;
      rewrite ?truthy_suffix.
    + rewrite dict_get_set_neq by discriminate. apply dict_get_set_eq.
    + apply dict_get_set_eq.
  - intros Hq. rewrite cleanup_keeps by discriminate.
    unfold _setup_analyzers. rewrite Hq. cbv beta iota zeta.
    rewrite !truthy_suffix.
    apply dict_get_set_eq.
Qed.

Lemma map_field_analyzers_witness :
  exists attrs,
    map_field (Example.env Example.strict)
      (Example.field "title" "text_general") typed_world
    = (Ok ("title", attrs), typed_world) /\
    dict_get "analyzer" attrs = Some (PStr "text_general_index") /\
    dict_get "search_analyzer" attrs = Some (PStr "text_general_query").
Proof.
  eexists. split; [vm_compute; reflexivity|].
  edestruct (map_field_analyzers (Example.env Example.strict)
               [ ("name", PStr "title"); ("type", PStr "text_general");
                 ("stored", PBool true) ]
               typed_world)
    as (H1 & _ & H3).
  - vm_compute. reflexivity.
  - reflexivity.
  - split; [apply H1|apply H3]; vm_compute; reflexivity.
Defined.

(** ** Dynamic fields *)

Lemma fold_set_get (attrs : dict pyval) k : forall init,
  NoDup (dict_keys attrs) ->
  dict_get k (fold_left (fun m kv => dict_set (fst kv) (snd kv) m) attrs init) =
  match dict_get k attrs with
  | Some v => Some v
  | None => dict_get k init
  end.
Proof.
  induction attrs as [|[k0 v0] attrs IH]; intros init Hnd; simpl; auto.
  inversion Hnd as [|? ? Hnotin Hnd']; subst.
  rewrite IH by assumption.
  destruct (String.eqb k k0) eqn:Hk.
  - apply String.eqb_eq in Hk. subst k0.
    apply dict_get_none in Hnotin. rewrite Hnotin. apply dict_get_set_eq.
  - apply String.eqb_neq in Hk. now rewrite dict_get_set_neq.
Qed.

(** X14.  What [map_dynamic_field] does for a dynamic field with a name
    and a type.  It never changes the state.  If the type is not bound,
    it raises a [DynamicFieldMappingException] with the pattern, the
    message of a missing mapping and the type.  If it is bound, the
    result is one template under the pattern, matching the pattern; its
    mapping has the bound data type as [type] unless the projection of
    the source attributes gives a [type] of its own, which then takes its
    place (for a field, the bound type always wins). *)
Theorem map_dynamic_field_outcome E sf pattern ty w :
  index_str "name" sf = Ok pattern ->
  index_str "type" sf = Ok ty ->
  match get_field_type ty w with
  | None =>
      map_dynamic_field E (PDict sf) w =
      (Raise (DynamicFieldMappingException pattern MAPPING_NOT_FOUND (Some ty)), w)
  | Some ft =>
      exists mapping,
        map_dynamic_field E (PDict sf) w =
        (Ok [(pattern, PDict [("match", PStr pattern);
                              ("mapping", PDict mapping)])], w) /\
        dict_get "type" mapping =
        match dict_get "type" (project_attrs E sf []) with
        | Some v => Some v
        | None => Some (PStr ft)
        end
  end.
Proof.
  intros Hn Ht. unfold map_dynamic_field, bind, lift, gets, try_except, raise, ret.
  rewrite Hn, Ht. destruct (get_field_type ty w) as [ft|]; [|reflexivity].
  eexists. split; [reflexivity|].
  assert (Hf : forall init,
             dict_get "type"
               (fold_left (fun m kv => dict_set (fst kv) (snd kv) m)
                  (project_attrs E sf []) init) =
             match dict_get "type" (project_attrs E sf []) with
             | Some v => Some v
             | None => dict_get "type" init
             end).
  { intros init. apply fold_set_get, nodup_project_attrs. constructor. }
  repeat match goal with
         | |- context [if ?b then _ else _] => destruct b
         end; rewrite ?dict_get_set_neq by discriminate; apply Hf.
Qed.

Lemma map_dynamic_field_outcome_witness :
  exists mapping,
    map_dynamic_field (Example.env Example.strict)
      (Example.field "*_txt" "text_general") typed_world
    = (Ok [("*_txt", PDict [("match", PStr "*_txt");
                            ("mapping", PDict mapping)])], typed_world) /\
    dict_get "type" mapping = Some (PStr "text").
Proof.
  assert (Hb : get_field_type "text_general" typed_world = Some "text")
    by (vm_compute; reflexivity).
  pose proof (map_dynamic_field_outcome (Example.env Example.strict)
                [ ("name", PStr "*_txt"); ("type", PStr "text_general");
                  ("stored", PBool true) ]
                "*_txt" "text_general" typed_world eq_refl eq_refl) as H.
  rewrite Hb in H. exact H.
Defined.

(** ** Copy fields and the index *)

Lemma same_but_copy_to_refl def : same_but_copy_to def def.
Proof. intros k _. reflexivity. Qed.

Lemma same_but_copy_to_trans d1 d2 d3 :
  same_but_copy_to d1 d2 -> same_but_copy_to d2 d3 -> same_but_copy_to d1 d3.
Proof. intros H1 H2 k Hk. rewrite H2, H1; auto. Qed.

Lemma same_but_copy_to_set def v :
  same_but_copy_to def (dict_set "copy_to" v def).
Proof. intros k Hk. now apply dict_get_set_neq. Qed.

Lemma same_but_copy_to_extend def dst :
  same_but_copy_to def (extend_copy_to dst def).
Proof.
  unfold extend_copy_to.
  destruct (dict_get "copy_to" def) as [[]|]; apply same_but_copy_to_set.
Qed.

(** What a call of [map_copy_field] answers and keeps: a failure leaves
    the helper as it is; a success replaces the definition of the source,
    and the destination's definition it returns is the one it keeps. *)
Lemma map_copy_field_shape c h :
  match map_copy_field c h with
  | (Raise _, h') => h' = h
  | (Ok r, h') =>
      exists src_def,
        dict_get (cf_src r) (_all_fields h) = Some src_def /\
        same_but_copy_to src_def (cf_src_def r) /\
        _all_fields h' = dict_set (cf_src r) (cf_src_def r) (_all_fields h) /\
        dict_get (cf_dst r) (_all_fields h') = Some (cf_dst_def r)
  end.
Proof.
  unfold map_copy_field.
  match goal with
  | |- context [match ?x with Ok _ => _ | Raise _ => _ end] =>
      destruct x as [[src dst]|e]
  end; [|reflexivity].
  destruct (dict_get src (_all_fields h)) as [src_def|] eqn:Hs; [|reflexivity].
  destruct (dict_get dst (_all_fields h)) as [dst_def|] eqn:Hd; [|reflexivity].
  destruct (dict_get src (_field_copy_to h)) as [dsts|]; simpl;
    exists src_def; (split; [exact Hs|]);
    (split; [first [apply same_but_copy_to_extend|apply same_but_copy_to_set]|]);
    (split; [reflexivity|]);
    (destruct (String.eqb src dst) eqn:Hsd;
     [apply String.eqb_eq in Hsd; subst dst; apply dict_get_set_eq
     |apply String.eqb_neq in Hsd; rewrite dict_get_set_neq; auto]).
Qed.

Lemma map_copy_field_step c h s def' :
  dict_get s (_all_fields (snd (map_copy_field c h))) = Some def' ->
  exists def, dict_get s (_all_fields h) = Some def /\ same_but_copy_to def def'.
Proof.
  pose proof (map_copy_field_shape c h) as Hshape.
  destruct (map_copy_field c h) as [[r|e] h']; simpl.
  - destruct Hshape as (src_def & Hsrc & Hsame & Hall & _). rewrite Hall.
    destruct (String.eqb s (cf_src r)) eqn:Hs.
    + apply String.eqb_eq in Hs. subst s. rewrite dict_get_set_eq.
      intros H. injection H as <-. eauto.
    + apply String.eqb_neq in Hs. rewrite dict_get_set_neq by assumption.
      intros H. exists def'. split; auto. apply same_but_copy_to_refl.
  - subst h'. intros H. exists def'. split; auto. apply same_but_copy_to_refl.
Qed.

Lemma run_copy_fields_steps cs s : forall h def',
  dict_get s (_all_fields (run_copy_fields cs h)) = Some def' ->
  exists def, dict_get s (_all_fields h) = Some def /\ same_but_copy_to def def'.
Proof.
  induction cs as [|c cs IH]; intros h def' H; simpl in H.
  - exists def'. split; auto. apply same_but_copy_to_refl.
  - destruct (IH _ _ H) as (d1 & H1 & S1).
    destruct (map_copy_field_step _ _ _ _ H1) as (d0 & H0 & S0).
    exists d0. split; auto. eapply same_but_copy_to_trans; eauto.
Qed.

(** X15.  Copy fields touch nothing but the [copy_to] of their sources.
    After any list of copy-field entries, run on the field definitions
    [F]: the fields are the same ones; a field that is the source of no
    entry with both ends among the fields has the definition it had; and
    any field's definition agrees with the one it had on every attribute
    other than [copy_to]. *)
Theorem copy_fields_touch_only_copy_to (F : dict (dict pyval)) (cs : list pyval)
    (s : string) :
  let h := run_copy_fields cs (CopyFieldHelper_init F) in
  dict_mem s (_all_fields h) = dict_mem s F /\
  (destinations F s cs = [] -> dict_get s (_all_fields h) = dict_get s F) /\
  (forall def', dict_get s (_all_fields h) = Some def' ->
     exists def, dict_get s F = Some def /\ same_but_copy_to def def').
Proof.
  intros h.
  pose proof (run_copy_fields_inv F cs _ _ (copy_inv_init F)) as Hinv.
  simpl in Hinv. fold h in Hinv.
  split; [apply (inv_keys _ _ _ Hinv)|]. split.
  - intros Hd. apply (inv_untouched _ _ _ Hinv). now rewrite Hd.
  - intros def' H. apply (run_copy_fields_steps cs s _ _ H).
Qed.

Lemma dict_set_same {V} k (v : V) d :
  dict_get k d = Some v -> dict_set k v d = d.
Proof.
  induction d as [|[k0 v0] d IH]; simpl; [discriminate|].
  destruct (String.eqb k k0) eqn:Hk.
  - intros H. injection H as ->. reflexivity.
  - intros H. now rewrite IH.
Qed.

Lemma migrate_copy_fields_index cs : forall h w,
  index_fields w = _all_fields h ->
  index_fields (snd (migrate_copy_fields cs h w))
  = _all_fields (run_copy_fields cs h).
Proof.
  induction cs as [|c cs IH]; intros h w Hw; simpl; auto.
  pose proof (map_copy_field_shape c h) as Hshape.
  unfold bind, report, modify, add_field.
  destruct (map_copy_field c h) as [[r|e] h']; simpl.
  - destruct Hshape as (src_def & _ & _ & Hall & Hdst).
    apply IH. simpl. rewrite Hw, <- Hall. now apply dict_set_same.
  - subst h'. apply IH. simpl. exact Hw.
Qed.

(** X16.  The copy-field phase publishes what the helper holds: started,
    as [migrate_schema] starts it, on the fields of the index under
    construction, [_migrate_copy_fields] leaves the index with exactly the
    field definitions of the helper after all the entries, failed entries
    included (they change neither). *)
Theorem copy_fields_published E w :
  index_fields (snd (_migrate_copy_fields E (index_fields w) w))
  = _all_fields
      (run_copy_fields (copyFields (read_schema E))
         (CopyFieldHelper_init (index_fields w))).
Proof.
  unfold _migrate_copy_fields. now apply migrate_copy_fields_index.
Qed.

(** ** A page that is not JSON *)

Lemma export_batch_json_error X bf st text m :
  next_response X st = Ok text ->
  json_loads X (_fix_binary_fields_in_json text bf) = Raise (JSONDecodeError m) ->
  export_batch X bf st = (json_error m (requested st), true).
Proof.
  intros Hr Hj. unfold export_batch. rewrite send_request_eq, Hr, Hj.
  reflexivity.
Qed.

(** X17.  A page that cannot be parsed is asked for again, for ever.  If
    the loop test holds, the source answers the page query for the
    current cursor with the same text whenever it is asked, and that text
    (after the repair of binary fields) is rejected by the JSON reader,
    then no number of iterations ends the loop: after [fuel] iterations
    the loop is still running, the same cursor was sent [fuel] times,
    nothing was exported and [fuel] errors were reported. *)
Theorem export_unparsable_page_never_ends X bf total text m fuel : forall st,
  below_cap X total st ->
  (forall k, solr_select X k (cursor_mark st) (rows_per_page (data_config X))
             = Ok text) ->
  json_loads X (_fix_binary_fields_in_json text bf) = Raise (JSONDecodeError m) ->
  exists st',
    export_pages X fuel total bf st = (st', false) /\
    cursor_mark st' = cursor_mark st /\
    exported_docs st' = exported_docs st /\
    page_requests st' = (page_requests st ++ repeat (cursor_mark st) fuel)%list /\
    batch_count st' = batch_count st + fuel /\
    data_migration_errors (export_report st')
    = data_migration_errors (export_report st) + fuel.
Proof.
  induction fuel as [|fuel IH]; intros st Hcap Hsel Hbad.
  - exists st. simpl. unfold below_cap in Hcap. apply Z.ltb_lt in Hcap.
    rewrite Hcap, app_nil_r. repeat split; lia.
  - rewrite (export_pages_step X fuel total bf st Hcap).
    rewrite (export_batch_json_error X bf st text m (Hsel _) Hbad).
    destruct (IH (json_error m (requested st))) as (st' & Hrun & Hc & He & Hp & Hb & Hn).
    + exact Hcap.
    + exact Hsel.
    + exact Hbad.
    + exists st'. split; [exact Hrun|]. simpl in *.
      rewrite Hc, He, Hp, Hb, Hn, <- app_assoc. simpl.
      repeat split; lia.
Qed.

Lemma export_unparsable_page_never_ends_witness :
  exists st',
    export_pages gateway_env 7 1200 [] (ExportState_init Report_init) = (st', false) /\
    page_requests st' = repeat (PStr "*") 7 /\
    data_migration_errors (export_report st') = 7.
Proof.
  destruct (export_unparsable_page_never_ends gateway_env [] 1200
              "<html>502 Bad Gateway</html>" "Expecting value" 7
              (ExportState_init Report_init))
    as (st' & Hrun & _ & _ & Hp & _ & Hn).
  - unfold below_cap. simpl. lia.
  - intros k. reflexivity.
  - vm_compute. reflexivity.
  - exists st'. split; [exact Hrun|]. split; [exact Hp|exact Hn].
Defined.

(** ** What the export loop adds up *)

Lemma stored_docs_app a b : stored_docs (a ++ b) = (stored_docs a + stored_docs b)%Z.
Proof. induction a as [|o a IH]; simpl; [reflexivity|]. rewrite IH. lia. Qed.

Lemma export_progress_refl st : export_progress st st [] [].
Proof.
  constructor; simpl; rewrite ?app_nil_r; auto; lia.
Qed.

Lemma export_progress_trans st1 st2 st3 r1 o1 r2 o2 :
  export_progress st1 st2 r1 o1 -> export_progress st2 st3 r2 o2 ->
  export_progress st1 st3 (r1 ++ r2) (o1 ++ o2).
Proof.
  intros [A1 A2 A3 A4 A5 A6] [B1 B2 B3 B4 B5 B6]. constructor.
  - now rewrite B1, A1, app_assoc.
  - rewrite B2, A2, length_app. lia.
  - now rewrite B3, A3, app_assoc.
  - rewrite !length_app. lia.
  - apply Forall_app. auto.
  - rewrite B6, A6, stored_docs_app. lia.
Qed.

(** The handler of the loop tells a [JSONDecodeError] from every other
    exception. *)
Lemma json_decode_cases (e : exn) :
  (exists m, e = JSONDecodeError m) \/
  (forall (A : Type) (f : string -> A) (g : A),
      match e with
      | PyError "JSONDecodeError" m => f m
      | _ => g
      end = g).
Proof.
  destruct e; try (right; reflexivity).
  destruct (String.eqb kind "JSONDecodeError") eqn:Hk.
  - apply String.eqb_eq in Hk. subst kind. left. eexists. reflexivity.
  - right. intros A f g. revert Hk.
    repeat match goal with
           | |- _ -> match ?s with EmptyString => _ | String _ _ => _ end = _ =>
               destruct s as [|[[|] [|] [|] [|] [|] [|] [|] [|]] ?];
               try reflexivity; try discriminate
           end.
Qed.

Lemma store_batch_progress X batch st st' b :
  store_batch X batch st = (st', b) ->
  exists objs,
    page_requests st' = page_requests st /\
    batch_count st' = batch_count st /\
    s3_objects st' = (s3_objects st ++ objs)%list /\
    List.length objs <= 1 /\
    Forall (fun o => py_truthy (snd o) = true) objs /\
    exported_docs st' = (exported_docs st + stored_docs objs)%Z.
Proof.
  unfold store_batch.
  assert (Hnone : forall s, s = st' ->
            page_requests s = page_requests st ->
            batch_count s = batch_count st ->
            s3_objects s = s3_objects st ->
            exported_docs s = exported_docs st ->
            exists objs,
              page_requests st' = page_requests st /\
              batch_count st' = batch_count st /\
              s3_objects st' = (s3_objects st ++ objs)%list /\
              List.length objs <= 1 /\
              Forall (fun o => py_truthy (snd o) = true) objs /\
              exported_docs st' = (exported_docs st + stored_docs objs)%Z).
  { intros s <- H1 H2 H3 H4. exists []. rewrite app_nil_r. simpl.
    repeat split; auto. lia. }
  destruct (res_bind (py_index "response" batch) (py_index "docs")) as [docs|e].
  2:{ intros H. injection H as <- <-. eapply Hnone; reflexivity. }
  destruct (py_truthy docs) eqn:Ht; simpl.
  2:{ intros H. injection H as <- <-. eapply Hnone; reflexivity. }
  destruct (put_object X (s3_key X st) docs) as [u|e].
  2:{ intros H. injection H as <- <-. eapply Hnone; reflexivity. }
  assert (Hone : forall s, s = st' ->
            page_requests s = page_requests st ->
            batch_count s = batch_count st ->
            s3_objects s = (s3_objects st ++ [(s3_key X st, docs)])%list ->
            exported_docs s = (exported_docs st + docs_len docs)%Z ->
            exists objs,
              page_requests st' = page_requests st /\
              batch_count st' = batch_count st /\
              s3_objects st' = (s3_objects st ++ objs)%list /\
              List.length objs <= 1 /\
              Forall (fun o => py_truthy (snd o) = true) objs /\
              exported_docs st' = (exported_docs st + stored_docs objs)%Z).
  { intros s <- H1 H2 H3 H4. exists [(s3_key X st, docs)]. simpl.
    repeat split; auto. rewrite H4. lia. }
  unfold docs_len in Hone.
  destruct (py_len docs) as [n|e].
  2:{ intros H. injection H as <- <-. eapply Hone; try reflexivity. simpl. lia. }
  destruct batch as [| | | | |d].
  6:{ simpl. destruct (py_eq (py_get "nextCursorMark" d) (cursor_mark st));
      intros H; injection H as <- <-; eapply Hone; reflexivity. }
  all: intros H; injection H as <- <-; eapply Hone; reflexivity.
Qed.

Lemma export_batch_progress X bf st st' b :
  export_batch X bf st = (st', b) ->
  exists objs, export_progress st st' [cursor_mark st] objs.
Proof.
  unfold export_batch. rewrite send_request_eq.
  assert (Hnone : forall s, s = st' ->
            page_requests s = page_requests (requested st) ->
            batch_count s = batch_count (requested st) ->
            s3_objects s = s3_objects st ->
            exported_docs s = exported_docs st ->
            exists objs, export_progress st st' [cursor_mark st] objs).
  { intros s <- H1 H2 H3 H4. exists []. constructor; simpl; auto.
    - rewrite H2. simpl. lia.
    - now rewrite app_nil_r.
    - lia. }
  destruct (next_response X st) as [text|e].
  2:{ intros H. injection H as <- <-. eapply Hnone; reflexivity. }
  destruct (json_loads X (_fix_binary_fields_in_json text bf)) as [batch|e].
  - intros H.
    destruct (store_batch_progress _ _ _ _ _ H) as (objs & H1 & H2 & H3 & H4 & H5 & H6).
    exists objs. constructor; simpl in *; auto. rewrite H2. lia.
  - destruct (json_decode_cases e) as [(m & ->)|Hother].
    + intros H. injection H as <- <-. eapply Hnone; reflexivity.
    + rewrite Hother. intros H. injection H as <- <-. eapply Hnone; reflexivity.
Qed.

Lemma export_pages_progress X total bf fuel : forall st st' b,
  export_pages X fuel total bf st = (st', b) ->
  exists reqs objs, export_progress st st' reqs objs.
Proof.
  induction fuel as [|fuel IH]; intros st st' b; simpl.
  - destruct (exported_docs st <? Z.min total (max_rows (data_config X)))%Z;
      intros H; injection H as <- <-; exists [], []; apply export_progress_refl.
  - destruct (exported_docs st <? Z.min total (max_rows (data_config X)))%Z.
    + destruct (export_batch X bf st) as [st1 [|]] eqn:Hb;
        destruct (export_batch_progress _ _ _ _ _ Hb) as (o1 & P1).
      * intros H. destruct (IH _ _ _ H) as (r2 & o2 & P2).
        do 2 eexists. eapply export_progress_trans; eauto.
      * intros H. injection H as <- <-. eauto.
    + intros H; injection H as <- <-; exists [], []; apply export_progress_refl.
Qed.

(** X18.  What the report of a finished export says.  When
    [_export_regular_data] returns, the report has the migration of data
    enabled; its number of batches is the number of page queries sent,
    answered or not; at most one object was stored per query, none of
    them empty; and its number of exported documents is the number of
    documents in the stored objects. *)
Theorem export_report_accounts X fuel r st :
  _export_regular_data X fuel r = Some (Ok tt, st) ->
  data_migration_enabled (export_report st) = true /\
  data_migration_batches (export_report st) = List.length (page_requests st) /\
  List.length (s3_objects st) <= List.length (page_requests st) /\
  Forall (fun o => py_truthy (snd o) = true) (s3_objects st) /\
  data_migration_docs_exported (export_report st) = stored_docs (s3_objects st).
Proof.
  unfold _export_regular_data.
  destruct (_get_binary_fields X r) as [bf r1].
  destruct (read_total_docs X) as [total|e]; [|discriminate].
  destruct (export_pages X fuel total bf (ExportState_init r1)) as [st1 [|]] eqn:Hrun;
    [|discriminate].
  destruct (export_pages_progress _ _ _ _ _ _ _ Hrun) as (reqs & objs & [P1 P2 P3 P4 P5 P6]).
  simpl in *. intros H. injection H as <-. simpl.
  rewrite P1, P2, P3, P6. repeat split; auto.
Qed.

Lemma export_report_accounts_witness :
  exists st,
    _export_regular_data Paging.env 5 Report_init = Some (Ok tt, st) /\
    data_migration_batches (export_report st) = 2 /\
    data_migration_docs_exported (export_report st) = 1000%Z.
Proof.
  eexists. split; [vm_compute; reflexivity|].
  edestruct (export_report_accounts Paging.env 5 Report_init)
    as (_ & Hb & _ & _ & Hd).
  - vm_compute. reflexivity.
  - split; [rewrite Hb|rewrite Hd]; vm_compute; reflexivity.
Defined.

(** ** The errors of an export *)

Lemma errors_listed_add m r :
  errors_listed r -> errors_listed (add_data_migration_error m r).
Proof.
  unfold errors_listed, add_data_migration_error. simpl. intros ->.
  rewrite length_app. simpl. lia.
Qed.

Lemma errors_listed_stats en total exported batches r :
  errors_listed r ->
  errors_listed (update_data_migration_stats en total exported batches r).
Proof. unfold errors_listed. simpl. auto. Qed.

Lemma errors_listed_binary_fields X r :
  errors_listed r -> errors_listed (snd (_get_binary_fields X r)).
Proof.
  intros H. unfold _get_binary_fields, binary_fields_error.
  destruct (export_schema X) as [schema|e]; simpl;
    [|now apply errors_listed_add].
  destruct (binary_field_types (fieldTypes schema) []) as [types|e]; simpl;
    [|now apply errors_listed_add].
  destruct (binary_field_names types (fields schema) []) as [names [e|]]; simpl;
    auto. now apply errors_listed_add.
Qed.

Lemma errors_listed_store_batch X batch st :
  errors_listed (export_report st) ->
  errors_listed (export_report (fst (store_batch X batch st))).
Proof.
  intros H. unfold store_batch, batch_error.
  destruct (res_bind (py_index "response" batch) (py_index "docs")) as [docs|e];
    simpl; [|now apply errors_listed_add].
  destruct (py_truthy docs); simpl; auto.
  destruct (put_object X (s3_key X st) docs); simpl;
    [|now apply errors_listed_add].
  destruct (py_len docs); simpl; [|now apply errors_listed_add].
  destruct batch; simpl; try (now apply errors_listed_add).
  destruct (py_eq _ _); simpl; auto.
Qed.

Lemma errors_listed_export_batch X bf st :
  errors_listed (export_report st) ->
  errors_listed (export_report (fst (export_batch X bf st))).
Proof.
  intros H. unfold export_batch. rewrite send_request_eq.
  destruct (next_response X st) as [text|e]; simpl;
    [|now apply errors_listed_add].
  destruct (json_loads X (_fix_binary_fields_in_json text bf)) as [batch|e].
  - now apply errors_listed_store_batch.
  - destruct (json_decode_cases e) as [(m & ->)|Hother].
    + simpl. now apply errors_listed_add.
    + rewrite Hother. simpl. now apply errors_listed_add.
Qed.

Lemma errors_listed_export_pages X total bf fuel : forall st,
  errors_listed (export_report st) ->
  errors_listed (export_report (fst (export_pages X fuel total bf st))).
Proof.
  induction fuel as [|fuel IH]; intros st H; simpl.
  - destruct (exported_docs st <? _)%Z; auto.
  - destruct (exported_docs st <? _)%Z; auto.
    pose proof (errors_listed_export_batch X bf st H) as Hb.
    destruct (export_batch X bf st) as [st1 [|]]; simpl in *; auto.
Qed.

(** X19.  The error count of the report is the number of errors it
    lists: if that holds of the report an export starts with, it holds of
    the report the export ends with, whether [_export_regular_data]
    returns or raises. *)
Theorem export_errors_listed X fuel r res st :
  errors_listed r ->
  _export_regular_data X fuel r = Some (res, st) ->
  errors_listed (export_report st).
Proof.
  intros H. unfold _export_regular_data.
  pose proof (errors_listed_binary_fields X r H) as H1.
  destruct (_get_binary_fields X r) as [bf r1]. simpl in H1.
  destruct (read_total_docs X) as [total|e].
  - pose proof (errors_listed_export_pages X total bf fuel
                  (ExportState_init r1) H1) as H2.
    destruct (export_pages X fuel total bf (ExportState_init r1)) as [st1 [|]];
      [|discriminate].
    intros Hs. injection Hs as <- <-. simpl in *.
    now apply errors_listed_stats.
  - intros Hs. injection Hs as <- <-. exact H1.
Qed.

Lemma export_errors_listed_witness :
  exists res st,
    _export_regular_data Paging.env 5 Report_init = Some (res, st) /\
    errors_listed (export_report st).
Proof.
  do 2 eexists. split; [vm_compute; reflexivity|].
  eapply (export_errors_listed Paging.env 5 Report_init).
  - reflexivity.
  - vm_compute. reflexivity.
Defined.

(** ** Strings *)

Module StringFacts.

Lemma append_inj_l (s a b : string) : s ++ a = s ++ b -> a = b.
Proof. induction s; simpl; intros H; [assumption|]. injection H. auto. Qed.

Lemma length_string_app (a b : string) :
  String.length (a ++ b) = String.length a + String.length b.
Proof. induction a; simpl; auto. Qed.

Lemma append_inj_r (t : string) : forall a b : string, a ++ t = b ++ t -> a = b.
Proof.
  induction a as [|c a IH]; intros [|c' b] H; simpl in H; auto.
  - apply (f_equal String.length) in H. simpl in H.
    rewrite length_string_app in H. lia.
  - apply (f_equal String.length) in H. simpl in H.
    rewrite length_string_app in H. lia.
  - injection H as -> H. f_equal. auto.
Qed.

Lemma decimal_value_of_Z (z : Z) : decimal_value (PyStr.of_Z z) = z.
Proof.
  unfold decimal_value, PyStr.of_Z.
  pose proof (DecimalZ.of_to z) as Hz.
  destruct (Z.to_int z) as [[| | | | | | | | | |]|[| | | | | | | | | |]] eqn:Hd;
    try (rewrite NilZero.isi by discriminate; exact Hz).
  - rewrite NilZero.isi_posnil. rewrite <- Hz. reflexivity.
  - rewrite NilZero.isi_negnil. rewrite <- Hz. reflexivity.
Qed.

Lemma of_nat_inj (a b : nat) : PyStr.of_nat a = PyStr.of_nat b -> a = b.
Proof.
  unfold PyStr.of_nat. intros H. apply (f_equal decimal_value) in H.
  rewrite !decimal_value_of_Z in H. lia.
Qed.

End StringFacts.

Lemma batch_key_inj X a b : batch_key X a = batch_key X b -> a = b.
Proof.
  unfold batch_key. intros H.
  do 3 apply StringFacts.append_inj_l in H.
  apply StringFacts.append_inj_r in H. now apply StringFacts.of_nat_inj.
Qed.

(** ** The keys of the stored objects *)

Lemma keyed_by_nil X lo hi : keyed_by X lo hi [] [].
Proof. repeat split; constructor. Qed.

Lemma keyed_by_app X lo mid hi o1 n1 o2 n2 :
  lo <= mid -> mid <= hi ->
  keyed_by X lo mid o1 n1 -> keyed_by X mid hi o2 n2 ->
  keyed_by X lo hi (o1 ++ o2) (n1 ++ n2).
Proof.
  intros Hlm Hmh (K1 & S1 & F1) (K2 & S2 & F2). repeat split.
  - now rewrite !map_app, K1, K2.
  - clear K1 K2. induction n1 as [|a n1 IH]; simpl; auto.
    inversion S1 as [|? ? Hs Ha]; subst. inversion F1 as [|? ? Hb Hf]; subst.
    constructor; auto. apply Forall_app. split; auto.
    eapply Forall_impl; [|exact F2]. simpl. intros b Hb'. lia.
  - apply Forall_app. split.
    + eapply Forall_impl; [|exact F1]. simpl. intros; lia.
    + eapply Forall_impl; [|exact F2]. simpl. intros; lia.
Qed.

Lemma store_batch_keys X batch st st' b :
  store_batch X batch st = (st', b) ->
  batch_count st' = batch_count st /\
  (s3_objects st' = s3_objects st \/
   exists docs,
     s3_objects st' = (s3_objects st ++ [(batch_key X (batch_count st), docs)])%list).
Proof.
  unfold store_batch, batch_error.
  destruct (res_bind (py_index "response" batch) (py_index "docs")) as [docs|e].
  2:{ intros H. injection H as <- <-. auto. }
  destruct (py_truthy docs); simpl.
  2:{ intros H. injection H as <- <-. auto. }
  destruct (put_object X (s3_key X st) docs) as [u|e].
  2:{ intros H. injection H as <- <-. auto. }
  destruct (py_len docs) as [n|e].
  2:{ intros H. injection H as <- <-. simpl. split; auto. right. eauto. }
  destruct batch as [| | | | |d];
    try (intros H; injection H as <- <-; simpl; split; auto; right; eauto).
  destruct (py_eq (py_get "nextCursorMark" d) (cursor_mark st));
    intros H; injection H as <- <-; simpl; split; auto; right; eauto.
Qed.

Lemma export_batch_keys X bf st st' b :
  export_batch X bf st = (st', b) ->
  batch_count st' = S (batch_count st) /\
  exists objs ns,
    s3_objects st' = (s3_objects st ++ objs)%list /\
    keyed_by X (batch_count st) (S (batch_count st)) objs ns.
Proof.
  unfold export_batch. rewrite send_request_eq.
  assert (Hnone : forall s, s = st' ->
            batch_count s = S (batch_count st) ->
            s3_objects s = s3_objects st ->
            batch_count st' = S (batch_count st) /\
            exists objs ns,
              s3_objects st' = (s3_objects st ++ objs)%list /\
              keyed_by X (batch_count st) (S (batch_count st)) objs ns).
  { intros s <- H1 H2. split; auto. exists [], []. rewrite app_nil_r.
    split; auto. apply keyed_by_nil. }
  destruct (next_response X st) as [text|e].
  2:{ intros H. injection H as <- <-. eapply Hnone; reflexivity. }
  destruct (json_loads X (_fix_binary_fields_in_json text bf)) as [batch|e].
  - intros H. destruct (store_batch_keys _ _ _ _ _ H) as (Hc & [Ho|(docs & Ho)]);
      simpl in *.
    + eapply Hnone; eauto.
    + split; auto. exists [(batch_key X (S (batch_count st)), docs)], [S (batch_count st)].
      split; auto. split; [reflexivity|]. split.
      * constructor; constructor.
      * constructor; [lia|constructor].
  - destruct (json_decode_cases e) as [(m & ->)|Hother].
    + intros H. injection H as <- <-. eapply Hnone; reflexivity.
    + rewrite Hother. intros H. injection H as <- <-. eapply Hnone; reflexivity.
Qed.

Lemma export_pages_keys X total bf fuel : forall st st' b,
  export_pages X fuel total bf st = (st', b) ->
  batch_count st <= batch_count st' /\
  exists objs ns,
    s3_objects st' = (s3_objects st ++ objs)%list /\
    keyed_by X (batch_count st) (batch_count st') objs ns.
Proof.
  assert (Hrefl : forall st : ExportState,
            batch_count st <= batch_count st /\
            exists objs ns,
              s3_objects st = (s3_objects st ++ objs)%list /\
              keyed_by X (batch_count st) (batch_count st) objs ns).
  { intros st. split; auto. exists [], []. rewrite app_nil_r. split; auto.
    apply keyed_by_nil. }
  induction fuel as [|fuel IH]; intros st st' b; simpl.
  - destruct (exported_docs st <? _)%Z; intros H; injection H as <- <-; apply Hrefl.
  - destruct (exported_docs st <? _)%Z.
    2:{ intros H; injection H as <- <-; apply Hrefl. }
    destruct (export_batch X bf st) as [st1 [|]] eqn:Hb;
      destruct (export_batch_keys _ _ _ _ _ Hb) as (Hc & o1 & n1 & Ho1 & K1).
    + intros H. destruct (IH _ _ _ H) as (Hle & o2 & n2 & Ho2 & K2).
      split; [lia|]. exists (o1 ++ o2)%list, (n1 ++ n2)%list. split.
      * now rewrite Ho2, Ho1, app_assoc.
      * rewrite Hc in K2. eapply keyed_by_app; [| |exact K1|exact K2]; lia.
    + intros H. injection H as <- <-. split; [lia|].
      exists o1, n1. split; auto. now rewrite Hc.
Qed.

Lemma keyed_by_nodup X lo hi objs ns :
  keyed_by X lo hi objs ns -> NoDup (map fst objs).
Proof.
  intros (K & S & _). rewrite K. clear K.
  induction ns as [|n ns IH]; simpl; [constructor|].
  inversion S as [|? ? Hs Ha]; subst. constructor; auto.
  intros Hin. apply in_map_iff in Hin. destruct Hin as (m & Hm & Hin).
  apply batch_key_inj in Hm. subst m.
  rewrite Forall_forall in Ha. specialize (Ha _ Hin). lia.
Qed.

(** X20.  No stored batch overwrites another: the objects an export has
    put into the object store all have different keys (the key carries
    the number of the batch, which goes up with every page query). *)
Theorem export_keys_distinct X fuel r res st :
  _export_regular_data X fuel r = Some (res, st) ->
  NoDup (map fst (s3_objects st)).
Proof.
  unfold _export_regular_data.
  destruct (_get_binary_fields X r) as [bf r1].
  destruct (read_total_docs X) as [total|e].
  - destruct (export_pages X fuel total bf (ExportState_init r1)) as [st1 [|]] eqn:Hrun;
      [|discriminate].
    destruct (export_pages_keys _ _ _ _ _ _ _ Hrun) as (_ & objs & ns & Ho & K).
    intros H. injection H as <- <-. simpl in *. rewrite Ho.
    eapply keyed_by_nodup; eauto.
  - intros H. injection H as <- <-. simpl. constructor.
Qed.

Lemma export_keys_distinct_witness :
  exists res st,
    _export_regular_data Paging.env 5 Report_init = Some (res, st) /\
    List.length (s3_objects st) = 2 /\
    NoDup (map fst (s3_objects st)).
Proof.
  do 2 eexists. split; [vm_compute; reflexivity|].
  split; [reflexivity|].
  eapply (export_keys_distinct Paging.env 5 Report_init).
  vm_compute. reflexivity.
Defined.

(** ** The binary fields *)

Lemma binary_field_types_sound fts : forall acc types t,
  binary_field_types fts acc = Ok types ->
  In t types ->
  In t acc \/
  exists ft cls,
    In (PDict ft) fts /\
    dict_get "class" ft = Some (PStr cls) /\
    PyStr.endswith "BinaryField" cls = true /\
    (py_get "name" ft = PStr t \/
     (py_truthy (py_get "name" ft) = false /\ t = cls)).
Proof.
  induction fts as [|field_type rest IH]; intros acc types t; simpl.
  - intros H. injection H as <-. auto.
  - destruct field_type as [| | | | |d]; simpl; try discriminate.
    assert (Hrest : binary_field_types rest acc = Ok types -> In t types ->
              In t acc \/
              exists ft cls,
                In (PDict ft) (PDict d :: rest) /\
                dict_get "class" ft = Some (PStr cls) /\
                PyStr.endswith "BinaryField" cls = true /\
                (py_get "name" ft = PStr t \/
                 (py_truthy (py_get "name" ft) = false /\ t = cls))).
    { intros H Hin. destruct (IH _ _ _ H Hin) as [Ha|(ft & cls & Hf & Hrest)]; auto.
      right. exists ft, cls. split; [now right|exact Hrest]. }
    destruct (dict_get "class" d) as [[| | |c| |]|] eqn:Hc; simpl;
      try discriminate; try exact Hrest.
    destruct (PyStr.endswith "BinaryField" c) eqn:He; [|exact Hrest].
    destruct (py_truthy (py_get "name" d)) eqn:Ht.
    + destruct (py_get "name" d) as [| | |n| |] eqn:Hn; try discriminate.
      intros H Hin. destruct (IH _ _ _ H Hin) as [Ha|(ft & cls & Hf & Hrest')].
      * apply in_app_or in Ha. destruct Ha as [Ha|[<-|[]]]; auto.
        right. exists d, c. repeat split; auto; try (now left).
      * right. exists ft, cls. split; [now right|exact Hrest'].
    + intros H Hin. destruct (IH _ _ _ H Hin) as [Ha|(ft & cls & Hf & Hrest')].
      * apply in_app_or in Ha. destruct Ha as [Ha|[<-|[]]]; auto.
        right. exists d, c. repeat split; auto; try (now left).
      * right. exists ft, cls. split; [now right|exact Hrest'].
Qed.

Lemma binary_field_names_sound types fs : forall acc n,
  In n (fst (binary_field_names types fs acc)) ->
  In n acc \/
  exists f t,
    In (PDict f) fs /\ py_get "name" f = PStr n /\
    py_get "type" f = PStr t /\ In t types.
Proof.
  induction fs as [|field rest IH]; intros acc n; simpl; auto.
  assert (Hrest : In n (fst (binary_field_names types rest acc)) ->
            In n acc \/
            exists f t,
              In (PDict f) (field :: rest) /\ py_get "name" f = PStr n /\
              py_get "type" f = PStr t /\ In t types).
  { intros Hin. destruct (IH _ _ Hin) as [Ha|(f & t & Hf & Hr)]; auto.
    right. exists f, t. split; [now right|exact Hr]. }
  destruct field as [| | | | |d]; simpl; auto.
  destruct (py_get "type" d) as [| | |t| |] eqn:Ht; simpl; auto.
  destruct (existsb (String.eqb t) types) eqn:Hex; simpl; [|exact Hrest].
  destruct (py_truthy (py_get "name" d)) eqn:Htr; [|exact Hrest].
  destruct (py_get "name" d) as [| | |m| |] eqn:Hn; simpl; auto.
  intros Hin. destruct (IH _ _ Hin) as [Ha|(f & t' & Hf & Hr)].
  - apply in_app_or in Ha. destruct Ha as [Ha|[<-|[]]]; auto.
    right. exists d, t. split; [now left|]. repeat split; auto.
    apply existsb_exists in Hex. destruct Hex as (x & Hx & Heq).
    apply String.eqb_eq in Heq. now subst x.
  - right. exists f, t'. split; [now right|exact Hr].
Qed.

(** X21.  Only binary fields are treated as binary: every name that
    [_get_binary_fields] returns is the name of a field of the schema
    whose type is the name (or, for a type without a name, the class) of
    a field type of the schema whose class ends in [BinaryField].  So the
    repair of a response only ever touches values of such fields. *)
Theorem binary_fields_are_binary X r n :
  In n (fst (_get_binary_fields X r)) ->
  exists schema, export_schema X = Ok schema /\ binary_in_schema schema n.
Proof.
  unfold _get_binary_fields.
  destruct (export_schema X) as [schema|e]; simpl; [|intros []].
  destruct (binary_field_types (fieldTypes schema) []) as [types|e] eqn:Hty;
    simpl; [|intros []].
  intros Hin.
  assert (Hn : In n (fst (binary_field_names types (fields schema) []))).
  { destruct (binary_field_names types (fields schema) []) as [names [e|]];
      exact Hin. }
  destruct (binary_field_names_sound _ _ _ _ Hn) as [[]|(f & t & Hf & Hname & Htype & Ht)].
  destruct (binary_field_types_sound _ _ _ t Hty Ht) as [[]|(ft & cls & Hft & Hc & He & Hor)].
  exists schema. split; auto. exists f, t, ft, cls. repeat split; auto.
Qed.

Lemma binary_fields_are_binary_witness :
  exists schema,
    export_schema Paging.env = Ok schema /\ binary_in_schema schema "thumb".
Proof.
  apply (binary_fields_are_binary Paging.env Report_init "thumb").
  vm_compute. auto.
Defined.

(** ** From field types to the analyzers of the index *)

Lemma map_analyzer_one_name E n a w r w1 :
  _map_analyzer E n a w = (Ok r, w1) -> a_name r = n.
Proof.
  unfold _map_analyzer. unfold bind at 1.
  destruct (try_except _ _ w) as [[[mt te]|e] wa]; [|discriminate].
  unfold bind at 1.
  destruct (try_except _ _ wa) as [[[mf fe]|e] wb]; [|discriminate].
  unfold bind at 1.
  destruct (try_except _ _ wb) as [[[mc ce]|e] wc]; [|discriminate].
  destruct fe, te, ce; unfold raise, ret; intros H; try discriminate H.
  injection H as <- <-. reflexivity.
Qed.

(** X22.  How the analyzers of a field type are named.  When
    [map_analyzer] succeeds for a field type named [n], it returns, in
    this order, an analyzer named [n] if the type has an [analyzer], one
    named [n_index] if it has an [indexAnalyzer] and one named [n_query]
    if it has a [queryAnalyzer], and nothing else; these are the names
    under which [map_field] looks for the analyzers of a field. *)
Theorem map_analyzer_names E ft w l w1 n :
  map_analyzer E ft w = (Ok l, w1) ->
  py_get "name" ft = PStr n ->
  map a_name l = analyzer_names ft n.
Proof.
  intros Hrun Hn. revert Hrun.
  unfold map_analyzer, analyzer_names, analyzer_base_name. rewrite Hn.
  cbv zeta.
  unfold bind at 1.
  match goal with
  | |- context [match ?m w with _ => _ end] =>
      destruct (m w) as [[a1|e] wa] eqn:H1; [|discriminate]
  end.
  unfold bind at 1.
  match goal with
  | |- context [match ?m wa with _ => _ end] =>
      destruct (m wa) as [[a2|e] wb] eqn:H2; [|discriminate]
  end.
  unfold bind at 1.
  match goal with
  | |- context [match ?m wb with _ => _ end] =>
      destruct (m wb) as [[a3|e] wc] eqn:H3; [|discriminate]
  end.
  unfold ret. intros H. injection H as <- <-.
  rewrite !map_app. f_equal; [|f_equal].
  - destruct (py_get "analyzer" ft) eqn:Ha; simpl in *;
      try (injection H1 as <- <-; reflexivity);
      unfold bind, lift, ret in H1;
      match type of H1 with
      | context [_map_analyzer E n ?c ?w0] =>
          destruct (_map_analyzer E n c w0) as [[r|e] w'] eqn:Hm;
          [|discriminate H1];
          injection H1 as <- <-; simpl;
          now rewrite (map_analyzer_one_name _ _ _ _ _ _ Hm)
      end.
  - destruct (py_get "indexAnalyzer" ft) eqn:Ha; simpl in *;
      try (injection H2 as <- <-; reflexivity);
      unfold bind, lift, ret in H2;
      match type of H2 with
      | context [_map_analyzer E ?k ?c ?w0] =>
          destruct (_map_analyzer E k c w0) as [[r0|e] w'] eqn:Hm0;
          [|discriminate H2];
          destruct (_map_analyzer E k c w') as [[r|e] w''] eqn:Hm;
          [|discriminate H2];
          injection H2 as <- <-; simpl;
          now rewrite (map_analyzer_one_name _ _ _ _ _ _ Hm)
      end.
  - destruct (py_get "queryAnalyzer" ft) eqn:Ha; simpl in *;
      try (injection H3 as <- <-; reflexivity);
      unfold bind, lift, ret in H3;
      match type of H3 with
      | context [_map_analyzer E ?k ?c ?w0] =>
          destruct (_map_analyzer E k c w0) as [[r|e] w'] eqn:Hm;
          [|discriminate H3];
          injection H3 as <- <-; simpl;
          now rewrite (map_analyzer_one_name _ _ _ _ _ _ Hm)
      end.
Qed.

Lemma map_analyzer_names_witness :
  exists l w1,
    map_analyzer (Example.env Example.strict) general_type World_init
    = (Ok l, w1) /\
    map a_name l = ["text_general_index"; "text_general_query"].
Proof.
  do 2 eexists. split; [vm_compute; reflexivity|].
  eapply eq_trans.
  - eapply (map_analyzer_names (Example.env Example.strict) general_type
              World_init _ _ "text_general").
    + vm_compute. reflexivity.
    + reflexivity.
  - reflexivity.
Defined.

Lemma preserves_for_each R {A} (body : A -> M unit) (xs : list A) :
  (forall w, R w w) ->
  (forall w1 w2 w3, R w1 w2 -> R w2 w3 -> R w1 w3) ->
  (forall x, preserves R (body x)) -> preserves R (for_each body xs).
Proof.
  intros Hr Ht Hb. induction xs as [|x xs IH]; simpl.
  - now apply preserves_ret.
  - apply preserves_bind; auto.
Qed.

Lemma same_analyzers_refl w : same_analyzers w w.
Proof. reflexivity. Qed.

Lemma same_analyzers_trans w1 w2 w3 :
  same_analyzers w1 w2 -> same_analyzers w2 w3 -> same_analyzers w1 w3.
Proof. unfold same_analyzers. congruence. Qed.

Lemma same_analyzers_report f : preserves same_analyzers (report f).
Proof. intros w. reflexivity. Qed.

Ltac keep_analyzers :=
  repeat first
    [ apply same_analyzers_report
    | apply preserves_ret; apply same_analyzers_refl
    | apply preserves_lift; apply same_analyzers_refl
    | apply preserves_bind; [apply same_analyzers_trans| |intros]
    | apply preserves_for_each;
      [apply same_analyzers_refl|apply same_analyzers_trans|intros]
    | match goal with
      | |- preserves _ (if ?b then _ else _) => destruct b
      | |- preserves _ (match ?x with _ => _ end) => destruct x
      end ].

Lemma same_analyzers_track_success d : preserves same_analyzers (track_success d).
Proof. unfold track_success, track_analyzer. keep_analyzers. Qed.

Lemma same_analyzers_track_failure a : preserves same_analyzers (track_failure a).
Proof. unfold track_failure. keep_analyzers. Qed.

Lemma same_analyzers_map_field_type_analyzer E ft :
  preserves same_analyzers (map_field_type_analyzer E ft).
Proof.
  apply preserves_map_field_type_analyzer;
    first [apply same_analyzers_refl | apply same_analyzers_trans
          | intros; reflexivity].
Qed.

Lemma for_each_add_analyzer_registers l : forall w,
  exists w2,
    for_each add_analyzer l w = (Ok tt, w2) /\
    (forall k, dict_mem k (index_analyzers w) = true ->
               dict_mem k (index_analyzers w2) = true) /\
    (forall a, In a l -> dict_mem (a_name a) (index_analyzers w2) = true).
Proof.
  induction l as [|a l IH]; intros w; simpl.
  - exists w. split; [reflexivity|]. split; [auto|intros a []].
  - unfold bind, add_analyzer, modify.
    destruct (IH (set_index_analyzers (dict_set (a_name a) a) w))
      as (w2 & Hrun & Hkeep & Hreg).
    exists w2. split; [exact Hrun|]. split.
    + intros k Hk. apply Hkeep. simpl. rewrite dict_mem_set, Hk.
      apply orb_true_r.
    + intros b [<-|Hin]; auto.
      apply Hkeep. simpl. rewrite dict_mem_set, String.eqb_refl. reflexivity.
Qed.

(** X23.  A field type's analyzers reach the index.  If the mapping of a
    field type succeeds, then after the iteration of [_migrate_field_types]
    for it every analyzer it returned is registered in the index under its
    name, also when the report entries that follow raise; if the mapping
    raises, the iteration registers no analyzer at all. *)
Theorem migrate_field_type_registers E ft w :
  match map_field_type_analyzer E ft (set_report (upd_field_types_solr S) w) with
  | (Ok l, _) =>
      forall a, In a l ->
        analyzer_registered (a_name a) (snd (migrate_field_type E ft w)) = true
  | (Raise _, _) =>
      index_analyzers (snd (migrate_field_type E ft w)) = index_analyzers w
  end.
Proof.
  pose proof (same_analyzers_map_field_type_analyzer E ft
                (set_report (upd_field_types_solr S) w)) as Hm.
  unfold same_analyzers in Hm.
  destruct ft as [| | | | |d]; try reflexivity.
  unfold migrate_field_type, report, bind, modify, lift, try_except.
  cbn [as_dict].
  destruct (map_field_type_analyzer E (PDict d)
              (set_report (upd_field_types_solr S) w)) as [[l|e] w1];
    cbn [snd] in Hm.
  - intros a Hin.
    destruct (for_each_add_analyzer_registers l w1) as (w2 & Hrun & _ & Hreg).
    rewrite Hrun.
    pose proof (same_analyzers_track_success d
                  (set_report (upd_field_types_os S) w2)) as Ht.
    unfold same_analyzers in Ht.
    destruct (track_success d (set_report (upd_field_types_os S) w2))
      as [[u|e] w4]; cbn [snd] in Ht; unfold analyzer_registered.
    + cbn [snd]. rewrite Ht. cbn. auto.
    + destruct e; cbn [snd]; try (rewrite Ht; cbn; now auto).
      match goal with
      | |- context [track_failure ?x ?w0] =>
          pose proof (same_analyzers_track_failure x w0) as Hf;
          unfold same_analyzers in Hf
      end.
      rewrite Hf. cbn. rewrite Ht. cbn. auto.
  - destruct e; cbn [snd]; try exact Hm.
    match goal with
    | |- context [track_failure ?x ?w0] =>
        pose proof (same_analyzers_track_failure x w0) as Hf;
        unfold same_analyzers in Hf
    end.
    rewrite Hf. cbn. exact Hm.
Qed.

(** ** What [export_data] answers *)

(** X24.  The answer of [export_data] tells whether the export is switched
    on and the count query went through, and nothing else: whatever
    happens to the batches (a page query refused, a response that is not
    JSON, an object the store does not take), it answers [True].  The
    report file that [export_data] writes before it answers is not part
    of the model. *)
Theorem export_data_result X migrate_data fuel r b st :
  export_data X migrate_data fuel r = Some (b, st) ->
  b = migrate_data &&
      match read_total_docs X with Ok _ => true | Raise _ => false end.
Proof.
  unfold export_data, _export_data_to_s3, _export_regular_data.
  destruct migrate_data; simpl; [|intros H; injection H as <- <-; reflexivity].
  destruct (_get_binary_fields X r) as [bf r1].
  destruct (read_total_docs X) as [total|e].
  - destruct (export_pages X fuel total bf (ExportState_init r1)) as [st1 [|]];
      [|discriminate].
    intros H. injection H as <- <-. reflexivity.
  - intros H. injection H as <- <-. reflexivity.
Qed.

Lemma export_data_result_witness :
  exists st,
    export_data down_env true 3 Report_init = Some (true, st) /\
    s3_objects st = [] /\
    data_migration_errors (export_report st) = 1 /\
    true = true && match read_total_docs down_env with
                   | Ok _ => true
                   | Raise _ => false
                   end.
Proof.
  eexists. split; [vm_compute; reflexivity|]. split; [reflexivity|].
  split; [reflexivity|].
  eapply (export_data_result down_env true 3 Report_init).
  vm_compute. reflexivity.
Defined.

(** ** A field type whose analyzers fail, and its fields *)

Lemma same_bindings_refl w : same_bindings w w.
Proof. reflexivity. Qed.

Lemma same_bindings_trans w1 w2 w3 :
  same_bindings w1 w2 -> same_bindings w2 w3 -> same_bindings w1 w3.
Proof. unfold same_bindings. congruence. Qed.

Lemma same_bindings_report f : preserves same_bindings (report f).
Proof. intros w. reflexivity. Qed.

Lemma same_bindings_track_failure a : preserves same_bindings (track_failure a).
Proof.
  unfold track_failure.
  repeat first
    [ apply same_bindings_report
    | apply preserves_ret; apply same_bindings_refl
    | apply preserves_bind; [apply same_bindings_trans| |intros]
    | match goal with
      | |- preserves _ (match ?x with _ => _ end) => destruct x
      end ].
Qed.

(** The bindings after the iteration for a field type whose analyzers
    fail. *)
Lemma migrate_field_type_failed_bindings E ft n c w w1 aname fe te ce :
  index_str "name" ft = Ok n ->
  index_str "class" ft = Ok c ->
  map_analyzer E ft (set_report (upd_field_types_solr S) w)
  = (Raise (AnalyzerMappingException aname fe te ce), w1) ->
  _field_types_map (snd (migrate_field_type E (PDict ft) w)) =
  if skip_text_analysis_failure (migration_config E)
  then dict_set n (dict_get c (field_data_types_mapping E)) (_field_types_map w)
  else _field_types_map w.
Proof.
  intros Hn Hc Hrun.
  pose proof (map_analyzer_same_bindings E ft
                (set_report (upd_field_types_solr S) w)) as Hb.
  rewrite Hrun in Hb. unfold same_bindings in Hb. simpl in Hb.
  unfold migrate_field_type, report, bind, modify, lift, try_except.
  cbn [as_dict].
  unfold map_field_type_analyzer, _map_field_data_type, bind, lift,
    try_except, res_bind, modify, raise, ret.
  rewrite Hn, Hc, Hrun. cbn beta iota.
  destruct (skip_text_analysis_failure (migration_config E)); cbn beta iota;
    match goal with
    | |- context [track_failure ?x ?w0] =>
        pose proof (same_bindings_track_failure x w0) as Hf;
        unfold same_bindings in Hf
    end; rewrite Hf; simpl; now rewrite Hb.
Qed.

(** X25.  What [skip_text_analysis_failure] means for the fields.  Let
    the analyzers of a field type named [n], of class [c], fail to map,
    and let [n] not be bound before.  After the iteration of
    [_migrate_field_types] for it, a field of type [n] is mapped only if
    the switch is on and the data-type table has the class; its [type] is
    then the table's data type.  In every other case [map_field] raises
    a [FieldMappingException] with the message of a missing mapping. *)
Theorem failed_type_and_its_fields E ft n c w w1 aname fe te ce sf fname :
  index_str "name" ft = Ok n ->
  index_str "class" ft = Ok c ->
  map_analyzer E ft (set_report (upd_field_types_solr S) w)
  = (Raise (AnalyzerMappingException aname fe te ce), w1) ->
  get_field_type n w = None ->
  index_str "name" sf = Ok fname ->
  index_str "type" sf = Ok n ->
  let w' := snd (migrate_field_type E (PDict ft) w) in
  match (if skip_text_analysis_failure (migration_config E)
         then dict_get c (field_data_types_mapping E) else None) with
  | Some dt =>
      exists attrs,
        map_field E (PDict sf) w' = (Ok (fname, attrs), w') /\
        dict_get "type" attrs = Some (PStr dt)
  | None =>
      map_field E (PDict sf) w'
      = (Raise (FieldMappingException fname MAPPING_NOT_FOUND (Some n)), w')
  end.
Proof.
  intros Hn Hc Hrun Hunbound Hfn Hft w'.
  pose proof (migrate_field_type_failed_bindings E ft n c w w1 aname fe te ce
                Hn Hc Hrun) as Hb.
  fold w' in Hb.
  assert (Hget : get_field_type n w' =
                 if skip_text_analysis_failure (migration_config E)
                 then dict_get c (field_data_types_mapping E) else None).
  { unfold get_field_type in *. rewrite Hb.
    destruct (skip_text_analysis_failure (migration_config E)).
    - rewrite dict_get_set_eq. reflexivity.
    - exact Hunbound. }
  rewrite (map_field_run E sf fname n w' Hfn Hft), Hget.
  destruct (if skip_text_analysis_failure (migration_config E)
            then dict_get c (field_data_types_mapping E) else None) as [dt|];
    [|reflexivity].
  eexists. split; [reflexivity|].
  rewrite cleanup_keeps by discriminate.
  rewrite setup_analyzers_keeps by discriminate.
  apply dict_get_set_eq.
Qed.

Lemma failed_type_and_its_fields_witness :
  let w' := snd (migrate_field_type (Example.env Example.lenient)
                   (PDict japanese_type) World_init) in
  exists attrs,
    map_field (Example.env Example.lenient) (Example.field "body" "text_ja") w'
    = (Ok ("body", attrs), w') /\
    dict_get "type" attrs = Some (PStr "text").
Proof.
  eapply (failed_type_and_its_fields (Example.env Example.lenient)
            japanese_type "text_ja" "solr.TextField" World_init _ _ _ _ _
            [ ("name", PStr "body"); ("type", PStr "text_ja");
              ("stored", PBool true) ] "body");
    first [reflexivity | vm_compute; reflexivity].
Defined.

(** ** The filters of an analyzer, in order *)

Lemma map_filter_ok_shape E f w e w1 :
  _map_filter E f w = (Ok e, w1) ->
  exists name,
    _get_filter_name f = Ok name /\
    ((dict_get (name ++ get_hash f) (_filter_map w) = Some e /\ w1 = w) \/
     (exists c, e = BuiltFilter c /\ c_name c = name ++ get_hash f /\
                _filter_map w1 = dict_set (name ++ get_hash f) e (_filter_map w))).
Proof.
  unfold _map_filter, _process_filter_mapping_key.
  unfold bind at 1. unfold lift at 1.
  destruct (_get_filter_name f) as [n|e0]; [|discriminate].
  unfold try_except.
  destruct (dict_get n (_filter_mapping E)) as [spec|].
  2:{ simpl. discriminate. }
  unfold bind at 1. unfold gets at 1.
  destruct (dict_get (n ++ get_hash f) (_filter_map w)) as [tf|] eqn:Hc.
  - intros H. injection H as <- <-. exists n. split; auto.
  - unfold bind at 1. unfold lift at 1.
    destruct (as_dict f) as [cfg|e0].
    2:{ destruct e0; simpl; discriminate. }
    unfold bind at 1.
    pose proof (process_keys_same_filter_map E "filter_" (spec_attrs spec)
                  cfg n [] w) as Hp.
    destruct (process_keys _ _ _ _ _ w) as [[d|e0] w2]; simpl in Hp.
    + unfold bind, modify, ret. intros H. injection H as <- <-.
      exists n. split; auto. right. eexists. split; [reflexivity|].
      split; [reflexivity|]. simpl. unfold same_filter_map in Hp. now rewrite Hp.
    + destruct e0; simpl; discriminate.
Qed.

Lemma map_each_map_filter E fs : forall w r w',
  filters_cached_by_name w ->
  map_each (_map_filter E) fs w = (Ok r, w') ->
  Forall2 filter_for fs r /\ filters_cached_by_name w'.
Proof.
  induction fs as [|f fs IH]; intros w r w' Hinv; simpl.
  - unfold ret. intros H. injection H as <- <-. split; [constructor|exact Hinv].
  - unfold bind at 1.
    destruct (_map_filter E f w) as [[e|e0] w1] eqn:Hf; [|discriminate].
    unfold bind at 1.
    destruct (map_each (_map_filter E) fs w1) as [[es|e0] w2] eqn:Hrest;
      [|discriminate].
    unfold ret. intros H. injection H as <- <-.
    destruct (map_filter_ok_shape _ _ _ _ _ Hf) as (name & Hname & Hcase).
    assert (Hstep : filter_for f e /\ filters_cached_by_name w1).
    { destruct Hcase as [[Hhit ->]|(c & -> & Hc & Hmap)].
      - split; [|exact Hinv]. destruct (Hinv _ _ Hhit) as (c & -> & Hc).
        exists name, c. auto.
      - split; [exists name, c; auto|].
        intros k e' Hk. rewrite Hmap in Hk.
        destruct (String.eqb k (name ++ get_hash f)) eqn:Hkk.
        + apply String.eqb_eq in Hkk. subst k. rewrite dict_get_set_eq in Hk.
          injection Hk as <-. eauto.
        + apply String.eqb_neq in Hkk. rewrite dict_get_set_neq in Hk by assumption.
          eauto. }
    destruct Hstep as [Hfor Hinv1].
    destruct (IH _ _ _ Hinv1 Hrest) as [Hall Hinv2].
    split; [constructor; assumption|exact Hinv2].
Qed.

(** X26.  The filters of an analyzer keep their order.  On a filter
    cache that holds only token filters under their names (a fresh one,
    for one), a successful [map_filters] returns one token filter for
    each source filter, in the order of the source, each named by the
    resolved name of its source followed by the hash of the source
    definition; and the cache is again of that kind. *)
Theorem map_filters_in_order E fs w r w' :
  filters_cached_by_name w ->
  map_filters E (PList fs) w = (Ok r, w') ->
  Forall2 filter_for fs r /\ filters_cached_by_name w'.
Proof.
  intros Hinv. unfold map_filters, try_except.
  unfold bind at 1. unfold lift at 1. cbn [py_iter].
  unfold bind at 1. unfold lift at 1.
  destruct (pre_check (_filter_mapping E) _ fs) as [u|e0].
  - destruct (map_each (_map_filter E) fs w) as [[es|e0] w1] eqn:Hrun.
    + intros H. injection H as <- <-. eapply map_each_map_filter; eauto.
    + destruct e0; simpl; discriminate.
  - destruct e0; simpl; discriminate.
Qed.

Lemma map_filters_in_order_witness :
  exists r w',
    map_filters (Example.env Example.strict) (PList stop_then_lowercase) World_init
    = (Ok r, w') /\
    Forall2 filter_for stop_then_lowercase r.
Proof.
  do 2 eexists. split; [vm_compute; reflexivity|].
  eapply (map_filters_in_order (Example.env Example.strict) stop_then_lowercase
            World_init).
  - intros k e H. discriminate H.
  - vm_compute. reflexivity.
Defined.

(** ** Character filters *)

(** X27.  How a character filter is named and kept.  When
    [_map_char_filter] succeeds, the construct has the type of the table
    entry of the resolved name and is named by that name followed by the
    hash of its resolved attributes (as tokenizers are, and unlike token
    filters); and what the filter cache holds under that name afterwards
    is the bare attribute dictionary, not the construct. *)
Theorem map_char_filter_outcome E f w c w' :
  _map_char_filter E f w = (Ok c, w') ->
  exists n spec,
    _get_filter_name f = Ok n /\
    dict_get n (_char_filter_mapping E) = Some spec /\
    c_type c = spec_type spec /\
    c_name c = n ++ get_hash (PDict (c_attrs c)) /\
    dict_get (c_name c) (_filter_map w') = Some (RawDef (c_attrs c)).
Proof.
  unfold _map_char_filter, _process_char_filter_mapping_key.
  unfold bind at 1. unfold lift at 1.
  destruct (_get_filter_name f) as [n|e0]; [|discriminate].
  unfold try_except.
  destruct (dict_get n (_char_filter_mapping E)) as [spec|] eqn:Hs.
  2:{ simpl. discriminate. }
  unfold bind at 1. unfold lift at 1.
  destruct (as_dict f) as [cfg|e0].
  2:{ destruct e0; simpl; discriminate. }
  unfold bind at 1.
  destruct (process_keys _ _ _ _ _ w) as [[d|e0] w2].
  - unfold bind, modify, ret. intros H. injection H as <- <-.
    exists n, spec. repeat split; auto. simpl. apply dict_get_set_eq.
  - destruct e0; simpl; discriminate.
Qed.

Lemma map_char_filter_outcome_witness :
  exists c w',
    _map_char_filter (Example.env Example.strict)
      (PDict [("class", PStr "solr.HTMLStripCharFilterFactory")]) World_init
    = (Ok c, w') /\
    c_type c = "html_strip" /\
    dict_get (c_name c) (_filter_map w') = Some (RawDef (c_attrs c)).
Proof.
  do 2 eexists. split; [vm_compute; reflexivity|].
  edestruct (map_char_filter_outcome (Example.env Example.strict)
               (PDict [("class", PStr "solr.HTMLStripCharFilterFactory")])
               World_init)
    as (n & spec & _ & _ & _ & _ & Hget).
  - vm_compute. reflexivity.
  - split; [reflexivity|exact Hget].
Defined.
